(** * GamblingKingsBackend: game-state store and broadcast engine

    A shallow embedding of the mahjong backend's game-state service
    (gameStateDBService), user service (userDBService), broadcast engine
    (gameBroadcast) and the CREATE_GAME handler, together with the
    properties the specification states about them.

    The persistent store is modelled as three finite maps (one per table),
    asynchronous functions as a state-and-exception monad over the store
    and an effect trace (store writes, websocket sends, sleeps). One
    handler runs at a time: each store call is atomic, as in the store. *)

From Stdlib Require Import ZArith String List Bool Lia.
From stdpp Require Import base option list gmap strings.
Import ListNotations.

Local Open Scope string_scope.
Local Open Scope list_scope.
Local Open Scope Z_scope.

(* ===================================================================== *)
(** ** Data model *)
(* ===================================================================== *)

(** A tile travels as its string form (for instance [1_DOT]). *)
Definition Tile := string.

(** models/GameState: [UserHand], one per player. *)
Module UserHand.
Record t := mk {
  connectionId : string;
  hand : list Tile;
  playedTiles : list Tile;
}.
End UserHand.

(** models/GameState: [SelfPlayedTile], the public pile of one player. *)
Module SelfPlayedTile.
Record t := mk {
  connectionId : string;
  playedTiles : list Tile;
}.
End SelfPlayedTile.

(** models/GameState: [PlayedTile], one response to a discarded tile. *)
Module PlayedTile.
Record t := mk {
  connectionId : string;
  playedTiles : list Tile;
  meldType : string;
  skipInteraction : bool;
}.
End PlayedTile.

(** A GameState item. The key attribute [gameId] is the key of the table;
    every other attribute may be absent from an object at run time (a
    projected read returns only the attributes asked for, and an update on
    a missing key creates an item holding only what the update sets), so
    each is optional: [None] is JavaScript's [undefined]. *)
Module GameState.
Record t := mk {
  wall : option (list Tile);
  hands : option (list UserHand.t);
  currentIndex : option Z;
  dealer : option Z;
  currentWind : option Z;
  currentTurn : option Z;
  interactionCount : option Z;
  playedTileInteractions : option (list PlayedTile.t);
}.

(** The item with no attribute but its key. *)
Definition blank : t := mk None None None None None None None None.

Definition set_currentIndex (v : option Z) (g : t) : t :=
  mk (wall g) (hands g) v (dealer g) (currentWind g) (currentTurn g)
     (interactionCount g) (playedTileInteractions g).
Definition set_dealer (v : option Z) (g : t) : t :=
  mk (wall g) (hands g) (currentIndex g) v (currentWind g) (currentTurn g)
     (interactionCount g) (playedTileInteractions g).
Definition set_currentWind (v : option Z) (g : t) : t :=
  mk (wall g) (hands g) (currentIndex g) (dealer g) v (currentTurn g)
     (interactionCount g) (playedTileInteractions g).
Definition set_wall (v : option (list Tile)) (g : t) : t :=
  mk v (hands g) (currentIndex g) (dealer g) (currentWind g) (currentTurn g)
     (interactionCount g) (playedTileInteractions g).
Definition set_hands (v : option (list UserHand.t)) (g : t) : t :=
  mk (wall g) v (currentIndex g) (dealer g) (currentWind g) (currentTurn g)
     (interactionCount g) (playedTileInteractions g).
Definition set_interactionCount (v : option Z) (g : t) : t :=
  mk (wall g) (hands g) (currentIndex g) (dealer g) (currentWind g)
     (currentTurn g) v (playedTileInteractions g).
Definition set_playedTileInteractions (v : option (list PlayedTile.t))
    (g : t) : t :=
  mk (wall g) (hands g) (currentIndex g) (dealer g) (currentWind g)
     (currentTurn g) (interactionCount g) v.

(** ProjectionExpression: keep the attributes named in [attrs]. A name
    that is the key, or that no item carries, selects nothing here. *)
Definition project (attrs : list string) (g : t) : t :=
  let keep {A} (name : string) (v : option A) : option A :=
    if existsb (String.eqb name) attrs then v else None in
  mk (keep "wall" (wall g)) (keep "hands" (hands g))
     (keep "currentIndex" (currentIndex g)) (keep "dealer" (dealer g))
     (keep "currentWind" (currentWind g))
     (keep "currentTurn" (currentTurn g))
     (keep "interactionCount" (interactionCount g))
     (keep "playedTileInteractions" (playedTileInteractions g)).
End GameState.

(** A Connections item (models/User without its key [connectionId]). *)
Module UserItem.
Record t := mk {
  username : option string;
  gameId : option string;
}.
Definition blank : t := mk None None.
End UserItem.

(** models/User: a connection as the code passes it around. *)
Module User.
Record t := mk {
  connectionId : string;
  username : option string;
  gameId : option string;
}.
Definition of_item (key : string) (i : UserItem.t) : t :=
  mk key (UserItem.username i) (UserItem.gameId i).
End User.

Inductive GameStatesEnum := CREATED | STARTED | DELETED.

(** A Games item and the Game object; the model of the lobby entity. *)
Module Game.
Record t := mk {
  gameId : string;
  gameName : string;
  gameType : string;
  gameVersion : string;
  host : string;
  users : list User.t;
  state : GameStatesEnum;
  gameLoadedCount : Z;
}.
End Game.

(* ===================================================================== *)
(** ** Messages and effects *)
(* ===================================================================== *)

Inductive WebSocketActionsEnum :=
  | CREATE_GAME | GAME_UPDATE | GAME_START | UPDATE_GAME_STATE.

(** What a failed asynchronous call is rejected with. *)
Inductive Exn :=
  | ConditionalCheckFailedException
  | ValidationException
  | TypeError
  | Error (message : string).

(** types/payload: the payloads of the responses modelled here. *)
Inductive Payload :=
  | GameStartPayload (tiles : list Tile)
      (selfPlayedTiles : list SelfPlayedTile.t) (currentIndex : option Z)
  | UpdateGameStatePayload (dealer wind : option Z)
  | CreateGamePayload (game : option Game.t)
  | GameUpdatePayload (game : Game.t) (state : GameStatesEnum).

(** A message for a client: a literal text, or an exception as
    [JSON.stringify] or the response helper renders it. *)
Inductive ResponseBody :=
  | BodyText (s : string)
  | BodyError (e : Exn).

(** types/response: [WebSocketResponse]; [success] and [error] are the
    optional attributes the success and failure wrappers add. *)
Record WebSocketResponse := mkWebSocketResponse {
  action : WebSocketActionsEnum;
  payload : Payload;
  success : option bool;
  error : option ResponseBody;
}.

(** types/response: [LambdaResponse]; [response status body] is the
    helper of utils/responseHelper that builds one. *)
Record LambdaResponse := response {
  statusCode : Z;
  body : ResponseBody;
}.

(** Observable effects, in the order the code starts them: an item
    written to a table (with the item as written), a message sent to a
    connection, a pause. *)
Inductive Event :=
  | EvWriteGameState (gameId : string) (item : GameState.t)
  | EvWriteConnection (connectionId : string) (item : UserItem.t)
  | EvWriteGame (gameId : string) (item : Game.t)
  | EvSend (connectionId : string) (message : WebSocketResponse)
  | EvSleep (ms : Z).

(** The three tables, the effects so far, and how many random objects
    (shuffled walls, fresh ids) have been drawn. *)
Record World := mkWorld {
  gameStates : gmap string GameState.t;
  connections : gmap string UserItem.t;
  games : gmap string Game.t;
  trace : list Event;
  entropy : nat;
}.

Definition set_gameStates (m : gmap string GameState.t) (w : World) : World :=
  mkWorld m (connections w) (games w) (trace w) (entropy w).
Definition set_connections (m : gmap string UserItem.t) (w : World) : World :=
  mkWorld (gameStates w) m (games w) (trace w) (entropy w).
Definition set_games (m : gmap string Game.t) (w : World) : World :=
  mkWorld (gameStates w) (connections w) m (trace w) (entropy w).
Definition emit (e : Event) (w : World) : World :=
  mkWorld (gameStates w) (connections w) (games w) (trace w ++ [e])
          (entropy w).
Definition set_entropy (n : nat) (w : World) : World :=
  mkWorld (gameStates w) (connections w) (games w) (trace w) n.

(* ===================================================================== *)
(** ** Asynchronous computations *)
(* ===================================================================== *)

Inductive Outcome (A : Type) :=
  | Returned (a : A)
  | Threw (e : Exn).
Arguments Returned {A} a.
Arguments Threw {A} e.

(** A promise run to its end: the value it resolves to or the exception
    it is rejected with, and the world it leaves. *)
Definition Async (A : Type) : Type := World → Outcome A * World.

#[export] Instance Async_ret : MRet Async := λ A a w, (Returned a, w).
#[export] Instance Async_bind : MBind Async := λ A B f m w,
  match m w with
  | (Returned a, w') => f a w'
  | (Threw e, w') => (Threw e, w')
  end.

Definition throw {A} (e : Exn) : Async A := λ w, (Threw e, w).

(** [try { body } catch (err) { handler err }]. *)
Definition try_catch {A} (body : Async A) (handler : Exn → Async A)
    : Async A := λ w,
  match body w with
  | (Returned a, w') => (Returned a, w')
  | (Threw e, w') => handler e w'
  end.

(** [array.map(f)] where [f] has effects: left to right, stopping at the
    first exception. *)
Fixpoint mapM {A B} (f : A → Async B) (l : list A) : Async (list B) :=
  match l with
  | [] => mret []
  | x :: l' => y ← f x; ys ← mapM f l'; mret (y :: ys)
  end.

(* ===================================================================== *)
(** ** The store (dynamodb/db: the DocumentClient [DB]) *)
(* ===================================================================== *)

(** One table of the store: the event a write to it leaves, where it
    lives in the world, and the item a missing key starts from when an
    update creates it. *)
Record Table (A : Type) := mkTable {
  table_write : string → A → Event;
  table_get : World → gmap string A;
  table_set : gmap string A → World → World;
  table_blank : A;
}.
Arguments table_write {A} _ _ _.
Arguments table_get {A} _ _.
Arguments table_set {A} _ _ _.
Arguments table_blank {A} _.

Definition GAME_STATE_TABLE : Table GameState.t :=
  mkTable _ EvWriteGameState gameStates set_gameStates GameState.blank.
Definition CONNECTIONS_TABLE : Table UserItem.t :=
  mkTable _ EvWriteConnection connections set_connections UserItem.blank.

Record GetItemOutput (A : Type) := mkGetItemOutput { Item : option A }.
Arguments Item {A} _.
Record UpdateItemOutput (A : Type) := mkUpdateItemOutput {
  Attributes : option A
}.
Arguments Attributes {A} _.
Arguments mkUpdateItemOutput {A} _.
Arguments mkGetItemOutput {A} _.

Module DB.
(** [DB.get]: the item under [key], projected. *)
Definition get {A} (T : Table A) (key : string) (projection : A → A)
    : Async (GetItemOutput A) := λ w,
  (Returned (mkGetItemOutput (projection <$> table_get T w !! key)), w).

(** [DB.put] with [ReturnValues: ALL_OLD]: replaces the whole item. *)
Definition put {A} (T : Table A) (key : string) (item : A)
    : Async (UpdateItemOutput A) := λ w,
  (Returned (mkUpdateItemOutput (table_get T w !! key)),
   emit (table_write T key item)
        (table_set T (<[key := item]> (table_get T w)) w)).

(** [DB.update] with [ReturnValues: ALL_NEW]. The condition is checked
    against the stored item ([None] when the key is missing: no
    attribute exists, not even the key); when it fails the call is
    rejected and nothing is written. The update expression is applied to
    the stored item, or to the blank item when the key is missing; an
    expression that cannot be applied ([None]) is rejected as invalid.
    A condition-free update passes [λ _, true]. *)
Definition update {A} (T : Table A) (key : string)
    (ConditionExpression : option A → bool)
    (UpdateExpression : A → option A)
    : Async (UpdateItemOutput A) := λ w,
  let stored := table_get T w !! key in
  if ConditionExpression stored then
    match UpdateExpression (default (table_blank T) stored) with
    | Some new =>
        (Returned (mkUpdateItemOutput (Some new)),
         emit (table_write T key new)
              (table_set T (<[key := new]> (table_get T w)) w))
    | None => (Threw ValidationException, w)
    end
  else (Threw ConditionalCheckFailedException, w).
End DB.

(** Pieces of the store's expression language. *)

(** [attribute_exists(k)] for the key attribute [k]. *)
Definition attribute_exists_key {A} (stored : option A) : bool :=
  match stored with Some _ => true | None => false end.

(** [path < :v]; a comparison with an absent attribute is false. *)
Definition attr_lt (a : option Z) (v : Z) : bool :=
  match a with Some n => n <? v | None => false end.

(** [ADD path :n]: an absent number counts as 0. *)
Definition ADD (a : option Z) (n : Z) : option Z := Some (default 0 a + n).

(** [list_append(path, :l)]: invalid when the attribute is absent. *)
Definition list_append {A} (a : option (list A)) (l : list A)
    : option (list A) :=
  match a with Some l0 => Some (l0 ++ l) | None => None end.

(** dynamodb/dbHelper: [parseDynamoDBItem], [parseDynamoDBAttribute]. *)
Definition parseDynamoDBItem {A} (res : GetItemOutput A) : option A :=
  Item res.
Definition parseDynamoDBAttribute {A} (res : UpdateItemOutput A) : option A :=
  Attributes res.

(* ===================================================================== *)
(** ** Parameters *)
(* ===================================================================== *)

(** games/mahjong/Wall: a wall is its tiles and the cursor of the next
    tile to draw ([getTiles], [getCurrentTileIndex]). *)
Module Wall.
Record t := mk {
  getTiles : list Tile;
  getCurrentTileIndex : Z;
}.
End Wall.

(** Constants and mahjong code that the services use and that lie outside
    the modules embedded here: they are parameters of the development.
    - [DEFAULT_MAX_USERS_IN_GAME] (utils/constants);
    - [HongKongWall n]: the wall [new HongKongWall()] builds on the [n]-th
      draw of randomness;
    - [generateHongKongMahjongHands wall connectionIds]: the hands dealt
      and the wall as dealing leaves it;
    - [uuid n]: the game id made on the [n]-th draw of randomness. *)
Class Externals := {
  DEFAULT_MAX_USERS_IN_GAME : Z;
  HongKongWall : nat → Wall.t;
  generateHongKongMahjongHands :
    Wall.t → list string → list UserHand.t * Wall.t;
  uuid : nat → string;
}.

(** [new HongKongWall()]: draws randomness. *)
Definition new_HongKongWall `{Externals} : Async Wall.t := λ w,
  (Returned (HongKongWall (entropy w)), set_entropy (S (entropy w)) w).

(* ===================================================================== *)
(** ** dynamodb/gameStateDBService *)
(* ===================================================================== *)

(** Modelled from the spec: [Wall.DEFAULT_WALL_LENGTH] of
    games/mahjong/Wall, a module outside those embedded here; section 4.1
    gives 144, as does the comment in [drawTile]. *)
Definition DEFAULT_WALL_LENGTH : Z := 144.

Definition DEFAULT_GAME_STATE_PARAMS : list string :=
  ["gameId"; "wall"; "connectionIds"; "hands"; "dealer"; "currentIndex";
   "currentWind"; "currentTurn"].

Definition getGameStateByGameId (gameId : string)
    (attributesToGet : list string) : Async (option GameState.t) :=
  res ← DB.get GAME_STATE_TABLE gameId (GameState.project attributesToGet);
  mret (parseDynamoDBItem res).

Definition getCurrentTileIndex (gameId : string) : Async (option Z) :=
  currentGameState ← getGameStateByGameId gameId ["currentIndex"];
  mret (currentGameState ≫= GameState.currentIndex).

Definition getCurrentDealer (gameId : string) : Async (option Z) :=
  currentState ← getGameStateByGameId gameId ["dealer"];
  mret (currentState ≫= GameState.dealer).

Definition getCurrentWind (gameId : string) : Async (option Z) :=
  currentState ← getGameStateByGameId gameId ["currentWind"];
  mret (currentState ≫= GameState.currentWind).

Definition incrementCurrentTileIndex (gameId : string)
    : Async (option GameState.t) :=
  res ← DB.update GAME_STATE_TABLE gameId
    (λ _, true)
    (* ADD #currentIndex :incrementIndexBy *)
    (λ item, Some (GameState.set_currentIndex
                     (ADD (GameState.currentIndex item) 1) item));
  mret (parseDynamoDBAttribute res).

(** [currentIndex >= n] in JavaScript: false when the left side is
    [undefined]. *)
Definition js_ge (a : option Z) (n : Z) : bool :=
  match a with Some i => n <=? i | None => false end.

(** [array[i]] in JavaScript: [undefined] outside the array and for an
    [undefined] index. *)
Definition js_index {A} (l : list A) (i : option Z) : option A :=
  match i with
  | Some i => if 0 <=? i then l !! Z.to_nat i else None
  | None => None
  end.

Definition drawTile (gameId : string) : Async (option Tile) :=
  state ← getGameStateByGameId gameId DEFAULT_GAME_STATE_PARAMS;
  match state with
  | None => throw TypeError (* destructuring undefined *)
  | Some state =>
      let wall := GameState.wall state in
      let currentIndex := GameState.currentIndex state in
      let tileDrawn := Some EmptyString in
      if js_ge currentIndex DEFAULT_WALL_LENGTH then mret tileDrawn
      else
        match wall with
        | None => throw TypeError (* indexing undefined *)
        | Some wall =>
            let tileDrawn := js_index wall currentIndex in
            _ ← incrementCurrentTileIndex gameId;
            mret tileDrawn
        end
  end.

Section GameStateDBService.
Context `{Externals}.

Definition initGameState (gameId : string) (connectionIds : list string)
    : Async GameState.t :=
  initialWall ← new_HongKongWall;
  let '(hands, initialWall) :=
    generateHongKongMahjongHands initialWall connectionIds in
  let initialGame :=
    {| GameState.wall := Some (Wall.getTiles initialWall);
       GameState.hands := Some hands;
       GameState.currentIndex := Some (Wall.getCurrentTileIndex initialWall);
       GameState.dealer := Some 0;
       GameState.currentWind := Some 0;
       GameState.currentTurn := Some 0;
       GameState.interactionCount := Some 0;
       GameState.playedTileInteractions := Some [] |} in
  _ ← DB.put GAME_STATE_TABLE gameId initialGame;
  mret initialGame.

(** A wind that is [undefined] makes the next wind [NaN], which the
    store rejects as an invalid number. *)
Definition changeWind (gameId : string) : Async (option GameState.t) :=
  currentGameState ← getGameStateByGameId gameId DEFAULT_GAME_STATE_PARAMS;
  match currentGameState with
  | None => throw (Error "changeWind: game state not found")
  | Some currentGameState =>
      match GameState.currentWind currentGameState with
      | None => throw ValidationException
      | Some currentWindNum =>
          let nextWindNum := Z.rem (currentWindNum + 1) 4 in
          res ← DB.update GAME_STATE_TABLE gameId
            (* :nextWindNum < :maxUserCount *)
            (λ _, nextWindNum <? DEFAULT_MAX_USERS_IN_GAME)
            (* SET #currentWindKey = :nextWindNum *)
            (λ item, Some (GameState.set_currentWind (Some nextWindNum)
                             item));
          mret (parseDynamoDBAttribute res)
      end
  end.

(** A dealer that is [undefined] makes the next dealer [NaN]: it is not
    [=== 0], and the store rejects it as an invalid number. *)
Definition changeDealer (gameId : string) : Async (option GameState.t) :=
  currentGameState ← getGameStateByGameId gameId DEFAULT_GAME_STATE_PARAMS;
  match currentGameState with
  | None => throw (Error "changeDealer: game state not found")
  | Some currentGameState =>
      match GameState.dealer currentGameState with
      | None => throw ValidationException
      | Some currentDealerIndex =>
          let nextDealerIndex := Z.rem (currentDealerIndex + 1) 4 in
          _ ← (if nextDealerIndex =? 0 then changeWind gameId
               else mret None);
          res ← DB.update GAME_STATE_TABLE gameId
            (* :nextDealerIndex < :maxUserCount *)
            (λ _, nextDealerIndex <? DEFAULT_MAX_USERS_IN_GAME)
            (* SET #dealer = :nextDealerIndex *)
            (λ item, Some (GameState.set_dealer (Some nextDealerIndex)
                             item));
          mret (parseDynamoDBAttribute res)
      end
  end.

Definition setPlayedTileInteraction (gameId connectionId : string)
    (playedTiles : list Tile) (meld : string) (skipInteraction : bool)
    : Async (option GameState.t) :=
  let playedTileVal :=
    {| PlayedTile.connectionId := connectionId;
       PlayedTile.playedTiles := playedTiles;
       PlayedTile.meldType := meld;
       PlayedTile.skipInteraction := skipInteraction |} in
  res ← DB.update GAME_STATE_TABLE gameId
    (* attribute_exists(#gameIdKey)
       AND #interactionCountKey < :maxUserCount *)
    (λ stored,
       attribute_exists_key stored &&
       attr_lt (stored ≫= GameState.interactionCount)
               DEFAULT_MAX_USERS_IN_GAME)
    (* ADD #interactionCountKey :incrementIndexBy
       SET #playedTileInteractionsKey =
             list_append(#playedTileInteractionsKey, :playedTileVal) *)
    (λ item,
       appended ← list_append (GameState.playedTileInteractions item)
                              [playedTileVal];
       Some (GameState.set_playedTileInteractions (Some appended)
               (GameState.set_interactionCount
                  (ADD (GameState.interactionCount item) 1) item)));
  mret (parseDynamoDBAttribute res).

Definition resetPlayedTileInteraction (gameId : string)
    : Async (option GameState.t) :=
  res ← DB.update GAME_STATE_TABLE gameId
    (* attribute_exists(#gameIdKey) *)
    attribute_exists_key
    (* SET #interactionCountKey       = :initialInteractionCountVal,
           #playedTileInteractionsKey = :emptyPlayedTileVal *)
    (λ item,
       Some (GameState.set_playedTileInteractions (Some [])
               (GameState.set_interactionCount (Some 0) item)));
  mret (parseDynamoDBAttribute res).

Definition startNewGameRound (gameId : string)
    (connectionIds : list string) (isDealerChanged : bool)
    : Async (option GameState.t) :=
  newWall ← new_HongKongWall;
  let '(hands, newWall) :=
    generateHongKongMahjongHands newWall connectionIds in
  res ← DB.update GAME_STATE_TABLE gameId
    (* attribute_exists(gameId) *)
    attribute_exists_key
    (* SET currentIndex = :initCurrentIndex, wall = :initWall,
           hands = :initHands, interactionCount = :initInteractionCount,
           playedTileInteractions = :initPlayedTileInteractions *)
    (λ item,
       Some (GameState.set_playedTileInteractions (Some [])
               (GameState.set_interactionCount (Some 0)
                  (GameState.set_hands (Some hands)
                     (GameState.set_wall (Some (Wall.getTiles newWall))
                        (GameState.set_currentIndex
                           (Some (Wall.getCurrentTileIndex newWall))
                           item))))));
  let updatedGameState := parseDynamoDBAttribute res in
  if isDealerChanged then changeDealer gameId
  else mret updatedGameState.
End GameStateDBService.

(* ===================================================================== *)
(** ** dynamodb/userDBService *)
(* ===================================================================== *)

(** [#key = :val] for the key attribute: false when there is no item. *)
Definition key_equals {A} (stored : option A) (key val : string) : bool :=
  match stored with Some _ => String.eqb key val | None => false end.

(** [const { Attributes } = res; if (!Attributes) return undefined;
    return Attributes as User]. *)
Definition attributesAsUser (connectionId : string)
    (res : UpdateItemOutput UserItem.t) : option User.t :=
  User.of_item connectionId <$> Attributes res.

Definition saveConnection (connectionId : string) : Async User.t :=
  _ ← DB.put CONNECTIONS_TABLE connectionId UserItem.blank;
  mret (User.mk connectionId None None).

Definition setUsername (connectionId username : string)
    : Async (option User.t) :=
  res ← DB.update CONNECTIONS_TABLE connectionId
    (* #connectionIdKey = :connectionIdVal
       and :usernameVal <> :emptyString *)
    (λ stored,
       key_equals stored connectionId connectionId &&
       negb (String.eqb username EmptyString))
    (* SET #usernameKey = :usernameVal *)
    (λ item, Some (UserItem.mk (Some username) (UserItem.gameId item)));
  mret (attributesAsUser connectionId res).

Definition getUserByConnectionId (connectionId : string)
    : Async (option User.t) :=
  res ← DB.get CONNECTIONS_TABLE connectionId id;
  mret (User.of_item connectionId <$> Item res).

(** [DB.scan] of the Connections table with
    [AttributesToGet: connectionId, username]. *)
Definition getAllConnections : Async (list User.t) := λ w,
  (Returned
     (map (λ kv, User.mk kv.1 (UserItem.username kv.2) None)
          (map_to_list (connections w))), w).

Definition setGameIdForUser (connectionId gameId : string)
    : Async (option User.t) :=
  res ← DB.update CONNECTIONS_TABLE connectionId
    (* #connectionIdKey = :connectionIdVal
       AND attribute_not_exists(#gameIdKey) *)
    (λ stored,
       key_equals stored connectionId connectionId &&
       negb (bool_decide (is_Some (stored ≫= UserItem.gameId))))
    (* SET #gameIdKey = :gameIdVal *)
    (λ item, Some (UserItem.mk (UserItem.username item) (Some gameId)));
  mret (attributesAsUser connectionId res).

(* ===================================================================== *)
(** ** utils/broadcastHelper *)
(* ===================================================================== *)

Definition getConnectionIdsFromUsers (usersList : list User.t)
    : list string :=
  map User.connectionId usersList.

Definition getConnectionIdsExceptCaller (callerConnectionId : string)
    (connectionIds : list string) : list string :=
  filter (λ otherConnectionId, otherConnectionId ≠ callerConnectionId)
         connectionIds.

(** Modelled from the spec: [sleep] of utils/broadcastHelper, which the
    embedded version of that module lacks; section 4.4: a wait of a fixed
    delay. *)
Definition sleep (ms : Z) : Async unit := λ w,
  (Returned tt, emit (EvSleep ms) w).

(* ===================================================================== *)
(** ** websocket/WebSocketClient and websocket/createWSResponse *)
(* ===================================================================== *)

(** The client built from a request context; it carries no state of
    interest here. *)
Inductive WebSocketClient := mkWebSocketClient.

Module ws.
(** Modelled from the spec: [WebSocketClient.send], a module outside
    those embedded here; section 6: [send(message, connectionId)] delivers
    one message to one connection. *)
Definition send (ws : WebSocketClient) (msg : WebSocketResponse)
    (connectionId : string) : Async unit := λ w,
  (Returned tt, emit (EvSend connectionId msg) w).
End ws.

(** Modelled from the spec: the response builders of
    websocket/createWSResponse in the version gameBroadcast imports, of
    which only the tests are at hand; section 6 and those tests: each
    pairs its action with the payload given, and the success and failure
    wrappers add [success] and [error]. *)
Definition createWSResponse (action : WebSocketActionsEnum)
    (payload : Payload) : WebSocketResponse :=
  mkWebSocketResponse action payload None None.

Definition createGameStartResponse (tiles : list Tile)
    (selfPlayedTiles : list SelfPlayedTile.t) (currentIndex : option Z)
    : WebSocketResponse :=
  createWSResponse GAME_START
    (GameStartPayload tiles selfPlayedTiles currentIndex).

Definition createUpdateGameStateResponse (dealer wind : option Z)
    : WebSocketResponse :=
  createWSResponse UPDATE_GAME_STATE (UpdateGameStatePayload dealer wind).

Definition createGameResponse (game : option Game.t) : WebSocketResponse :=
  createWSResponse CREATE_GAME (CreateGamePayload game).

Definition createGameUpdateResponse (game : Game.t) (state : GameStatesEnum)
    : WebSocketResponse :=
  createWSResponse GAME_UPDATE (GameUpdatePayload game state).

Definition successWebSocketResponse (r : WebSocketResponse)
    : WebSocketResponse :=
  mkWebSocketResponse (action r) (payload r) (Some true) (error r).

Definition failedWebSocketResponse (r : WebSocketResponse)
    (err : ResponseBody) : WebSocketResponse :=
  mkWebSocketResponse (action r) (payload r) (Some false) (Some err).

(* ===================================================================== *)
(** ** dynamodb/dbHelper and dynamodb/gameDBService *)
(* ===================================================================== *)

(** Modelled from the spec: [getHandByConnectionId] of dynamodb/dbHelper,
    a module outside those embedded here. Sections 4.4 and 6: the hand sent
    to a connection is that connection's own, so the helper returns the
    entry of [hands] that carries the connection id ([undefined] when none
    does). *)
Definition getHandByConnectionId (hands : list UserHand.t)
    (connectionId : string) : option UserHand.t :=
  List.find (λ hand, String.eqb (UserHand.connectionId hand) connectionId)
            hands.

(** [removeDynamoDocumentVersion] drops the store's version attribute,
    which the Game model here does not carry. *)
Definition removeDynamoDocumentVersion (game : Game.t) : Game.t := game.

Definition GAMES_TABLE : Table Game.t :=
  mkTable _ EvWriteGame games set_games
    (Game.mk EmptyString EmptyString EmptyString EmptyString EmptyString []
             CREATED 0).

(** Modelled from the spec: [getGameByGameId] of dynamodb/gameDBService,
    a module outside those embedded here. Section 7: the Game under the
    id, or an absent value. *)
Definition getGameByGameId (gameId : string) : Async (option Game.t) :=
  res ← DB.get GAMES_TABLE gameId id;
  mret (parseDynamoDBItem res).

(** [createGame] of dynamodb/gameDBService lies outside the modules
    embedded here: a parameter. It takes the connection id of the creator
    and the name, the type and the version of the game, and resolves to
    the Game it made. *)
Class GameCreation := {
  createGame : string → string → string → string → Async Game.t;
}.

(* ===================================================================== *)
(** ** websocket/broadcast/gameBroadcast *)
(* ===================================================================== *)

Section GameBroadcast.
Context `{Externals}.

Definition broadcastGameUpdate (ws : WebSocketClient) (gameId : string)
    (state : GameStatesEnum) (callerConnectionId : string)
    (allConnectionIds : list string) (sendToAll : bool)
    : Async (option Game.t) :=
  updatedGame ← getGameByGameId gameId;
  match updatedGame with
  | Some updatedGame =>
      let updatedGame := removeDynamoDocumentVersion updatedGame in
      let wsResponse := createGameUpdateResponse updatedGame state in
      _ ← (if sendToAll then
             mapM (λ connectionId, ws.send ws wsResponse connectionId)
                  allConnectionIds
           else
             let otherConnectionIds :=
               getConnectionIdsExceptCaller callerConnectionId
                                            allConnectionIds in
             mapM (λ otherConnectionId,
                     ws.send ws wsResponse otherConnectionId)
                  otherConnectionIds);
      mret (Some updatedGame)
  | None => mret None
  end.

(** [hands.map] on hands that are [undefined], and destructuring the
    [undefined] that [getHandByConnectionId] found, are type errors. *)
Definition broadcastGameStart (ws : WebSocketClient) (gameId : string)
    (connectionIds : list string) (startNewGame : bool)
    (gameState : option GameState.t) : Async unit :=
  '(hands, currentIndex) ←
    (if startNewGame then
       newGameState ← initGameState gameId connectionIds;
       mret (GameState.hands newGameState,
             GameState.currentIndex newGameState)
     else
       match gameState with
       | Some gameState =>
           mret (GameState.hands gameState,
                 GameState.currentIndex gameState)
       | None =>
           throw (Error "broadcastGameStart: Failed to start a new game, please double check params passed in")
       end);
  match hands with
  | None => throw TypeError
  | Some hands =>
      let allSelfPlayedTilesAtStart :=
        map (λ hand,
               {| SelfPlayedTile.connectionId := UserHand.connectionId hand;
                  SelfPlayedTile.playedTiles := UserHand.playedTiles hand |})
            hands in
      _ ← mapM (λ connectionId,
                  match getHandByConnectionId hands connectionId with
                  | None => throw TypeError
                  | Some userHand =>
                      let tiles := UserHand.hand userHand in
                      let wsResponse :=
                        createGameStartResponse tiles
                          allSelfPlayedTilesAtStart currentIndex in
                      ws.send ws wsResponse connectionId
                  end)
               connectionIds;
      mret tt
  end.

Definition broadcastUpdateGameState (ws : WebSocketClient)
    (connectionIds : list string) (dealer wind : option Z) : Async unit :=
  let wsResponse := createUpdateGameStateResponse dealer wind in
  _ ← mapM (λ cid, ws.send ws wsResponse cid) connectionIds;
  mret tt.

Definition broadcastGameReset (ws : WebSocketClient)
    (connectionIds : list string) (gameState : GameState.t)
    : Async unit :=
  broadcastGameStart ws EmptyString connectionIds false (Some gameState).

(** The part of [startNewRoundAndSendUpdates] that follows
    [await startNewGameRound(...)], as a function of what the call
    resolved to. *)
Definition sendUpdatesOfNewRound (ws : WebSocketClient)
    (connectionIds : list string) (updatedGameState : option GameState.t)
    : Async (option LambdaResponse) :=
  match updatedGameState with
  | None =>
      mret (Some (response 400 (BodyText "Cannot start new game round")))
  | Some updatedGameState =>
      let newDealer := GameState.dealer updatedGameState in
      let currentWind := GameState.currentWind updatedGameState in
      _ ← broadcastUpdateGameState ws connectionIds newDealer currentWind;
      _ ← sleep 5000;
      _ ← broadcastGameReset ws connectionIds updatedGameState;
      mret None
  end.

(** [users[dealer].connectionId] is a type error when [users[dealer]] is
    [undefined]. *)
Definition startNewRoundAndSendUpdates (ws : WebSocketClient)
    (gameId connectionId : string) (users : list User.t)
    (dealer : option Z) : Async (option LambdaResponse) :=
  let connectionIds := getConnectionIdsFromUsers users in
  match js_index users dealer with
  | None => throw TypeError
  | Some dealerUser =>
      updatedGameState ←
        startNewGameRound gameId connectionIds
          (bool_decide (User.connectionId dealerUser ≠ connectionId));
      sendUpdatesOfNewRound ws connectionIds updatedGameState
  end.
End GameBroadcast.

(* ===================================================================== *)
(** ** functions/lobby/onCreateGame *)
(* ===================================================================== *)

(** The [game] attribute of a CREATE_GAME payload. *)
Record GamePayload := mkGamePayload {
  payload_gameName : string;
  payload_gameType : string;
  payload_gameVersion : string;
}.

(** A websocket event after [JSON.parse]: the caller and the payload's
    optional [game]. *)
Record WebSocketAPIGatewayEvent := mkEvent {
  requestContext_connectionId : string;
  body_payload_game : option GamePayload;
}.

Definition onCreateGame `{GameCreation} (event : WebSocketAPIGatewayEvent)
    : Async LambdaResponse :=
  let connectionId := requestContext_connectionId event in
  let game := body_payload_game event in
  let ws := mkWebSocketClient in
  let emptyGameResponse := createGameResponse None in
  try_catch
    (match game with
     | None =>
         let gameResponse :=
           failedWebSocketResponse emptyGameResponse
             (BodyText "Games attribute cannot be empty") in
         _ ← ws.send ws gameResponse connectionId;
         mret (response 400 (BodyText "Games attribute cannot be empty"))
     | Some game =>
         returnedGameObj ←
           createGame connectionId (payload_gameName game)
                      (payload_gameType game) (payload_gameVersion game);
         let returnedGameObj := removeDynamoDocumentVersion returnedGameObj in
         _ ← setGameIdForUser connectionId (Game.gameId returnedGameObj);
         let res := createGameResponse (Some returnedGameObj) in
         let wsResponse := successWebSocketResponse res in
         _ ← ws.send ws wsResponse connectionId;
         let gameId := Game.gameId returnedGameObj in
         users ← getAllConnections;
         let connectionIds := getConnectionIdsFromUsers users in
         _ ← (if negb (String.eqb gameId EmptyString) then
                broadcastGameUpdate ws gameId CREATED connectionId
                                    connectionIds false
              else mret None);
         mret (response 200 (BodyText "Game created successfully"))
     end)
    (λ err,
       let wsResponse :=
         failedWebSocketResponse emptyGameResponse (BodyError err) in
       _ ← ws.send ws wsResponse connectionId;
       mret (response 500 (BodyError err))).


(* ===================================================================== *)
(** ** Vocabulary of the properties *)
(* ===================================================================== *)

(** The world after [item] is written under [gameId]. *)
Definition writeGameState (gameId : string) (item : GameState.t)
    (w : World) : World :=
  emit (EvWriteGameState gameId item)
       (set_gameStates (<[gameId := item]> (gameStates w)) w).

(** The world after [item] is written under [connectionId]. *)
Definition writeConnection (connectionId : string) (item : UserItem.t)
    (w : World) : World :=
  emit (EvWriteConnection connectionId item)
       (set_connections (<[connectionId := item]> (connections w)) w).

(** The current tile index of a game, when the game has one. *)
Definition currentIndexOf (gameId : string) (w : World) : option Z :=
  gameStates w !! gameId ≫= GameState.currentIndex.

(** [interactionCount] is the length of [playedTileInteractions]. *)
Definition interactionsConsistent (g : GameState.t) : bool :=
  match GameState.interactionCount g, GameState.playedTileInteractions g with
  | Some n, Some l => n =? Z.of_nat (length l)
  | _, _ => false
  end.

(** Every stored game state counts its interactions rightly. *)
Definition InteractionInvariant (w : World) : Prop :=
  map_Forall (λ _ g, interactionsConsistent g = true) (gameStates w).

(** The state in which a negotiation starts: no response collected. *)
Definition interactionsReset (g : GameState.t) : Prop :=
  GameState.interactionCount g = Some 0 ∧
  GameState.playedTileInteractions g = Some [].

(** One call of [setPlayedTileInteraction] on a game: its arguments. *)
Record Interaction := mkInteraction {
  by_connectionId : string;
  with_playedTiles : list Tile;
  with_meld : string;
  with_skipInteraction : bool;
}.

(** The record a call appends. *)
Definition playedTileOf (c : Interaction) : PlayedTile.t :=
  {| PlayedTile.connectionId := by_connectionId c;
     PlayedTile.playedTiles := with_playedTiles c;
     PlayedTile.meldType := with_meld c;
     PlayedTile.skipInteraction := with_skipInteraction c |}.

(** The calls of [calls], one after the other. *)
Definition setPlayedTileInteractions `{Externals} (gameId : string)
    (calls : list Interaction) : Async (list (option GameState.t)) :=
  mapM (λ c, setPlayedTileInteraction gameId (by_connectionId c)
               (with_playedTiles c) (with_meld c) (with_skipInteraction c))
       calls.

(** The messages of a trace that went to [connectionId], in order. *)
Definition messagesTo (connectionId : string) (t : list Event)
    : list WebSocketResponse :=
  omap (λ e, match e with
             | EvSend c m => if String.eqb c connectionId then Some m else None
             | _ => None
             end) t.

(** The sends of a trace, in order. *)
Definition sendsOf (t : list Event) : list (string * WebSocketResponse) :=
  omap (λ e, match e with EvSend c m => Some (c, m) | _ => None end) t.

(** The events that are writes to the store. *)
Definition isWrite (e : Event) : bool :=
  match e with
  | EvWriteGameState _ _ | EvWriteConnection _ _ | EvWriteGame _ _ => true
  | _ => false
  end.

(** Two deals that show the same to [connectionId]: the same players in
    the same order with the same public piles, and the same concealed hand
    for [connectionId]; the concealed hands of the others are free. *)
Definition sameViewFor (connectionId : string)
    (hands1 hands2 : list UserHand.t) : Prop :=
  Forall2 (λ h1 h2,
             UserHand.connectionId h1 = UserHand.connectionId h2 ∧
             UserHand.playedTiles h1 = UserHand.playedTiles h2 ∧
             (UserHand.connectionId h1 = connectionId →
              UserHand.hand h1 = UserHand.hand h2))
          hands1 hands2.

(** The game state [startNewGameRound] writes over [g] on the [n]-th draw
    of randomness: a fresh wall, fresh hands, no interaction; the other
    attributes are those of [g]. *)
Definition dealtRound `{Externals} (n : nat) (connectionIds : list string)
    (g : GameState.t) : GameState.t :=
  let dealt := generateHongKongMahjongHands (HongKongWall n) connectionIds in
  {| GameState.wall := Some (Wall.getTiles dealt.2);
     GameState.hands := Some dealt.1;
     GameState.currentIndex := Some (Wall.getCurrentTileIndex dealt.2);
     GameState.dealer := GameState.dealer g;
     GameState.currentWind := GameState.currentWind g;
     GameState.currentTurn := GameState.currentTurn g;
     GameState.interactionCount := Some 0;
     GameState.playedTileInteractions := Some [] |}.

(** The game state [initGameState] stores on the [n]-th draw of
    randomness. *)
Definition initialGame `{Externals} (n : nat) (connectionIds : list string)
    : GameState.t :=
  let dealt := generateHongKongMahjongHands (HongKongWall n) connectionIds in
  {| GameState.wall := Some (Wall.getTiles dealt.2);
     GameState.hands := Some dealt.1;
     GameState.currentIndex := Some (Wall.getCurrentTileIndex dealt.2);
     GameState.dealer := Some 0;
     GameState.currentWind := Some 0;
     GameState.currentTurn := Some 0;
     GameState.interactionCount := Some 0;
     GameState.playedTileInteractions := Some [] |}.

(** The world once one more random object has been drawn. *)
Definition drawn (w : World) : World := set_entropy (S (entropy w)) w.

(** The conditional write of the next dealer, as [changeDealer] ends. *)
Definition writeNextDealer `{Externals} (gameId : string)
    (nextDealerIndex : Z) (w : World) : Outcome (option GameState.t) * World :=
  if nextDealerIndex <? DEFAULT_MAX_USERS_IN_GAME then
    let g' :=
      GameState.set_dealer (Some nextDealerIndex)
        (default GameState.blank (gameStates w !! gameId)) in
    (Returned (Some g'), writeGameState gameId g' w)
  else (Threw ConditionalCheckFailedException, w).

(** How an operation on one game may treat the interactions: the other
    games are as before, and the game is as absent as before or keeps both
    interaction attributes. *)
Definition keepsInteractions (gameId : string) (w w' : World) : Prop :=
  (∀ other, other ≠ gameId →
     gameStates w' !! other = gameStates w !! other) ∧
  match gameStates w !! gameId with
  | None => gameStates w' !! gameId = None
  | Some g =>
      ∃ g', gameStates w' !! gameId = Some g' ∧
            GameState.interactionCount g' = GameState.interactionCount g ∧
            GameState.playedTileInteractions g'
            = GameState.playedTileInteractions g
  end.

(** The world after the events [es], in order. *)
Definition emitAll (es : list Event) (w : World) : World :=
  mkWorld (gameStates w) (connections w) (games w) (trace w ++ es)
          (entropy w).

(** The public piles, as every GAME_START message carries them. *)
Definition publicPiles (hands : list UserHand.t) : list SelfPlayedTile.t :=
  map (λ hand, SelfPlayedTile.mk (UserHand.connectionId hand)
                                 (UserHand.playedTiles hand)) hands.

(** The sends [broadcastGameStart] starts for [connectionIds]: one for
    each connection, up to the first that has no hand. *)
Fixpoint gameStartSends (hands : list UserHand.t) (currentIndex : option Z)
    (connectionIds : list string) : list Event :=
  match connectionIds with
  | [] => []
  | c :: cs =>
      match getHandByConnectionId hands c with
      | None => []
      | Some userHand =>
          EvSend c (createGameStartResponse (UserHand.hand userHand)
                      (publicPiles hands) currentIndex)
          :: gameStartSends hands currentIndex cs
      end
  end.

(** Every connection of [connectionIds] has a hand in [hands]. *)
Definition allHaveHands (hands : list UserHand.t)
    (connectionIds : list string) : bool :=
  forallb (λ c, bool_decide (is_Some (getHandByConnectionId hands c)))
          connectionIds.

(** From [w] to [w'] nothing happened but writes to the store. *)
Definition onlyWrites (w w' : World) : Prop :=
  ∃ writes, trace w' = trace w ++ writes ∧ forallb isWrite writes = true.

(* ===================================================================== *)
(** ** Sample data *)
(* ===================================================================== *)

Module Sample.
Definition tiles : list Tile :=
  repeat "1_DOT" 52 ++ repeat "2_BAMBOO" 52 ++ repeat "EAST" 40.

Definition handOf (from : nat) (connectionId : string) : UserHand.t :=
  UserHand.mk connectionId (take 13 (drop from tiles)) [].

Fixpoint deal (from : nat) (connectionIds : list string)
    : list UserHand.t :=
  match connectionIds with
  | [] => []
  | c :: cs => handOf from c :: deal (from + 13) cs
  end.

(** Four players at most, a fixed wall, thirteen tiles each. *)
Definition externals : Externals :=
  {| DEFAULT_MAX_USERS_IN_GAME := 4;
     HongKongWall := λ _, Wall.mk tiles 0;
     generateHongKongMahjongHands := λ wall connectionIds,
       (deal 0 connectionIds,
        Wall.mk (Wall.getTiles wall)
                (13 * Z.of_nat (length connectionIds)));
     uuid := λ _, "game-2" |}.

(** The same with room for one player only. *)
Definition tightExternals : Externals :=
  {| DEFAULT_MAX_USERS_IN_GAME := 1;
     HongKongWall := @HongKongWall externals;
     generateHongKongMahjongHands :=
       @generateHongKongMahjongHands externals;
     uuid := @uuid externals |}.

(** A [createGame] with no check of its own: it stores the game of the
    creator, as host and only user, under the next id. *)
Definition gameCreation : GameCreation :=
  {| createGame := λ creatorConnectionId gameName gameType gameVersion,
       creator ← getUserByConnectionId creatorConnectionId;
       gameId ← (λ w, (Returned (@uuid externals (entropy w)),
                       set_entropy (S (entropy w)) w));
       let host :=
         default (User.mk creatorConnectionId None None) creator in
       let game :=
         {| Game.gameId := gameId; Game.gameName := gameName;
            Game.gameType := gameType; Game.gameVersion := gameVersion;
            Game.host := creatorConnectionId; Game.users := [host];
            Game.state := CREATED; Game.gameLoadedCount := 0 |} in
       _ ← DB.put GAMES_TABLE gameId game;
       mret game |}.

Definition connectionIds : list string := ["c1"; "c2"; "c3"; "c4"].

Definition users : list User.t :=
  map (λ c, User.mk c None (Some "game-1")) connectionIds.

Definition state (currentIndex dealer currentWind : Z) : GameState.t :=
  {| GameState.wall := Some tiles;
     GameState.hands := Some (deal 0 connectionIds);
     GameState.currentIndex := Some currentIndex;
     GameState.dealer := Some dealer;
     GameState.currentWind := Some currentWind;
     GameState.currentTurn := Some 0;
     GameState.interactionCount := Some 0;
     GameState.playedTileInteractions := Some [] |}.

(** One game under way, its four players connected and attached. *)
Definition world (currentIndex dealer currentWind : Z) : World :=
  {| gameStates := {[ "game-1" := state currentIndex dealer currentWind ]};
     connections :=
       list_to_map
         (map (λ c, (c, UserItem.mk (Some c) (Some "game-1")))
              connectionIds);
     games := ∅;
     trace := [];
     entropy := 0 |}.

(** The deal of the sample game with other tiles for player c2. *)
Definition otherDeal : list UserHand.t :=
  [handOf 0 "c1"; UserHand.mk "c2" (repeat "EAST" 13) [];
   handOf 26 "c3"; handOf 39 "c4"].

Definition skip (connectionId : string) : Interaction :=
  mkInteraction connectionId ["1_DOT"] EmptyString true.
End Sample.

(* ===================================================================== *)
(** ** More of the services *)
(* ===================================================================== *)

(** [DB.delete] with [ReturnValues: ALL_OLD]: removes the item under [key]
    and returns it. The trace keeps the items written, the sends and the
    pauses; a deletion shows in the table only. *)
Definition DB_delete {A} (T : Table A) (key : string)
    : Async (UpdateItemOutput A) := λ w,
  (Returned (mkUpdateItemOutput (table_get T w !! key)),
   table_set T (delete key (table_get T w)) w).

(** *** dynamodb/gameStateDBService, continued *)

(** The cast [as GameState] does not check: reading [.wall] of the
    [undefined] a missing game gives is a type error. *)
Definition getCurrentWallByGameId (gameId : string)
    : Async (option (list Tile)) :=
  currentGameState ← getGameStateByGameId gameId DEFAULT_GAME_STATE_PARAMS;
  match currentGameState with
  | None => throw TypeError
  | Some currentGameState => mret (GameState.wall currentGameState)
  end.

Definition getCurrentPlayedTile (gameId : string)
    : Async (option (list PlayedTile.t)) :=
  currentGameState ← getGameStateByGameId gameId ["playedTileInteractions"];
  mret (currentGameState ≫= GameState.playedTileInteractions).

Definition getInteractionCount (gameId : string) : Async (option Z) :=
  currentGameState ← getGameStateByGameId gameId ["interactionCount"];
  mret (currentGameState ≫= GameState.interactionCount).

Definition deleteGameState (gameId : string) : Async (option GameState.t) :=
  res ← DB_delete GAME_STATE_TABLE gameId;
  mret (parseDynamoDBAttribute res).

(** *** dynamodb/userDBService, continued *)

Definition deleteConnection (connectionId : string)
    : Async (option User.t) :=
  res ← DB_delete CONNECTIONS_TABLE connectionId;
  mret (attributesAsUser connectionId res).

Definition removeGameIdFromUser (connectionId : string)
    : Async (option User.t) :=
  res ← DB.update CONNECTIONS_TABLE connectionId
    (* #connectionIdKey = :connectionIdVal
       AND attribute_exists(#gameIdKey) *)
    (λ stored,
       key_equals stored connectionId connectionId &&
       bool_decide (is_Some (stored ≫= UserItem.gameId)))
    (* REMOVE #gameIdKey *)
    (λ item, Some (UserItem.mk (UserItem.username item) None));
  mret (attributesAsUser connectionId res).

(** *** What the broadcasts take from elsewhere *)

(** The action of an in-game message: joining or leaving. *)
Inductive InGameAction := JOIN_GAME | LEAVE_GAME.

(** Code the broadcasts and handlers below call and that lies outside the
    modules embedded here: parameters.
    - the types of a scored hand, of a SELF_PLAY_TILE payload and of the
      user states, with the state [CONNECTED];
    - [getUsersInGame], [addUserToGame] and [getAllGames] of
      dynamodb/gameDBService;
    - [JSON_stringify], the rendering of a list of users;
    - the response builders of websocket/createWSResponse; the two that
      stamp the time take the reading of the clock first. *)
Class Collaborators := {
  HandPointResults : Type;
  SelfPlayTilePayload : Type;
  UserStates : Type;
  CONNECTED : UserStates;
  getUsersInGame : string → Async (option (list User.t));
  addUserToGame : string → string → Async (option Game.t);
  getAllGames : Async (list Game.t);
  JSON_stringify : list User.t → string;
  createDrawRoundResponse : string → string → WebSocketResponse;
  createDrawTileResponse : Tile → option Z → WebSocketResponse;
  createPlayTileResponse : string → Tile → WebSocketResponse;
  createWinningTilesResponse : string → HandPointResults → WebSocketResponse;
  createSelfPlayTileResponse : SelfPlayTilePayload → WebSocketResponse;
  createInGameUpdateResponse : list User.t → WebSocketResponse;
  createInGameMessageResponse : nat → string → string → WebSocketResponse;
  createGetAllUsersResponse : list User.t → WebSocketResponse;
  createGetAllGamesResponse : list Game.t → WebSocketResponse;
  createUserUpdateResponse : User.t → UserStates → WebSocketResponse;
  createSendMessageResponse : nat → string → string → WebSocketResponse;
  createJoinGameResponse : option Game.t → WebSocketResponse;
}.

(** The reading of the clock: one more draw from the world. *)
Definition now : Async nat := λ w,
  (Returned (entropy w), set_entropy (S (entropy w)) w).

(** A string in a condition: [undefined] and the empty string are false. *)
Definition truthy (s : option string) : bool :=
  match s with
  | Some s => negb (String.eqb s EmptyString)
  | None => false
  end.

(** [a || b] on strings. *)
Definition js_or (a : option string) (b : string) : string :=
  match a with
  | Some s => if String.eqb s EmptyString then b else s
  | None => b
  end.

(** [Promise.all(connectionIds.map((cid) => ws.send(wsResponse, cid)))]:
    the same response to each connection of the list, in order. *)
Definition sendToEach (ws : WebSocketClient) (wsResponse : WebSocketResponse)
    (connectionIds : list string) : Async (list unit) :=
  mapM (λ cid, ws.send ws wsResponse cid) connectionIds.

(** *** websocket/broadcast/gameBroadcast, continued *)

Section MoreGameBroadcast.
Context `{Externals} `{Collaborators}.

Definition broadcastGames (ws : WebSocketClient) (connectionId : string)
    : Async (list Game.t) :=
  games ← getAllGames;
  let games := map removeDynamoDocumentVersion games in
  let wsResponse := createGetAllGamesResponse games in
  _ ← ws.send ws wsResponse connectionId;
  mret games.

(** Without [callerUsername] the user is read and cast [as User]: reading
    [.username] of the [undefined] a missing connection gives is a type
    error. *)
Definition broadcastInGameMessage (ws : WebSocketClient)
    (callerConnectionId : string) (action : InGameAction)
    (connectionIds : list string) (callerUsername : option string)
    : Async unit :=
  username ←
    (if negb (truthy callerUsername) then
       user ← getUserByConnectionId callerConnectionId;
       match user with
       | None => throw TypeError
       | Some user => mret (js_or (User.username user) "Unknown User")
       end
     else mret (default EmptyString callerUsername));
  let actionWord :=
    match action with JOIN_GAME => "joined" | LEAVE_GAME => "left" end in
  let message :=
    String.append (js_or (Some username) callerConnectionId)
      (String.append " just "
         (String.append actionWord " the game.")) in
  let otherConnectionIds :=
    filter (λ otherConnectionId, otherConnectionId ≠ callerConnectionId)
           connectionIds in
  time ← now;
  let wsResponse := createInGameMessageResponse time username message in
  _ ← sendToEach ws wsResponse otherConnectionIds;
  mret tt.

Definition broadcastInGameUpdate (ws : WebSocketClient)
    (callerConnectionId : string) (usersInGame : list User.t)
    : Async (list User.t) :=
  let otherConnectionIds :=
    getConnectionIdsExceptCaller callerConnectionId
      (getConnectionIdsFromUsers usersInGame) in
  let wsResponse := createInGameUpdateResponse usersInGame in
  _ ← sendToEach ws wsResponse otherConnectionIds;
  mret usersInGame.

Definition broadcastDrawRound (ws : WebSocketClient)
    (gameId connectionId : string) (connectionIds : list string)
    : Async unit :=
  let wsResponse := createDrawRoundResponse gameId connectionId in
  _ ← sendToEach ws wsResponse connectionIds;
  mret tt.

(** [!tileDrawn || tileDrawn === ''] holds for [undefined] and for the
    empty string; [currentIndex !== 144] holds for [undefined]. *)
Definition broadcastDrawTileToUser (ws : WebSocketClient)
    (gameId connectionId : string) : Async unit :=
  tileDrawn ← drawTile gameId;
  if negb (truthy tileDrawn) then
    currentIndex ← getCurrentTileIndex gameId;
    if negb (bool_decide (currentIndex = Some DEFAULT_WALL_LENGTH)) then
      throw (Error "broadcastDrawTileToUser: Draw empty tile while currentIndex did not reach 144")
    else
      users ← getUsersInGame gameId;
      match users with
      | None =>
          throw (Error "broadcastDrawTileToUser: No user found in game, failed to broadcast DRAW_ROUND")
      | Some users =>
          let connectionIds := getConnectionIdsFromUsers users in
          _ ← broadcastDrawRound ws gameId connectionId connectionIds;
          currentDealer ← getCurrentDealer gameId;
          _ ← startNewRoundAndSendUpdates ws gameId connectionId users
                                          currentDealer;
          mret tt
      end
  else
    currentIndex ← getCurrentTileIndex gameId;
    let wsResponse :=
      createDrawTileResponse (default EmptyString tileDrawn) currentIndex in
    ws.send ws wsResponse connectionId.

Definition broadcastPlayedTileToUsers (ws : WebSocketClient) (tile : Tile)
    (callerConnectionId : string) (connectionIds : list string)
    : Async Tile :=
  let wsResponse := createPlayTileResponse callerConnectionId tile in
  _ ← sendToEach ws wsResponse connectionIds;
  mret tile.

Definition broadcastWinningTiles (ws : WebSocketClient)
    (connectionIds : list string) (connectionId : string)
    (handPointResults : HandPointResults) : Async unit :=
  let wsResponse :=
    createWinningTilesResponse connectionId handPointResults in
  _ ← sendToEach ws wsResponse connectionIds;
  mret tt.

Definition broadcastSelfPlayTile (ws : WebSocketClient)
    (connectionIds : list string) (payload : SelfPlayTilePayload)
    : Async unit :=
  let wsResponse := createSelfPlayTileResponse payload in
  _ ← sendToEach ws wsResponse connectionIds;
  mret tt.
End MoreGameBroadcast.

(** *** The broadcast module of the lobby (connections and messages) *)

Section LobbyBroadcast.
Context `{Collaborators}.

Definition broadcastConnections (ws : WebSocketClient)
    (connectionId : string) : Async (list User.t) :=
  users ← getAllConnections;
  _ ← (match users with
       | [] => mret tt
       | _ :: _ =>
           let wsResponse := createGetAllUsersResponse users in
           ws.send ws wsResponse connectionId
       end);
  mret users.

Definition broadcastUserUpdate (ws : WebSocketClient)
    (callerConnectionId : string) (state : UserStates)
    (allConnectionIds : list string) : Async (option User.t) :=
  currentUser ← getUserByConnectionId callerConnectionId;
  _ ← (match currentUser with
       | Some currentUser =>
           let wsResponse := createUserUpdateResponse currentUser state in
           let otherConnectionIds :=
             getConnectionIdsExceptCaller callerConnectionId
                                          allConnectionIds in
           sendToEach ws wsResponse otherConnectionIds
       | None => mret []
       end);
  mret currentUser.

Definition broadcastMessage (ws : WebSocketClient)
    (username message : string) : Async (list User.t) :=
  users ← getAllConnections;
  _ ← (match users with
       | [] => mret []
       | _ :: _ =>
           time ← now;
           let wsResponse := createSendMessageResponse time username message in
           sendToEach ws wsResponse (map User.connectionId users)
       end);
  mret users.
End LobbyBroadcast.

(** *** The handlers of the lobby *)

(** The payload of a SEND_MESSAGE event after [JSON.parse]. *)
Record SendMessageEvent := mkSendMessageEvent {
  send_username : option string;
  send_message : option string;
}.

(** The caller and the [gameId] of a JOIN_GAME event after [JSON.parse]. *)
Record JoinGameEvent := mkJoinGameEvent {
  join_connectionId : string;
  join_gameId : string;
}.

Section LobbyHandlers.
Context `{Externals} `{Collaborators}.

(** functions/onGetAllUsers. *)
Definition onGetAllUsers (connectionId : string) : Async LambdaResponse :=
  let ws := mkWebSocketClient in
  try_catch
    (res ← broadcastConnections ws connectionId;
     let connectionIds := getConnectionIdsFromUsers res in
     _ ← broadcastUserUpdate ws connectionId CONNECTED connectionIds;
     mret (response 200 (BodyText (JSON_stringify res))))
    (λ err, mret (response 500 (BodyError err))).

(** functions/lobby/onSendMessage. *)
Definition onSendMessage (event : SendMessageEvent)
    : Async LambdaResponse :=
  let username := send_username event in
  let message := send_message event in
  let ws := mkWebSocketClient in
  try_catch
    (if truthy username && truthy message then
       wsResponse ← broadcastMessage ws (default EmptyString username)
                                     (default EmptyString message);
       mret (response 200 (BodyText (JSON_stringify wsResponse)))
     else mret (response 400 (BodyText "Message attribute cannot be empty")))
    (λ err, mret (response 500 (BodyError err))).

(** functions/lobby/onJoinGame: its two helpers and the handler. *)
Definition joinGame (ws : WebSocketClient) (connectionId gameId : string)
    : Async (option Game.t) :=
  updatedGame ← addUserToGame gameId connectionId;
  match updatedGame with
  | Some updatedGame =>
      let updatedGame := removeDynamoDocumentVersion updatedGame in
      _ ← setGameIdForUser connectionId gameId;
      let res := createJoinGameResponse (Some updatedGame) in
      let updatedGameResponse := successWebSocketResponse res in
      _ ← ws.send ws updatedGameResponse connectionId;
      mret (Some updatedGame)
  | None => mret None
  end.

Definition joinGameSendUpdates (ws : WebSocketClient)
    (connectionId : string) (updatedGame : Game.t) : Async unit :=
  let connectionIds := map User.connectionId (Game.users updatedGame) in
  _ ← broadcastInGameMessage ws connectionId JOIN_GAME connectionIds None;
  _ ← broadcastInGameUpdate ws connectionId (Game.users updatedGame);
  mret tt.

Definition onJoinGame (event : JoinGameEvent) : Async LambdaResponse :=
  let connectionId := join_connectionId event in
  let gameId := join_gameId event in
  let ws := mkWebSocketClient in
  try_catch
    (updatedGame ← joinGame ws connectionId gameId;
     _ ← (match updatedGame with
          | Some updatedGame => joinGameSendUpdates ws connectionId updatedGame
          | None => mret tt
          end);
     mret (response 200 (BodyText "Joined game successfully")))
    (λ err,
       let emptyGameResponse := createJoinGameResponse None in
       let wsResponse :=
         failedWebSocketResponse emptyGameResponse (BodyError err) in
       _ ← ws.send ws wsResponse connectionId;
       mret (response 500 (BodyError err))).
End LobbyHandlers.

(** *** Vocabulary of the further properties *)

(** [k] draws from a game, one after the other. *)
Definition drawTiles (gameId : string) (k : nat)
    : Async (list (option Tile)) :=
  mapM (λ _ : unit, drawTile gameId) (replicate k tt).

(** [n] dealer changes of a game, one after the other. *)
Definition changeDealers `{Externals} (gameId : string) (n : nat)
    : Async (list (option GameState.t)) :=
  mapM (λ _ : unit, changeDealer gameId) (replicate n tt).

(** A call run to its end whatever its outcome, as a handler that stands
    alone: the outcome is kept as a value. *)
Definition settle {A} (m : Async A) : Async (Outcome A) := λ w,
  ((Returned (m w).1), (m w).2).

(** The calls of [calls], each settled, one after the other. *)
Definition settleInteractions `{Externals} (gameId : string)
    (calls : list Interaction)
    : Async (list (Outcome (option GameState.t))) :=
  mapM (λ c, settle (setPlayedTileInteraction gameId (by_connectionId c)
                       (with_playedTiles c) (with_meld c)
                       (with_skipInteraction c)))
       calls.

(** [g] once its collected interactions are [l]: the list, and its length
    as the count. *)
Definition collected (l : list PlayedTile.t) (g : GameState.t)
    : GameState.t :=
  GameState.set_playedTileInteractions (Some l)
    (GameState.set_interactionCount (Some (Z.of_nat (length l))) g).

(** The outcome of a call that went through. *)
Definition went_through {A} (o : Outcome A) : Prop :=
  match o with Returned _ => True | Threw _ => False end.

(** Every step of [m] relates the world before to the world after. *)
Definition respects {A} (R : relation World) (m : Async A) : Prop :=
  ∀ w, R w (m w).2.

(** From [w] to [w'] nothing changed outside the state of game [gameId]:
    the other game states, the connections and the games are the same and
    no message was sent. *)
Definition withinGame (gameId : string) : relation World := λ w w',
  (∀ other, other ≠ gameId →
     gameStates w' !! other = gameStates w !! other) ∧
  connections w' = connections w ∧
  games w' = games w ∧
  sendsOf (trace w') = sendsOf (trace w).

(** From [w] to [w'] the state of game [gameId], if stored in [w], is
    still stored and changed as [same] allows. *)
Definition gameKeeps (same : relation GameState.t) (gameId : string)
    : relation World := λ w w',
  match gameStates w !! gameId with
  | Some g => ∃ g', gameStates w' !! gameId = Some g' ∧ same g g'
  | None => True
  end.

(** [g'] is [g] but for the tile index. *)
Definition sameButIndex : relation GameState.t := λ g g',
  g' = GameState.set_currentIndex (GameState.currentIndex g') g.

(** [g'] is [g] but for dealer and wind. *)
Definition sameButDealerWind : relation GameState.t := λ g g',
  g' = GameState.set_dealer (GameState.dealer g')
         (GameState.set_currentWind (GameState.currentWind g') g).

(** [g'] is [g] but for the two interaction attributes. *)
Definition sameButInteractions : relation GameState.t := λ g g',
  g' = GameState.set_playedTileInteractions
         (GameState.playedTileInteractions g')
         (GameState.set_interactionCount (GameState.interactionCount g') g).

(** [g'] has the turn of [g]. *)
Definition sameTurn : relation GameState.t := λ g g',
  GameState.currentTurn g' = GameState.currentTurn g.

(** The three tables are the same in [w] and [w']. *)
Definition sameTables (w w' : World) : Prop :=
  gameStates w' = gameStates w ∧ connections w' = connections w ∧
  games w' = games w.

(** The connections a trace sent to, in order. *)
Definition recipients (t : list Event) : list string :=
  map fst (sendsOf t).

(** One send of [msg] to each connection of the list, in order. *)
Definition sendAll (msg : WebSocketResponse) (connectionIds : list string)
    : list Event :=
  map (λ cid, EvSend cid msg) connectionIds.

(** The sentence that tells a game that [username] joined or left. *)
Definition announcement (username : string) (action : InGameAction)
    : string :=
  String.append username
    (String.append " just "
       (String.append
          match action with JOIN_GAME => "joined" | LEAVE_GAME => "left" end
          " the game.")).

(** *** Sample collaborators *)

Module SampleLobby.
(** A response that shows what it was built from, for the samples. *)
Definition note (action : WebSocketActionsEnum) (texts : list string)
    (number : option Z) : WebSocketResponse :=
  createWSResponse action (GameStartPayload texts [] number).

Definition game : Game.t :=
  Game.mk "game-1" "kings" "Mahjong" "HK" "c1" Sample.users STARTED 4.

(** The users of the one game of the sample world; nobody can be added;
    responses are notes. *)
Definition collaborators : Collaborators :=
  {| HandPointResults := Z;
     SelfPlayTilePayload := string;
     UserStates := bool;
     CONNECTED := true;
     getUsersInGame := λ gameId,
       mret (if String.eqb gameId "game-1" then Some Sample.users else None);
     addUserToGame := λ gameId connectionId,
       mret (if String.eqb gameId "game-1" then Some game else None);
     getAllGames := mret [game];
     JSON_stringify := λ users,
       String.concat "," (map User.connectionId users);
     createDrawRoundResponse := λ gameId connectionId,
       note GAME_UPDATE ["DRAW_ROUND"; gameId; connectionId] None;
     createDrawTileResponse := λ tile currentIndex,
       note GAME_UPDATE ["DRAW_TILE"; tile] currentIndex;
     createPlayTileResponse := λ connectionId tile,
       note GAME_UPDATE ["PLAY_TILE"; connectionId; tile] None;
     createWinningTilesResponse := λ connectionId points,
       note GAME_UPDATE ["WINNING_TILES"; connectionId] (Some points);
     createSelfPlayTileResponse := λ payload,
       note GAME_UPDATE ["SELF_PLAY_TILE"; payload] None;
     createInGameUpdateResponse := λ users,
       note GAME_UPDATE ("IN_GAME_UPDATE" :: map User.connectionId users) None;
     createInGameMessageResponse := λ time username message,
       note GAME_UPDATE ["IN_GAME_MESSAGE"; username; message]
            (Some (Z.of_nat time));
     createGetAllUsersResponse := λ users,
       note GAME_UPDATE ("GET_ALL_USERS" :: map User.connectionId users) None;
     createGetAllGamesResponse := λ games,
       note GAME_UPDATE ("GET_ALL_GAMES" :: map Game.gameId games) None;
     createUserUpdateResponse := λ user state,
       note GAME_UPDATE ["USER_UPDATE"; User.connectionId user] None;
     createSendMessageResponse := λ time username message,
       note GAME_UPDATE ["SEND_MESSAGE"; username; message]
            (Some (Z.of_nat time));
     createJoinGameResponse := λ game,
       note GAME_UPDATE
            ("JOIN_GAME" :: default [] ((λ g, [Game.gameId g]) <$> game))
            None |}.

(** A connected player who is in no game. *)
Definition newcomer : World :=
  set_connections
    (<["c5" := UserItem.mk (Some "eve") None]>
       (connections (Sample.world 60 0 0)))
    (Sample.world 60 0 0).
End SampleLobby.

(* ===================================================================== *)
(** ** Running the store *)
(* ===================================================================== *)

Lemma bind_run {A B} (m : Async A) (f : A → Async B) (w : World) :
  (m ≫= f) w =
  match m w with
  | (Returned a, w') => f a w'
  | (Threw e, w') => (Threw e, w')
  end.
Proof. reflexivity. Qed.

Lemma getGameStateByGameId_run gameId attrs w :
  getGameStateByGameId gameId attrs w =
  (Returned (GameState.project attrs <$> gameStates w !! gameId), w).
Proof. reflexivity. Qed.

(** The default projection keeps the attributes the services read. *)
Lemma project_default_wall g :
  GameState.wall (GameState.project DEFAULT_GAME_STATE_PARAMS g) =
  GameState.wall g.
Proof. reflexivity. Qed.

Lemma project_default_currentIndex g :
  GameState.currentIndex (GameState.project DEFAULT_GAME_STATE_PARAMS g) =
  GameState.currentIndex g.
Proof. reflexivity. Qed.

Lemma project_default_dealer g :
  GameState.dealer (GameState.project DEFAULT_GAME_STATE_PARAMS g) =
  GameState.dealer g.
Proof. reflexivity. Qed.

Lemma project_default_currentWind g :
  GameState.currentWind (GameState.project DEFAULT_GAME_STATE_PARAMS g) =
  GameState.currentWind g.
Proof. reflexivity. Qed.

Lemma incrementCurrentTileIndex_run gameId w g :
  gameStates w !! gameId = Some g →
  incrementCurrentTileIndex gameId w =
  (Returned (Some (GameState.set_currentIndex
                     (ADD (GameState.currentIndex g) 1) g)),
   writeGameState gameId
     (GameState.set_currentIndex (ADD (GameState.currentIndex g) 1) g) w).
Proof.
  intros Hg. unfold incrementCurrentTileIndex, DB.update.
  rewrite bind_run. simpl. rewrite Hg. reflexivity.
Qed.

(** What [drawTile] does on a stored state with a wall and an index. *)
Lemma drawTile_run gameId w g wall i :
  gameStates w !! gameId = Some g →
  GameState.wall g = Some wall →
  GameState.currentIndex g = Some i →
  drawTile gameId w =
  if DEFAULT_WALL_LENGTH <=? i then (Returned (Some EmptyString), w)
  else
    (Returned (js_index wall (Some i)),
     writeGameState gameId (GameState.set_currentIndex (Some (i + 1)) g) w).
Proof.
  intros Hg Hwall Hi. unfold drawTile.
  rewrite bind_run, getGameStateByGameId_run, Hg.
  change (GameState.project DEFAULT_GAME_STATE_PARAMS <$> Some g)
    with (Some (GameState.project DEFAULT_GAME_STATE_PARAMS g)).
  cbv iota beta.
  rewrite project_default_wall, project_default_currentIndex, Hwall, Hi.
  unfold js_ge. destruct (DEFAULT_WALL_LENGTH <=? i); [reflexivity|].
  rewrite bind_run, (incrementCurrentTileIndex_run _ _ _ Hg), Hi.
  reflexivity.
Qed.

(* ===================================================================== *)
(** ** Drawing from the wall *)
(* ===================================================================== *)

(** C1. On a stored game state whose wall has 144 tiles: with the index at
    or past 144, [drawTile] returns the empty string and leaves the world
    as it is; below 144 it returns [wall[currentIndex]] and the only change
    is [currentIndex + 1] on that game's item; for an index inside the
    wall the tile returned is the wall's tile at that position; and in
    every case the index afterwards is the old one or the old one plus
    one, so it never decreases. *)
Theorem drawTile_spec (gameId : string) (w : World) (g : GameState.t)
    (wall : list Tile) (i : Z) :
  gameStates w !! gameId = Some g →
  GameState.wall g = Some wall →
  length wall = 144%nat →
  GameState.currentIndex g = Some i →
  (DEFAULT_WALL_LENGTH ≤ i →
     drawTile gameId w = (Returned (Some EmptyString), w)) ∧
  (i < DEFAULT_WALL_LENGTH →
     drawTile gameId w =
     (Returned (js_index wall (Some i)),
      writeGameState gameId
        (GameState.set_currentIndex (Some (i + 1)) g) w)) ∧
  (0 ≤ i < DEFAULT_WALL_LENGTH →
     ∃ tile, wall !! Z.to_nat i = Some tile ∧
             (drawTile gameId w).1 = Returned (Some tile)) ∧
  (∃ i', currentIndexOf gameId (drawTile gameId w).2 = Some i' ∧
         i ≤ i' ≤ i + 1 ∧
         (i' = i + 1 ↔ i < DEFAULT_WALL_LENGTH)).
Proof.
  intros Hg Hwall Hlen Hi.
  pose proof (drawTile_run gameId w g wall i Hg Hwall Hi) as Hrun.
  repeat split.
  - intros Hge. rewrite Hrun.
    destruct (Z.leb_spec DEFAULT_WALL_LENGTH i); [reflexivity | lia].
  - intros Hlt. rewrite Hrun.
    destruct (Z.leb_spec DEFAULT_WALL_LENGTH i); [lia | reflexivity].
  - intros [H0 Hlt]. rewrite Hrun.
    destruct (Z.leb_spec DEFAULT_WALL_LENGTH i); [lia |].
    destruct (lookup_lt_is_Some_2 wall (Z.to_nat i)) as [tile Htile].
    { unfold DEFAULT_WALL_LENGTH in *. lia. }
    exists tile. split; [exact Htile |].
    simpl. destruct (Z.leb_spec 0 i); [| lia]. by rewrite Htile.
  - rewrite Hrun. unfold currentIndexOf.
    destruct (Z.leb_spec DEFAULT_WALL_LENGTH i).
    + exists i. simpl. rewrite Hg. simpl. split; [congruence | lia].
    + exists (i + 1). simpl. rewrite lookup_insert_eq. simpl.
      split; [reflexivity | lia].
Qed.

(** The sample game with one tile left: the draw returns the last tile of
    the wall and moves the index to 144, where the next draw finds the wall
    exhausted. *)
Lemma drawTile_spec_witness :
  (drawTile "game-1" (Sample.world 143 0 0)).1 = Returned (Some "EAST") ∧
  currentIndexOf "game-1" (drawTile "game-1" (Sample.world 143 0 0)).2
  = Some 144 ∧
  (drawTile "game-1" (drawTile "game-1" (Sample.world 143 0 0)).2).1
  = Returned (Some EmptyString).
Proof.
  destruct (drawTile_spec "game-1" (Sample.world 143 0 0)
              (Sample.state 143 0 0) Sample.tiles 143)
    as (_ & Hdraw & _ & _);
    [reflexivity | reflexivity | reflexivity | reflexivity |].
  destruct (drawTile_spec "game-1"
              (writeGameState "game-1"
                 (GameState.set_currentIndex (Some (143 + 1))
                    (Sample.state 143 0 0)) (Sample.world 143 0 0))
              (GameState.set_currentIndex (Some (143 + 1))
                 (Sample.state 143 0 0)) Sample.tiles 144)
    as (Hempty & _);
    [reflexivity | reflexivity | reflexivity | reflexivity |].
  rewrite (Hdraw ltac:(unfold DEFAULT_WALL_LENGTH; lia)). cbn [fst snd].
  rewrite (Hempty ltac:(unfold DEFAULT_WALL_LENGTH; lia)).
  repeat split; reflexivity.
Defined.

(* ===================================================================== *)
(** ** Conditional updates of one game state *)
(* ===================================================================== *)

(** A write to one game state leaves the other game states and the other
    tables as they were. *)
Lemma writeGameState_frame gameId item w :
  gameStates (writeGameState gameId item w) !! gameId = Some item ∧
  (∀ other, other ≠ gameId →
     gameStates (writeGameState gameId item w) !! other
     = gameStates w !! other) ∧
  connections (writeGameState gameId item w) = connections w ∧
  games (writeGameState gameId item w) = games w ∧
  trace (writeGameState gameId item w)
  = trace w ++ [EvWriteGameState gameId item].
Proof.
  unfold writeGameState. simpl. split; [apply lookup_insert_eq |].
  split; [| done]. intros other Hne. by apply lookup_insert_ne.
Qed.

Lemma update_gameState_run gameId cond upd w :
  DB.update GAME_STATE_TABLE gameId cond upd w =
  if cond (gameStates w !! gameId) then
    match upd (default GameState.blank (gameStates w !! gameId)) with
    | Some new =>
        (Returned (mkUpdateItemOutput (Some new)), writeGameState gameId new w)
    | None => (Threw ValidationException, w)
    end
  else (Threw ConditionalCheckFailedException, w).
Proof. reflexivity. Qed.

Lemma setPlayedTileInteraction_run `{Externals} gameId connectionId
    playedTiles meld skipInteraction w :
  setPlayedTileInteraction gameId connectionId playedTiles meld
                           skipInteraction w =
  match gameStates w !! gameId with
  | Some g =>
      if attr_lt (GameState.interactionCount g) DEFAULT_MAX_USERS_IN_GAME
      then
        match GameState.playedTileInteractions g with
        | Some l =>
            let g' :=
              GameState.set_playedTileInteractions
                (Some (l ++ [PlayedTile.mk connectionId playedTiles meld
                                           skipInteraction]))
                (GameState.set_interactionCount
                   (ADD (GameState.interactionCount g) 1) g) in
            (Returned (Some g'), writeGameState gameId g' w)
        | None => (Threw ValidationException, w)
        end
      else (Threw ConditionalCheckFailedException, w)
  | None => (Threw ConditionalCheckFailedException, w)
  end.
Proof.
  unfold setPlayedTileInteraction.
  rewrite bind_run, update_gameState_run.
  destruct (gameStates w !! gameId) as [g|]; simpl; [| reflexivity].
  destruct (attr_lt _ _); [| reflexivity].
  destruct (GameState.playedTileInteractions g); reflexivity.
Qed.

(** C2. With four as the player bound: on a stored game state whose
    [interactionCount] is below 4, [setPlayedTileInteraction] appends the
    one record made of its arguments to [playedTileInteractions], adds 1 to
    [interactionCount], changes no other attribute and returns the new
    state; when the game state is missing or its count is 4 or more, the
    call is rejected as a failed condition and the world stays as it was,
    with nothing written. *)
Theorem setPlayedTileInteraction_spec `{Externals}
    (gameId connectionId : string) (playedTiles : list Tile) (meld : string)
    (skipInteraction : bool) (w : World) :
  DEFAULT_MAX_USERS_IN_GAME = 4 →
  let playedTileVal :=
    PlayedTile.mk connectionId playedTiles meld skipInteraction in
  (∀ g n l,
     gameStates w !! gameId = Some g →
     GameState.interactionCount g = Some n → n < 4 →
     GameState.playedTileInteractions g = Some l →
     let g' :=
       {| GameState.wall := GameState.wall g;
          GameState.hands := GameState.hands g;
          GameState.currentIndex := GameState.currentIndex g;
          GameState.dealer := GameState.dealer g;
          GameState.currentWind := GameState.currentWind g;
          GameState.currentTurn := GameState.currentTurn g;
          GameState.interactionCount := Some (n + 1);
          GameState.playedTileInteractions := Some (l ++ [playedTileVal]) |}
     in
     setPlayedTileInteraction gameId connectionId playedTiles meld
                              skipInteraction w
     = (Returned (Some g'), writeGameState gameId g' w)) ∧
  ((gameStates w !! gameId = None ∨
    ∃ g n, gameStates w !! gameId = Some g ∧
           GameState.interactionCount g = Some n ∧ 4 ≤ n) →
   setPlayedTileInteraction gameId connectionId playedTiles meld
                            skipInteraction w
   = (Threw ConditionalCheckFailedException, w)).
Proof.
  intros Hmax playedTileVal. split.
  - intros g n l Hg Hn Hlt Hl g'.
    rewrite setPlayedTileInteraction_run, Hg, Hn, Hl, Hmax. simpl.
    destruct (Z.ltb_spec n 4); [reflexivity | lia].
  - intros [Hnone | (g & n & Hg & Hn & Hge)];
      rewrite setPlayedTileInteraction_run.
    + by rewrite Hnone.
    + rewrite Hg, Hn, Hmax. simpl.
      destruct (Z.ltb_spec n 4); [lia | reflexivity].
Qed.

(** A first response to a discard in the sample game is recorded; a fifth
    one, and one for a game that does not exist, are refused. *)
Lemma setPlayedTileInteraction_spec_witness :
  let w := Sample.world 60 0 0 in
  let full :=
    writeGameState "game-1"
      (GameState.set_interactionCount (Some 4) (Sample.state 60 0 0)) w in
  (gameStates (setPlayedTileInteraction (H := Sample.externals)
                 "game-1" "c2" ["1_DOT"] "TRIPLET" false w).2
     !! "game-1" ≫= GameState.interactionCount) = Some 1 ∧
  setPlayedTileInteraction (H := Sample.externals)
    "game-1" "c2" ["1_DOT"] "TRIPLET" false full
  = (Threw ConditionalCheckFailedException, full) ∧
  setPlayedTileInteraction (H := Sample.externals)
    "game-9" "c2" ["1_DOT"] "TRIPLET" false w
  = (Threw ConditionalCheckFailedException, w).
Proof.
  intros w full.
  destruct (setPlayedTileInteraction_spec (H := Sample.externals)
              "game-1" "c2" ["1_DOT"] "TRIPLET" false w eq_refl)
    as [Hok _].
  destruct (setPlayedTileInteraction_spec (H := Sample.externals)
              "game-1" "c2" ["1_DOT"] "TRIPLET" false full eq_refl)
    as [_ Hfull].
  destruct (setPlayedTileInteraction_spec (H := Sample.externals)
              "game-9" "c2" ["1_DOT"] "TRIPLET" false w eq_refl)
    as [_ Hmissing].
  split; [| split].
  - rewrite (Hok (Sample.state 60 0 0) 0 [] eq_refl eq_refl ltac:(lia)
               eq_refl).
    reflexivity.
  - apply Hfull. right.
    exists (GameState.set_interactionCount (Some 4) (Sample.state 60 0 0)), 4.
    split; [reflexivity | split; [reflexivity | lia]].
  - apply Hmissing. left. reflexivity.
Defined.

Lemma resetPlayedTileInteraction_run gameId w :
  resetPlayedTileInteraction gameId w =
  match gameStates w !! gameId with
  | Some g =>
      let g' :=
        GameState.set_playedTileInteractions (Some [])
          (GameState.set_interactionCount (Some 0) g) in
      (Returned (Some g'), writeGameState gameId g' w)
  | None => (Threw ConditionalCheckFailedException, w)
  end.
Proof.
  unfold resetPlayedTileInteraction.
  rewrite bind_run, update_gameState_run.
  destruct (gameStates w !! gameId); reflexivity.
Qed.

(** C8. On a stored game state, [resetPlayedTileInteraction] writes that
    state with [interactionCount] 0 and [playedTileInteractions] empty and
    every other attribute (wall, hands, currentIndex, dealer, currentWind,
    currentTurn) as it was, and touches no other game state and no other
    table; when the game state is missing the update is rejected and the
    world stays as it was. *)
Theorem resetPlayedTileInteraction_frame (gameId : string) (w : World) :
  (∀ g, gameStates w !! gameId = Some g →
     ∃ g' w',
       resetPlayedTileInteraction gameId w = (Returned (Some g'), w') ∧
       gameStates w' !! gameId = Some g' ∧
       GameState.interactionCount g' = Some 0 ∧
       GameState.playedTileInteractions g' = Some [] ∧
       GameState.wall g' = GameState.wall g ∧
       GameState.hands g' = GameState.hands g ∧
       GameState.currentIndex g' = GameState.currentIndex g ∧
       GameState.dealer g' = GameState.dealer g ∧
       GameState.currentWind g' = GameState.currentWind g ∧
       GameState.currentTurn g' = GameState.currentTurn g ∧
       (∀ other, other ≠ gameId →
          gameStates w' !! other = gameStates w !! other) ∧
       connections w' = connections w ∧
       games w' = games w) ∧
  (gameStates w !! gameId = None →
   resetPlayedTileInteraction gameId w
   = (Threw ConditionalCheckFailedException, w)).
Proof.
  split.
  - intros g Hg. rewrite resetPlayedTileInteraction_run, Hg.
    eexists _, _. split; [reflexivity |].
    destruct (writeGameState_frame gameId
                (GameState.set_playedTileInteractions (Some [])
                   (GameState.set_interactionCount (Some 0) g)) w)
      as (Hsame & Hother & Hconn & Hgames & _).
    repeat split; try reflexivity; assumption.
  - intros Hnone. by rewrite resetPlayedTileInteraction_run, Hnone.
Qed.

(** After one recorded response in the sample game, the reset brings the
    count back to 0 and keeps the tile index and the dealer; on a game that
    does not exist it is refused. *)
Lemma resetPlayedTileInteraction_frame_witness :
  let w :=
    (setPlayedTileInteraction (H := Sample.externals)
       "game-1" "c2" ["1_DOT"] "TRIPLET" false (Sample.world 60 3 1)).2 in
  (gameStates w !! "game-1" ≫= GameState.interactionCount) = Some 1 ∧
  (gameStates (resetPlayedTileInteraction "game-1" w).2 !! "game-1"
   ≫= GameState.interactionCount) = Some 0 ∧
  (gameStates (resetPlayedTileInteraction "game-1" w).2 !! "game-1"
   ≫= GameState.currentIndex) = Some 60 ∧
  resetPlayedTileInteraction "game-9" w
  = (Threw ConditionalCheckFailedException, w).
Proof.
  intros w.
  destruct (resetPlayedTileInteraction_frame "game-1" w) as [Hok _].
  destruct (resetPlayedTileInteraction_frame "game-9" w) as [_ Hmissing].
  destruct (Hok _ eq_refl)
    as (g' & w' & Hrun & Hg' & Hcount & _ & _ & _ & Hindex & _).
  rewrite Hrun. cbn [snd]. rewrite Hg'. cbn [mbind option_bind].
  rewrite Hcount, Hindex.
  split; [reflexivity |]. split; [reflexivity |]. split; [reflexivity |].
  apply Hmissing. reflexivity.
Defined.

(* ===================================================================== *)
(** ** Connections *)
(* ===================================================================== *)

Lemma update_connection_run connectionId cond upd w :
  DB.update CONNECTIONS_TABLE connectionId cond upd w =
  if cond (connections w !! connectionId) then
    match upd (default UserItem.blank (connections w !! connectionId)) with
    | Some new =>
        (Returned (mkUpdateItemOutput (Some new)),
         writeConnection connectionId new w)
    | None => (Threw ValidationException, w)
    end
  else (Threw ConditionalCheckFailedException, w).
Proof. reflexivity. Qed.

Lemma setUsername_run connectionId username w :
  setUsername connectionId username w =
  match connections w !! connectionId with
  | Some item =>
      if String.eqb username EmptyString then (Threw ConditionalCheckFailedException, w)
      else
        let item' := UserItem.mk (Some username) (UserItem.gameId item) in
        (Returned (Some (User.of_item connectionId item')),
         writeConnection connectionId item' w)
  | None => (Threw ConditionalCheckFailedException, w)
  end.
Proof.
  unfold setUsername. rewrite bind_run, update_connection_run.
  destruct (connections w !! connectionId) as [item|]; simpl;
    [| reflexivity].
  rewrite String.eqb_refl. simpl.
  destruct (String.eqb username EmptyString); reflexivity.
Qed.

(** C10, as the code has it. [setUsername] succeeds exactly when a
    connection record with that id exists and the username is not the empty
    string: it then sets [username] on that record, keeps its [gameId] and
    returns the record. For an empty username or a missing record the
    conditional update is rejected: the call is rejected with the store's
    failed-condition exception, it returns no value, the world stays as it
    was, and no record is created. *)
Theorem setUsername_spec (connectionId username : string) (w : World) :
  (∀ item, connections w !! connectionId = Some item → username ≠ EmptyString →
     setUsername connectionId username w
     = (Returned (Some (User.mk connectionId (Some username)
                                (UserItem.gameId item))),
        writeConnection connectionId
          (UserItem.mk (Some username) (UserItem.gameId item)) w)) ∧
  (connections w !! connectionId = None ∨ username = EmptyString →
   setUsername connectionId username w
   = (Threw ConditionalCheckFailedException, w)) ∧
  (∀ user w', setUsername connectionId username w = (Returned user, w') →
     is_Some (connections w !! connectionId) ∧ username ≠ EmptyString ∧
     is_Some user).
Proof.
  rewrite setUsername_run. split; [| split].
  - intros item Hitem Hne. rewrite Hitem.
    destruct (String.eqb_spec username EmptyString); [contradiction | reflexivity].
  - intros [Hnone | Hempty].
    + by rewrite Hnone.
    + subst username. by destruct (connections w !! connectionId).
  - intros user w'. destruct (connections w !! connectionId) as [item|];
      [| discriminate].
    destruct (String.eqb_spec username EmptyString); [discriminate |].
    intros [= <- <-]. eauto.
Qed.

(** A connected player of the sample world takes a name; a connection that
    does not exist, and an empty name, are refused without a trace. *)
Lemma setUsername_spec_witness :
  let w := Sample.world 60 0 0 in
  (setUsername "c1" "ann" w).1
  = Returned (Some (User.mk "c1" (Some "ann") (Some "game-1"))) ∧
  setUsername "c9" "ann" w = (Threw ConditionalCheckFailedException, w) ∧
  setUsername "c1" EmptyString w = (Threw ConditionalCheckFailedException, w).
Proof.
  intros w.
  destruct (setUsername_spec "c1" "ann" w) as (Hok & _ & _).
  destruct (setUsername_spec "c9" "ann" w) as (_ & Hmissing & _).
  destruct (setUsername_spec "c1" EmptyString w) as (_ & Hempty & _).
  split; [| split].
  - rewrite (Hok (UserItem.mk (Some "c1") (Some "game-1")) eq_refl
               ltac:(discriminate)).
    reflexivity.
  - apply Hmissing. left. reflexivity.
  - apply Hempty. right. reflexivity.
Defined.

(** C10, as the claim has it, fails: for a connection that does not exist
    [setUsername] does not return an absent value, it is rejected. *)
Lemma setUsername_absent_value_counterexample :
  connections (Sample.world 60 0 0) !! "c9" = None ∧
  (setUsername "c9" "ann" (Sample.world 60 0 0)).1
  = Threw ConditionalCheckFailedException ∧
  (setUsername "c9" "ann" (Sample.world 60 0 0)).1 ≠ Returned None.
Proof. split; [reflexivity |]. split; [reflexivity | discriminate]. Qed.

(* ===================================================================== *)
(** ** Reading a connection *)
(* ===================================================================== *)

Lemma getUserByConnectionId_run connectionId w :
  getUserByConnectionId connectionId w =
  (Returned (User.of_item connectionId <$> connections w !! connectionId), w).
Proof.
  unfold getUserByConnectionId, DB.get. rewrite bind_run. simpl.
  by destruct (connections w !! connectionId).
Qed.

(* ===================================================================== *)
(** ** Dealer and wind *)
(* ===================================================================== *)

Lemma changeWind_run `{Externals} gameId w :
  changeWind gameId w =
  match gameStates w !! gameId with
  | None => (Threw (Error "changeWind: game state not found"), w)
  | Some g =>
      match GameState.currentWind g with
      | None => (Threw ValidationException, w)
      | Some x =>
          if Z.rem (x + 1) 4 <? DEFAULT_MAX_USERS_IN_GAME then
            let g' := GameState.set_currentWind (Some (Z.rem (x + 1) 4)) g in
            (Returned (Some g'), writeGameState gameId g' w)
          else (Threw ConditionalCheckFailedException, w)
      end
  end.
Proof.
  unfold changeWind. rewrite bind_run, getGameStateByGameId_run.
  destruct (gameStates w !! gameId) as [g|] eqn:Hg; [| reflexivity].
  change (GameState.project DEFAULT_GAME_STATE_PARAMS <$> Some g)
    with (Some (GameState.project DEFAULT_GAME_STATE_PARAMS g)).
  cbv iota beta. rewrite project_default_currentWind.
  destruct (GameState.currentWind g) as [x|]; [| reflexivity].
  rewrite bind_run, update_gameState_run, Hg.
  destruct (Z.rem (x + 1) 4 <? DEFAULT_MAX_USERS_IN_GAME); reflexivity.
Qed.

Lemma changeDealer_run `{Externals} gameId w :
  changeDealer gameId w =
  match gameStates w !! gameId with
  | None => (Threw (Error "changeDealer: game state not found"), w)
  | Some g =>
      match GameState.dealer g with
      | None => (Threw ValidationException, w)
      | Some d =>
          let next := Z.rem (d + 1) 4 in
          if next =? 0 then
            match changeWind gameId w with
            | (Returned _, w1) => writeNextDealer gameId next w1
            | (Threw e, w1) => (Threw e, w1)
            end
          else writeNextDealer gameId next w
      end
  end.
Proof.
  unfold changeDealer. rewrite bind_run, getGameStateByGameId_run.
  destruct (gameStates w !! gameId) as [g|] eqn:Hg; [| reflexivity].
  change (GameState.project DEFAULT_GAME_STATE_PARAMS <$> Some g)
    with (Some (GameState.project DEFAULT_GAME_STATE_PARAMS g)).
  cbv iota beta. rewrite project_default_dealer.
  destruct (GameState.dealer g) as [d|]; [| reflexivity].
  cbv zeta. rewrite bind_run.
  destruct (Z.rem (d + 1) 4 =? 0).
  - destruct (changeWind gameId w) as [[r|e] w1]; [| reflexivity].
    rewrite bind_run, update_gameState_run. unfold writeNextDealer.
    destruct (Z.rem (d + 1) 4 <? DEFAULT_MAX_USERS_IN_GAME); reflexivity.
  - cbv [mret Async_ret]. cbv iota beta.
    rewrite bind_run, update_gameState_run. unfold writeNextDealer.
    destruct (Z.rem (d + 1) 4 <? DEFAULT_MAX_USERS_IN_GAME); reflexivity.
Qed.

Lemma writeNextDealer_stored `{Externals} gameId next w g :
  gameStates w !! gameId = Some g →
  writeNextDealer gameId next w =
  if next <? DEFAULT_MAX_USERS_IN_GAME then
    (Returned (Some (GameState.set_dealer (Some next) g)),
     writeGameState gameId (GameState.set_dealer (Some next) g) w)
  else (Threw ConditionalCheckFailedException, w).
Proof. intros Hg. unfold writeNextDealer. by rewrite Hg. Qed.

(** Inside [0,4) the remainder of JavaScript is the modulus. *)
Lemma rem_succ_mod (x : Z) : 0 ≤ x → Z.rem (x + 1) 4 = (x + 1) mod 4.
Proof. intros Hx. apply Z.rem_mod_nonneg; lia. Qed.

(** C7. Whatever the player bound is, on a stored game state [changeWind]
    is rejected and writes nothing when the next wind is not below the
    bound, and [changeDealer] is rejected and leaves the dealer as it was
    when the next dealer is not below the bound. With the bound at 4 and
    wind and dealer in [0,4), the next values [(x+1) mod 4] are below 4
    and both operations succeed: they write and return the state with the
    next wind, and with the next dealer. *)
Theorem changeWind_changeDealer_bound `{Externals} (gameId : string)
    (w : World) (g : GameState.t) :
  gameStates w !! gameId = Some g →
  (∀ x, GameState.currentWind g = Some x →
        DEFAULT_MAX_USERS_IN_GAME ≤ Z.rem (x + 1) 4 →
        changeWind gameId w = (Threw ConditionalCheckFailedException, w)) ∧
  (∀ d, GameState.dealer g = Some d →
        DEFAULT_MAX_USERS_IN_GAME ≤ Z.rem (d + 1) 4 →
        ∃ e w', changeDealer gameId w = (Threw e, w') ∧
                gameStates w' !! gameId ≫= GameState.dealer = Some d) ∧
  (DEFAULT_MAX_USERS_IN_GAME = 4 →
   ∀ x, GameState.currentWind g = Some x → 0 ≤ x < 4 →
        (x + 1) mod 4 < 4 ∧
        changeWind gameId w
        = (Returned (Some (GameState.set_currentWind
                             (Some ((x + 1) mod 4)) g)),
           writeGameState gameId
             (GameState.set_currentWind (Some ((x + 1) mod 4)) g) w)) ∧
  (DEFAULT_MAX_USERS_IN_GAME = 4 →
   ∀ d x, GameState.dealer g = Some d → GameState.currentWind g = Some x →
          0 ≤ d < 4 → 0 ≤ x < 4 →
          (d + 1) mod 4 < 4 ∧
          ∃ g' w', changeDealer gameId w = (Returned (Some g'), w') ∧
                   gameStates w' !! gameId = Some g' ∧
                   GameState.dealer g' = Some ((d + 1) mod 4)).
Proof.
  intros Hg. split; [| split; [| split]].
  - intros x Hx Hbound. rewrite changeWind_run, Hg, Hx.
    destruct (Z.ltb_spec (Z.rem (x + 1) 4) DEFAULT_MAX_USERS_IN_GAME);
      [lia | reflexivity].
  - intros d Hd Hbound. rewrite changeDealer_run, Hg, Hd. cbv zeta.
    assert (∀ w1 g1, gameStates w1 !! gameId = Some g1 →
                     GameState.dealer g1 = Some d →
                     ∃ e w', writeNextDealer gameId (Z.rem (d + 1) 4) w1
                             = (Threw e, w') ∧
                             gameStates w' !! gameId ≫= GameState.dealer
                             = Some d) as Hwrite.
    { intros w1 g1 Hg1 Hd1. unfold writeNextDealer.
      destruct (Z.ltb_spec (Z.rem (d + 1) 4) DEFAULT_MAX_USERS_IN_GAME);
        [lia |].
      eexists _, _. split; [reflexivity |]. by rewrite Hg1. }
    destruct (Z.rem (d + 1) 4 =? 0); [| by apply (Hwrite w g)].
    rewrite changeWind_run, Hg.
    destruct (GameState.currentWind g) as [x|].
    + destruct (Z.rem (x + 1) 4 <? DEFAULT_MAX_USERS_IN_GAME).
      * cbv zeta. apply (Hwrite _ (GameState.set_currentWind
                                     (Some (Z.rem (x + 1) 4)) g)).
        -- apply writeGameState_frame.
        -- exact Hd.
      * eexists _, _. split; [reflexivity |]. by rewrite Hg.
    + eexists _, _. split; [reflexivity |]. by rewrite Hg.
  - intros Hmax x Hx Hrange.
    assert ((x + 1) mod 4 < 4) as Hlt by (apply Z.mod_pos_bound; lia).
    split; [exact Hlt |].
    rewrite changeWind_run, Hg, Hx, Hmax, rem_succ_mod by lia.
    destruct (Z.ltb_spec ((x + 1) mod 4) 4); [reflexivity | lia].
  - intros Hmax d x Hd Hx Hdrange Hxrange.
    assert ((d + 1) mod 4 < 4) as Hlt by (apply Z.mod_pos_bound; lia).
    assert ((x + 1) mod 4 < 4) as Hltx by (apply Z.mod_pos_bound; lia).
    split; [exact Hlt |].
    rewrite changeDealer_run, Hg, Hd. cbv zeta.
    rewrite rem_succ_mod by lia.
    assert (∀ w1 g1, gameStates w1 !! gameId = Some g1 →
                     ∃ g' w', writeNextDealer gameId ((d + 1) mod 4) w1
                              = (Returned (Some g'), w') ∧
                              gameStates w' !! gameId = Some g' ∧
                              GameState.dealer g' = Some ((d + 1) mod 4))
      as Hwrite.
    { intros w1 g1 Hg1. unfold writeNextDealer. rewrite Hmax.
      destruct (Z.ltb_spec ((d + 1) mod 4) 4); [| lia].
      eexists _, _. split; [reflexivity |].
      split; [apply writeGameState_frame | reflexivity]. }
    destruct ((d + 1) mod 4 =? 0); [| by apply (Hwrite w g)].
    rewrite changeWind_run, Hg, Hx, Hmax, rem_succ_mod by lia.
    destruct (Z.ltb_spec ((x + 1) mod 4) 4); [| lia].
    cbv zeta. eapply Hwrite. apply writeGameState_frame.
Qed.

(** With room for one player only, the sample game cannot move its wind
    from 1 to 2 nor its dealer from 1 to 2; with room for four, its wind
    moves from 3 to 0 and its dealer from 3 to 0. *)
Lemma changeWind_changeDealer_bound_witness :
  changeWind (H := Sample.tightExternals) "game-1" (Sample.world 60 1 1)
  = (Threw ConditionalCheckFailedException, Sample.world 60 1 1) ∧
  (changeDealer (H := Sample.tightExternals) "game-1"
     (Sample.world 60 1 1)).1
  = Threw ConditionalCheckFailedException ∧
  (gameStates (changeWind (H := Sample.externals) "game-1"
                 (Sample.world 60 3 3)).2 !! "game-1"
   ≫= GameState.currentWind) = Some 0 ∧
  (gameStates (changeDealer (H := Sample.externals) "game-1"
                 (Sample.world 60 3 3)).2 !! "game-1"
   ≫= GameState.dealer) = Some 0.
Proof.
  destruct (changeWind_changeDealer_bound (H := Sample.tightExternals)
              "game-1" (Sample.world 60 1 1) (Sample.state 60 1 1) eq_refl)
    as (Hwind & Hdealer & _ & _).
  destruct (changeWind_changeDealer_bound (H := Sample.externals)
              "game-1" (Sample.world 60 3 3) (Sample.state 60 3 3) eq_refl)
    as (_ & _ & Hwind4 & Hdealer4).
  split; [| split; [| split]].
  - apply (Hwind 1 eq_refl). by vm_compute.
  - destruct (Hdealer 1 eq_refl ltac:(by vm_compute))
      as (e & w' & Hrun & _).
    reflexivity.
  - destruct (Hwind4 eq_refl 3 eq_refl ltac:(lia)) as [_ Hrun].
    rewrite Hrun. reflexivity.
  - destruct (Hdealer4 eq_refl 3 3 eq_refl eq_refl ltac:(lia) ltac:(lia))
      as (_ & g' & w' & Hrun & Hg' & Hd').
    rewrite Hrun. cbn [snd]. rewrite Hg'. exact Hd'.
Defined.

(* ===================================================================== *)
(** ** Starting a round *)
(* ===================================================================== *)

Lemma startNewGameRound_run `{Externals} gameId connectionIds
    (isDealerChanged : bool) w :
  startNewGameRound gameId connectionIds isDealerChanged w =
  match gameStates w !! gameId with
  | None => (Threw ConditionalCheckFailedException, drawn w)
  | Some g =>
      let g1 := dealtRound (entropy w) connectionIds g in
      let w1 := writeGameState gameId g1 (drawn w) in
      if isDealerChanged then changeDealer gameId w1
      else (Returned (Some g1), w1)
  end.
Proof.
  unfold startNewGameRound, new_HongKongWall. rewrite bind_run.
  cbv iota beta. unfold dealtRound.
  destruct (generateHongKongMahjongHands (HongKongWall (entropy w))
              connectionIds) as [hands newWall].
  rewrite bind_run, update_gameState_run.
  change (gameStates (set_entropy (S (entropy w)) w)) with (gameStates w).
  destruct (gameStates w !! gameId) as [g|]; [| reflexivity].
  destruct isDealerChanged; reflexivity.
Qed.

(** C4. With the bound at 4, on a stored game state with dealer [d] and
    wind [x] in [0,4): [startNewGameRound] with [isDealerChanged] true
    returns and leaves stored a state whose dealer is [(d+1) mod 4] and
    whose wind is [(x+1) mod 4] when the new dealer is 0 and [x] otherwise;
    when the dealer wraps, the wind is written before the dealer: after the
    write of the new round comes a write that carries the new wind and
    still the old dealer, then the write of the new dealer. With
    [isDealerChanged] false, on any stored game state, dealer and wind stay
    as they were. So dealer 3 gives dealer 0 and wind [(x+1) mod 4], and
    dealer 1 gives dealer 2 and wind [x]. *)
Theorem startNewGameRound_dealer_wind `{Externals} (gameId : string)
    (connectionIds : list string) (w : World) (g : GameState.t) :
  DEFAULT_MAX_USERS_IN_GAME = 4 →
  gameStates w !! gameId = Some g →
  let g1 := dealtRound (entropy w) connectionIds g in
  (∀ d x, GameState.dealer g = Some d → GameState.currentWind g = Some x →
          0 ≤ d < 4 → 0 ≤ x < 4 →
     let d' := (d + 1) mod 4 in
     let x' := if d' =? 0 then (x + 1) mod 4 else x in
     ∃ g' w',
       startNewGameRound gameId connectionIds true w
       = (Returned (Some g'), w') ∧
       gameStates w' !! gameId = Some g' ∧
       GameState.dealer g' = Some d' ∧
       GameState.currentWind g' = Some x' ∧
       trace w' =
         trace w ++ [EvWriteGameState gameId g1] ++
         (if d' =? 0
          then [EvWriteGameState gameId
                  (GameState.set_currentWind (Some x') g1)]
          else []) ++
         [EvWriteGameState gameId g'] ∧
       (d = 3 → d' = 0 ∧ x' = (x + 1) mod 4) ∧
       (d = 1 → d' = 2 ∧ x' = x)) ∧
  (∃ w',
     startNewGameRound gameId connectionIds false w
     = (Returned (Some g1), w') ∧
     gameStates w' !! gameId = Some g1 ∧
     GameState.dealer g1 = GameState.dealer g ∧
     GameState.currentWind g1 = GameState.currentWind g).
Proof.
  intros Hmax Hg g1. split.
  - intros d x Hd Hx Hdrange Hxrange d' x'.
    rewrite startNewGameRound_run, Hg. cbv zeta. fold g1.
    set (w1 := writeGameState gameId g1 (drawn w)).
    assert (gameStates w1 !! gameId = Some g1) as Hg1
      by apply writeGameState_frame.
    assert (trace w1 = trace w ++ [EvWriteGameState gameId g1]) as Ht1
      by reflexivity.
    assert (d' < 4) as Hd' by (apply Z.mod_pos_bound; lia).
    assert ((x + 1) mod 4 < 4) as Hx' by (apply Z.mod_pos_bound; lia).
    rewrite changeDealer_run, Hg1.
    change (GameState.dealer g1) with (GameState.dealer g). rewrite Hd.
    cbv zeta. rewrite rem_succ_mod by lia. fold d'.
    unfold x'. destruct (Z.eqb_spec d' 0) as [Hwrap | Hnowrap].
    + rewrite changeWind_run, Hg1.
      change (GameState.currentWind g1) with (GameState.currentWind g).
      rewrite Hx, Hmax, rem_succ_mod by lia.
      destruct (Z.ltb_spec ((x + 1) mod 4) 4); [| lia]. cbv zeta.
      set (g2 := GameState.set_currentWind (Some ((x + 1) mod 4)) g1).
      cbv beta iota.
      rewrite (writeNextDealer_stored gameId d' _ g2)
        by apply writeGameState_frame.
      rewrite Hmax. destruct (Z.ltb_spec d' 4); [| lia].
      eexists _, _. split; [reflexivity |].
      split; [apply writeGameState_frame |].
      split; [reflexivity |]. split; [reflexivity |].
      split.
      * cbn [writeGameState emit trace set_gameStates]. rewrite Ht1.
        rewrite <- !app_assoc. reflexivity.
      * split; intros ->; unfold d' in *;
          [split; reflexivity | vm_compute in Hwrap; discriminate].
    + rewrite (writeNextDealer_stored gameId d' _ g1 Hg1).
      rewrite Hmax. destruct (Z.ltb_spec d' 4); [| lia].
      eexists _, _. split; [reflexivity |].
      split; [apply writeGameState_frame |].
      split; [reflexivity |]. split; [exact Hx |].
      split.
      * cbn [writeGameState emit trace set_gameStates]. rewrite Ht1.
        rewrite <- !app_assoc. reflexivity.
      * split; intros ->; unfold d' in *;
          [exfalso; apply Hnowrap; reflexivity | split; reflexivity].
  - rewrite startNewGameRound_run, Hg. cbv zeta. fold g1.
    eexists. split; [reflexivity |].
    split; [apply writeGameState_frame |]. split; reflexivity.
Qed.

(** The sample game at dealer 3 and wind 1 ends a round that changes the
    dealer: dealer 0 and wind 2; at dealer 1, dealer 2 and wind 1; and a
    round that keeps the dealer keeps both. *)
Lemma startNewGameRound_dealer_wind_witness :
  let after (isDealerChanged : bool) (dealer : Z) :=
    gameStates (startNewGameRound (H := Sample.externals) "game-1"
                  Sample.connectionIds isDealerChanged
                  (Sample.world 144 dealer 1)).2 !! "game-1" in
  (after true 3 ≫= GameState.dealer) = Some 0 ∧
  (after true 3 ≫= GameState.currentWind) = Some 2 ∧
  (after true 1 ≫= GameState.dealer) = Some 2 ∧
  (after true 1 ≫= GameState.currentWind) = Some 1 ∧
  (after false 3 ≫= GameState.dealer) = Some 3 ∧
  (after false 3 ≫= GameState.currentWind) = Some 1.
Proof.
  intros after. unfold after.
  destruct (startNewGameRound_dealer_wind (H := Sample.externals) "game-1"
              Sample.connectionIds (Sample.world 144 3 1)
              (Sample.state 144 3 1) eq_refl eq_refl) as [H3 Hkeep].
  destruct (startNewGameRound_dealer_wind (H := Sample.externals) "game-1"
              Sample.connectionIds (Sample.world 144 1 1)
              (Sample.state 144 1 1) eq_refl eq_refl) as [H1 _].
  destruct (H3 3 1 eq_refl eq_refl ltac:(lia) ltac:(lia))
    as (g3 & w3 & Hrun3 & Hg3 & Hd3 & Hx3 & _).
  destruct (H1 1 1 eq_refl eq_refl ltac:(lia) ltac:(lia))
    as (g1 & w1 & Hrun1 & Hg1 & Hd1 & Hx1 & _).
  destruct Hkeep as (wk & Hrunk & Hgk & Hdk & Hxk).
  rewrite Hrun3, Hrun1, Hrunk. cbn [snd].
  rewrite Hg3, Hg1, Hgk. cbn [mbind option_bind].
  rewrite Hd3, Hx3, Hd1, Hx1, Hdk, Hxk.
  repeat split; reflexivity.
Defined.

(* ===================================================================== *)
(** ** The count of interactions *)
(* ===================================================================== *)

Lemma initGameState_run `{Externals} gameId connectionIds w :
  initGameState gameId connectionIds w =
  (Returned (initialGame (entropy w) connectionIds),
   writeGameState gameId (initialGame (entropy w) connectionIds) (drawn w)).
Proof.
  unfold initGameState, new_HongKongWall, initialGame. rewrite bind_run.
  cbv iota beta.
  destruct (generateHongKongMahjongHands (HongKongWall (entropy w))
              connectionIds) as [hands initialWall].
  reflexivity.
Qed.

(** The invariant moves from a world to one that differs from it on one
    game whose count is right. *)
Lemma InteractionInvariant_step gameId w w' :
  InteractionInvariant w →
  (∀ other, other ≠ gameId →
     gameStates w' !! other = gameStates w !! other) →
  (∀ g', gameStates w' !! gameId = Some g' →
         interactionsConsistent g' = true) →
  InteractionInvariant w'.
Proof.
  intros Hinv Hother Hsame k g' Hk.
  destruct (decide (k = gameId)) as [-> | Hne]; [by apply Hsame |].
  rewrite Hother in Hk by done. by apply (Hinv k).
Qed.

Lemma InteractionInvariant_write gameId item w :
  InteractionInvariant w → interactionsConsistent item = true →
  InteractionInvariant (writeGameState gameId item w).
Proof.
  intros Hinv Hitem. apply (InteractionInvariant_step gameId w); [done | |].
  - intros other Hne. by apply writeGameState_frame.
  - intros g'. unfold writeGameState. simpl. rewrite lookup_insert_eq.
    by intros [= <-].
Qed.

Lemma keepsInteractions_refl gameId w : keepsInteractions gameId w w.
Proof.
  split; [done |]. destruct (gameStates w !! gameId) as [g|]; eauto.
Qed.

Lemma keepsInteractions_trans gameId w1 w2 w3 :
  keepsInteractions gameId w1 w2 → keepsInteractions gameId w2 w3 →
  keepsInteractions gameId w1 w3.
Proof.
  intros [Ho12 H12] [Ho23 H23]. split.
  - intros other Hne. rewrite Ho23, Ho12; done.
  - destruct (gameStates w1 !! gameId) as [g1|].
    + destruct H12 as (g2 & Hg2 & Hc2 & Hl2). rewrite Hg2 in H23.
      destruct H23 as (g3 & Hg3 & Hc3 & Hl3).
      exists g3. repeat split; congruence.
    + by rewrite H12 in H23.
Qed.

Lemma keepsInteractions_write gameId g g' w :
  gameStates w !! gameId = Some g →
  GameState.interactionCount g' = GameState.interactionCount g →
  GameState.playedTileInteractions g' = GameState.playedTileInteractions g →
  keepsInteractions gameId w (writeGameState gameId g' w).
Proof.
  intros Hg Hc Hl. split.
  - intros other Hne. by apply writeGameState_frame.
  - rewrite Hg. exists g'. split; [apply writeGameState_frame | done].
Qed.

Lemma keepsInteractions_invariant gameId w w' :
  keepsInteractions gameId w w' →
  InteractionInvariant w → InteractionInvariant w'.
Proof.
  intros [Hother Hsame] Hinv.
  apply (InteractionInvariant_step gameId w); [done | done |].
  intros g' Hg'. destruct (gameStates w !! gameId) as [g|] eqn:Hg;
    [| congruence].
  destruct Hsame as (g'' & Hg'' & Hc & Hl).
  assert (g'' = g') as -> by congruence.
  specialize (Hinv gameId g Hg). unfold interactionsConsistent in *.
  by rewrite Hc, Hl.
Qed.

Lemma changeWind_keepsInteractions `{Externals} gameId w :
  keepsInteractions gameId w (changeWind gameId w).2.
Proof.
  rewrite changeWind_run.
  destruct (gameStates w !! gameId) as [g|] eqn:Hg;
    [| apply keepsInteractions_refl].
  destruct (GameState.currentWind g) as [x|];
    [| apply keepsInteractions_refl].
  destruct (_ <? _); [| apply keepsInteractions_refl].
  by apply (keepsInteractions_write gameId g).
Qed.

Lemma writeNextDealer_keepsInteractions `{Externals} gameId next w g :
  gameStates w !! gameId = Some g →
  keepsInteractions gameId w (writeNextDealer gameId next w).2.
Proof.
  intros Hg. rewrite (writeNextDealer_stored gameId next w g Hg).
  destruct (_ <? _); [| apply keepsInteractions_refl].
  by apply (keepsInteractions_write gameId g).
Qed.

Lemma changeDealer_keepsInteractions `{Externals} gameId w :
  keepsInteractions gameId w (changeDealer gameId w).2.
Proof.
  rewrite changeDealer_run.
  destruct (gameStates w !! gameId) as [g|] eqn:Hg;
    [| apply keepsInteractions_refl].
  destruct (GameState.dealer g) as [d|]; [| apply keepsInteractions_refl].
  cbv zeta. destruct (_ =? 0);
    [| by apply (writeNextDealer_keepsInteractions gameId _ w g)].
  pose proof (changeWind_keepsInteractions gameId w) as Hwind.
  destruct (changeWind gameId w) as [[r|e] w1]; [| exact Hwind].
  cbn [snd] in Hwind.
  apply (keepsInteractions_trans gameId w w1); [exact Hwind |].
  destruct Hwind as [_ Hw1]. rewrite Hg in Hw1.
  destruct Hw1 as (g1 & Hg1 & _).
  by apply (writeNextDealer_keepsInteractions gameId _ w1 g1).
Qed.

(** A run of calls from a state with [n] recorded responses: as long as
    the total stays within 4, every call succeeds. *)
Lemma setPlayedTileInteractions_run `{Externals} gameId calls :
  DEFAULT_MAX_USERS_IN_GAME = 4 →
  ∀ w g l,
    gameStates w !! gameId = Some g →
    GameState.playedTileInteractions g = Some l →
    GameState.interactionCount g = Some (Z.of_nat (length l)) →
    (length l + length calls ≤ 4)%nat →
    ∃ results w' g',
      setPlayedTileInteractions gameId calls w = (Returned results, w') ∧
      length results = length calls ∧
      gameStates w' !! gameId = Some g' ∧
      GameState.interactionCount g'
      = Some (Z.of_nat (length l + length calls)) ∧
      GameState.playedTileInteractions g'
      = Some (l ++ map playedTileOf calls).
Proof.
  intros Hmax. induction calls as [| c calls IH]; intros w g l Hg Hl Hn Hle.
  - exists [], w, g. simpl. rewrite Nat.add_0_r, app_nil_r. done.
  - simpl in Hle. unfold setPlayedTileInteractions. simpl mapM.
    rewrite bind_run.
    rewrite setPlayedTileInteraction_run, Hg, Hn, Hl, Hmax.
    unfold attr_lt. destruct (Z.ltb_spec (Z.of_nat (length l)) 4); [| lia].
    cbv zeta.
    match goal with
    | |- context [writeGameState gameId ?item w] => set (g1 := item)
    end.
    destruct (IH (writeGameState gameId g1 w) g1 (l ++ [playedTileOf c]))
      as (results & w' & g' & Hrun & Hlen & Hg' & Hc' & Hl').
    + apply writeGameState_frame.
    + reflexivity.
    + subst g1. simpl. rewrite length_app. unfold ADD. simpl.
      f_equal. lia.
    + rewrite length_app. simpl. lia.
    + unfold setPlayedTileInteractions in Hrun.
      rewrite bind_run, Hrun.
      exists (Some g1 :: results), w', g'.
      split; [reflexivity |]. split; [simpl; lia |]. split; [exact Hg' |].
      rewrite length_app in Hc'. simpl in Hc'. simpl length.
      split; [rewrite Hc'; f_equal; lia |].
      rewrite Hl', <- app_assoc. reflexivity.
Qed.

(** C3. [interactionCount] is the length of [playedTileInteractions] in
    every stored game state, and stays so: [initGameState] stores a state
    with count 0 and no interaction; [setPlayedTileInteraction],
    [resetPlayedTileInteraction] and [startNewGameRound] keep the equality
    in every stored state, whatever their outcome, and the last two leave
    the game they are called on (when it is stored) with count 0 and no
    interaction. With the bound at 4, from a state with count 0 and no
    interaction, N calls of [setPlayedTileInteraction] with N at most 3 all
    succeed and leave count N and exactly the N records of the calls. *)
Theorem interactionCount_invariant `{Externals} (gameId : string)
    (w : World) :
  InteractionInvariant w →
  (∀ connectionIds,
     InteractionInvariant (initGameState gameId connectionIds w).2 ∧
     ∃ g, gameStates (initGameState gameId connectionIds w).2 !! gameId
          = Some g ∧ interactionsReset g) ∧
  (∀ connectionId playedTiles meld skipInteraction,
     InteractionInvariant
       (setPlayedTileInteraction gameId connectionId playedTiles meld
                                 skipInteraction w).2) ∧
  (InteractionInvariant (resetPlayedTileInteraction gameId w).2 ∧
   (is_Some (gameStates w !! gameId) →
    ∃ g, gameStates (resetPlayedTileInteraction gameId w).2 !! gameId
         = Some g ∧ interactionsReset g)) ∧
  (∀ connectionIds isDealerChanged,
     InteractionInvariant
       (startNewGameRound gameId connectionIds isDealerChanged w).2 ∧
     (is_Some (gameStates w !! gameId) →
      ∃ g, gameStates
             (startNewGameRound gameId connectionIds isDealerChanged w).2
             !! gameId = Some g ∧ interactionsReset g)) ∧
  (DEFAULT_MAX_USERS_IN_GAME = 4 →
   ∀ g calls,
     gameStates w !! gameId = Some g → interactionsReset g →
     (length calls ≤ 3)%nat →
     ∃ results w' g',
       setPlayedTileInteractions gameId calls w = (Returned results, w') ∧
       length results = length calls ∧
       gameStates w' !! gameId = Some g' ∧
       GameState.interactionCount g' = Some (Z.of_nat (length calls)) ∧
       GameState.playedTileInteractions g' = Some (map playedTileOf calls) ∧
       length (map playedTileOf calls) = length calls).
Proof.
  intros Hinv. split; [| split; [| split; [| split]]].
  - intros connectionIds. rewrite initGameState_run. cbn [snd]. split.
    + apply InteractionInvariant_write; [| reflexivity].
      intros k g Hk. by apply (Hinv k).
    + eexists. split; [apply writeGameState_frame | by split].
  - intros connectionId playedTiles meld skipInteraction.
    rewrite setPlayedTileInteraction_run.
    destruct (gameStates w !! gameId) as [g|] eqn:Hg; [| exact Hinv].
    destruct (attr_lt _ _); [| exact Hinv].
    destruct (GameState.playedTileInteractions g) as [l|] eqn:Hl;
      [| exact Hinv].
    cbv zeta. cbn [snd]. apply InteractionInvariant_write; [exact Hinv |].
    specialize (Hinv gameId g Hg). unfold interactionsConsistent in *.
    rewrite Hl in Hinv. simpl.
    destruct (GameState.interactionCount g) as [n|]; [| discriminate].
    apply Z.eqb_eq in Hinv. unfold ADD. simpl. apply Z.eqb_eq.
    rewrite length_app. simpl. lia.
  - rewrite resetPlayedTileInteraction_run.
    destruct (gameStates w !! gameId) as [g|] eqn:Hg.
    + cbv zeta. cbn [snd]. split.
      * by apply InteractionInvariant_write.
      * intros _. eexists. split; [apply writeGameState_frame | by split].
    + split; [exact Hinv |]. by intros [? ?].
  - intros connectionIds isDealerChanged.
    rewrite startNewGameRound_run.
    destruct (gameStates w !! gameId) as [g|] eqn:Hg.
    + cbv zeta.
      set (g1 := dealtRound (entropy w) connectionIds g).
      set (w1 := writeGameState gameId g1 (drawn w)).
      assert (InteractionInvariant w1) as Hinv1.
      { apply InteractionInvariant_write; [| reflexivity].
        intros k g' Hk. by apply (Hinv k). }
      assert (gameStates w1 !! gameId = Some g1) as Hg1
        by apply writeGameState_frame.
      destruct isDealerChanged.
      * pose proof (changeDealer_keepsInteractions gameId w1) as Hkeep.
        split; [by apply (keepsInteractions_invariant gameId w1) |].
        intros _. destruct Hkeep as [_ Hkeep]. rewrite Hg1 in Hkeep.
        destruct Hkeep as (g' & Hg' & Hc & Hl).
        exists g'. split; [exact Hg' |]. by split; [rewrite Hc | rewrite Hl].
      * cbn [snd]. split; [exact Hinv1 |]. intros _.
        exists g1. by repeat split.
    + cbn [snd]. split; [| by intros [? ?]].
      intros k g' Hk. by apply (Hinv k).
  - intros Hmax g calls Hg [Hcount Hlist] Hlen.
    destruct (setPlayedTileInteractions_run gameId calls Hmax w g []
                Hg Hlist Hcount ltac:(simpl; lia))
      as (results & w' & g' & Hrun & Hres & Hg' & Hc' & Hl').
    exists results, w', g'. simpl in Hc', Hl'.
    rewrite length_map. done.
Qed.

(** In the sample game the three other players answer a discard one after
    the other: the count is 3 and three records are stored, in the order
    of the calls. *)
Lemma interactionCount_invariant_witness :
  let calls := [Sample.skip "c2"; Sample.skip "c3"; Sample.skip "c4"] in
  let w' := (setPlayedTileInteractions (H := Sample.externals) "game-1"
               calls (Sample.world 60 0 0)).2 in
  InteractionInvariant (Sample.world 60 0 0) ∧
  (gameStates w' !! "game-1" ≫= GameState.interactionCount) = Some 3 ∧
  (gameStates w' !! "game-1" ≫= GameState.playedTileInteractions)
  = Some (map playedTileOf calls).
Proof.
  intros calls w'.
  assert (InteractionInvariant (Sample.world 60 0 0)) as Hinv
    by (apply (bool_decide_unpack _); by vm_compute).
  split; [exact Hinv |].
  destruct (interactionCount_invariant (H := Sample.externals) "game-1"
              (Sample.world 60 0 0) Hinv) as (_ & _ & _ & _ & Hcalls).
  destruct (Hcalls eq_refl (Sample.state 60 0 0) calls eq_refl
              (conj eq_refl eq_refl) ltac:(simpl; lia))
    as (results & w1 & g' & Hrun & _ & Hg' & Hc' & Hl' & _).
  unfold w'. rewrite Hrun. cbn [snd]. rewrite Hg'. cbn [mbind option_bind].
  by rewrite Hc', Hl'.
Defined.

(* ===================================================================== *)
(** ** Broadcasting the hands *)
(* ===================================================================== *)

Lemma emitAll_nil w : emitAll [] w = w.
Proof. destruct w. unfold emitAll. simpl. by rewrite app_nil_r. Qed.

Lemma emitAll_emit e es w : emitAll es (emit e w) = emitAll (e :: es) w.
Proof. unfold emitAll, emit. simpl. by rewrite <- app_assoc. Qed.

Lemma emitAll_app es1 es2 w :
  emitAll es2 (emitAll es1 w) = emitAll (es1 ++ es2) w.
Proof. unfold emitAll. simpl. by rewrite app_assoc. Qed.

Lemma gameStart_mapM_run ws hands currentIndex connectionIds w :
  ∃ sent,
    mapM (λ connectionId,
            match getHandByConnectionId hands connectionId with
            | None => throw TypeError
            | Some userHand =>
                ws.send ws
                  (createGameStartResponse (UserHand.hand userHand)
                     (publicPiles hands) currentIndex) connectionId
            end) connectionIds w
    = (if allHaveHands hands connectionIds then Returned sent
       else Threw TypeError,
       emitAll (gameStartSends hands currentIndex connectionIds) w).
Proof.
  revert w. induction connectionIds as [| c cs IH]; intros w.
  - exists []. simpl. by rewrite emitAll_nil.
  - simpl. rewrite bind_run.
    destruct (getHandByConnectionId hands c) as [userHand|] eqn:Hhand.
    + unfold ws.send at 1. cbv iota beta.
      destruct (IH (emit (EvSend c (createGameStartResponse
                                     (UserHand.hand userHand)
                                     (publicPiles hands) currentIndex)) w))
        as [sent Hsent].
      rewrite bind_run, Hsent, emitAll_emit.
      rewrite bool_decide_eq_true_2 by eauto. simpl.
      exists (tt :: sent). by destruct (allHaveHands hands cs).
    + exists []. rewrite bool_decide_eq_false_2 by (by intros [? ?]).
      simpl. by rewrite emitAll_nil.
Qed.

Lemma broadcastGameReset_run `{Externals} ws connectionIds gs hands w :
  GameState.hands gs = Some hands →
  broadcastGameReset ws connectionIds gs w
  = (if allHaveHands hands connectionIds then Returned tt
     else Threw TypeError,
     emitAll (gameStartSends hands (GameState.currentIndex gs)
                             connectionIds) w).
Proof.
  intros Hhands. unfold broadcastGameReset, broadcastGameStart.
  rewrite bind_run. cbv [mret Async_ret]. cbv iota beta. rewrite Hhands.
  rewrite bind_run.
  destruct (gameStart_mapM_run ws hands (GameState.currentIndex gs)
              connectionIds w) as [sent Hsent].
  unfold publicPiles in Hsent. rewrite Hsent.
  by destruct (allHaveHands hands connectionIds).
Qed.

Lemma broadcastGameStart_new_run `{Externals} ws gameId connectionIds
    gameState w :
  let g0 := initialGame (entropy w) connectionIds in
  let hands := default [] (GameState.hands g0) in
  broadcastGameStart ws gameId connectionIds true gameState w
  = (if allHaveHands hands connectionIds then Returned tt
     else Threw TypeError,
     emitAll (gameStartSends hands (GameState.currentIndex g0) connectionIds)
             (writeGameState gameId g0 (drawn w))).
Proof.
  intros g0 hands. unfold broadcastGameStart.
  rewrite bind_run, bind_run, initGameState_run. cbv [mret Async_ret].
  cbv iota beta. fold g0. change (GameState.hands g0) with (Some hands).
  cbv iota. rewrite bind_run.
  destruct (gameStart_mapM_run ws hands (GameState.currentIndex g0)
              connectionIds (writeGameState gameId g0 (drawn w)))
    as [sent Hsent].
  unfold publicPiles in Hsent. rewrite Hsent.
  by destruct (allHaveHands hands connectionIds).
Qed.

Lemma gameStartSends_all hands currentIndex connectionIds :
  allHaveHands hands connectionIds = true →
  sendsOf (gameStartSends hands currentIndex connectionIds)
  = map (λ c, (c, createGameStartResponse
                    (default [] (UserHand.hand
                                   <$> getHandByConnectionId hands c))
                    (publicPiles hands) currentIndex))
        connectionIds.
Proof.
  induction connectionIds as [| c cs IH]; [done |].
  simpl. intros [Hc Hcs]%andb_prop.
  apply bool_decide_eq_true in Hc as [userHand Hhand]. rewrite Hhand.
  simpl. by rewrite <- IH.
Qed.

(** The hand found for a connection is an entry of the deal, and its own. *)
Lemma getHandByConnectionId_own hands connectionId userHand :
  getHandByConnectionId hands connectionId = Some userHand →
  UserHand.connectionId userHand = connectionId ∧ In userHand hands.
Proof.
  intros Hfind. apply find_some in Hfind as [Hin Heq].
  by apply String.eqb_eq in Heq.
Qed.

Lemma sameViewFor_find connectionId hands1 hands2 c :
  sameViewFor connectionId hands1 hands2 →
  match getHandByConnectionId hands1 c, getHandByConnectionId hands2 c with
  | Some h1, Some h2 =>
      c = connectionId → UserHand.hand h1 = UserHand.hand h2
  | None, None => True
  | _, _ => False
  end.
Proof.
  unfold sameViewFor, getHandByConnectionId.
  induction 1 as [| h1 h2 l1 l2 (Hid & _ & Hhand) _ IH]; [done |].
  simpl. rewrite <- Hid.
  destruct (String.eqb_spec (UserHand.connectionId h1) c) as [Hc | _];
    [| exact IH].
  intros ->. by apply Hhand.
Qed.

Lemma sameViewFor_piles connectionId hands1 hands2 :
  sameViewFor connectionId hands1 hands2 →
  publicPiles hands1 = publicPiles hands2.
Proof.
  unfold sameViewFor, publicPiles.
  induction 1 as [| h1 h2 l1 l2 (Hid & Hpile & _) _ IH]; [done |].
  simpl. by rewrite Hid, Hpile, IH.
Qed.

Lemma messagesTo_app c t1 t2 :
  messagesTo c (t1 ++ t2) = messagesTo c t1 ++ messagesTo c t2.
Proof. unfold messagesTo. apply omap_app. Qed.

Lemma sameViewFor_sends connectionId hands1 hands2 currentIndex
    connectionIds :
  sameViewFor connectionId hands1 hands2 →
  messagesTo connectionId (gameStartSends hands1 currentIndex connectionIds)
  = messagesTo connectionId
      (gameStartSends hands2 currentIndex connectionIds).
Proof.
  intros Hview. induction connectionIds as [| c cs IH]; [done |].
  simpl. pose proof (sameViewFor_find connectionId hands1 hands2 c Hview)
    as Hfind.
  destruct (getHandByConnectionId hands1 c) as [h1|],
           (getHandByConnectionId hands2 c) as [h2|]; try done.
  change (messagesTo connectionId (?e :: ?t))
    with (messagesTo connectionId ([e] ++ t)).
  rewrite !messagesTo_app, IH. f_equal.
  unfold messagesTo. simpl.
  destruct (String.eqb_spec c connectionId) as [Hc | _]; [| done].
  by rewrite (Hfind Hc), (sameViewFor_piles _ _ _ Hview).
Qed.

(** C5. [broadcastGameReset], and [broadcastGameStart] for a new game on
    the state [initGameState] stores, send to the connections of the game,
    in order, one GAME_START message each when each has a hand in the
    deal, and change nothing else. The message to a connection carries the
    hand of the entry found for that connection, which is an entry of the
    deal under that connection's own id, the public piles of all players
    and the shared tile index. The messages a connection receives do not
    depend on the concealed hands of the others: two game states with the
    same players, public piles and tile index, and the same hand for that
    connection, bring it the same messages. *)
Theorem broadcastGameStart_personalized `{Externals} (ws : WebSocketClient)
    (connectionIds : list string) (w : World) :
  (∀ gs hands,
     GameState.hands gs = Some hands →
     allHaveHands hands connectionIds = true →
     ∃ w',
       broadcastGameReset ws connectionIds gs w = (Returned tt, w') ∧
       gameStates w' = gameStates w ∧
       connections w' = connections w ∧ games w' = games w ∧
       ∃ sends,
         trace w' = trace w ++ sends ∧
         sends = map (λ cm, EvSend cm.1 cm.2) (sendsOf sends) ∧
         sendsOf sends
         = map (λ c, (c, createGameStartResponse
                           (default [] (UserHand.hand
                                          <$> getHandByConnectionId hands c))
                           (publicPiles hands) (GameState.currentIndex gs)))
               connectionIds) ∧
  (∀ gameId,
     let g0 := initialGame (entropy w) connectionIds in
     let hands := default [] (GameState.hands g0) in
     allHaveHands hands connectionIds = true →
     ∃ w',
       broadcastGameStart ws gameId connectionIds true None w
       = (Returned tt, w') ∧
       sendsOf (trace w')
       = sendsOf (trace w) ++
         map (λ c, (c, createGameStartResponse
                         (default [] (UserHand.hand
                                        <$> getHandByConnectionId hands c))
                         (publicPiles hands) (GameState.currentIndex g0)))
             connectionIds) ∧
  (∀ hands c userHand,
     getHandByConnectionId hands c = Some userHand →
     UserHand.connectionId userHand = c ∧ In userHand hands) ∧
  (∀ c gs1 gs2 hands1 hands2,
     GameState.hands gs1 = Some hands1 →
     GameState.hands gs2 = Some hands2 →
     GameState.currentIndex gs1 = GameState.currentIndex gs2 →
     sameViewFor c hands1 hands2 →
     messagesTo c (trace (broadcastGameReset ws connectionIds gs1 w).2)
     = messagesTo c (trace (broadcastGameReset ws connectionIds gs2 w).2)).
Proof.
  split; [| split; [| split]].
  - intros gs hands Hhands Hall.
    rewrite (broadcastGameReset_run ws connectionIds gs hands w Hhands), Hall.
    eexists. split; [reflexivity |]. repeat split.
    exists (gameStartSends hands (GameState.currentIndex gs) connectionIds).
    split; [reflexivity |].
    rewrite (gameStartSends_all _ _ _ Hall). split; [| reflexivity].
    clear Hhands. induction connectionIds as [| c cs IH]; [done |].
    simpl in *. apply andb_prop in Hall as [Hc Hcs].
    apply bool_decide_eq_true in Hc as [userHand Hhand]. rewrite Hhand.
    simpl. f_equal. by apply IH.
  - intros gameId g0 hands Hall.
    rewrite (broadcastGameStart_new_run ws gameId connectionIds None w).
    fold g0. fold hands. rewrite Hall.
    eexists. split; [reflexivity |].
    cbn [emitAll trace writeGameState emit drawn set_entropy set_gameStates].
    unfold sendsOf. rewrite !omap_app. simpl. rewrite app_nil_r.
    f_equal. apply (gameStartSends_all _ _ _ Hall).
  - apply getHandByConnectionId_own.
  - intros c gs1 gs2 hands1 hands2 Hhands1 Hhands2 Hindex Hview.
    rewrite (broadcastGameReset_run ws connectionIds gs1 hands1 w Hhands1).
    rewrite (broadcastGameReset_run ws connectionIds gs2 hands2 w Hhands2).
    cbn [snd emitAll trace]. rewrite !messagesTo_app, Hindex.
    f_equal. by apply sameViewFor_sends.
Qed.

(** In the sample game the four players get one message each; player c1
    gets the first thirteen tiles of the wall and would get the same
    message had player c2 been dealt other tiles. *)
Lemma broadcastGameStart_personalized_witness :
  let ws := mkWebSocketClient in
  let w := Sample.world 52 0 0 in
  let gs1 := Sample.state 52 0 0 in
  let gs2 := GameState.set_hands (Some Sample.otherDeal) gs1 in
  let sent gs :=
    trace (broadcastGameReset (H := Sample.externals) ws
             Sample.connectionIds gs w).2 in
  map fst (sendsOf (sent gs1)) = Sample.connectionIds ∧
  messagesTo "c1" (sent gs1)
  = [createGameStartResponse (repeat "1_DOT" 13)
       (map (λ c, SelfPlayedTile.mk c []) Sample.connectionIds) (Some 52)] ∧
  messagesTo "c1" (sent gs1) = messagesTo "c1" (sent gs2) ∧
  messagesTo "c2" (sent gs1) ≠ messagesTo "c2" (sent gs2).
Proof.
  intros ws w gs1 gs2 sent.
  destruct (broadcastGameStart_personalized (H := Sample.externals) ws
              Sample.connectionIds w) as (Hreset & _ & _ & Hview).
  destruct (Hreset gs1 (Sample.deal 0 Sample.connectionIds) eq_refl eq_refl)
    as (w' & Hrun & _ & _ & _ & sends & Htrace & _ & Hsends).
  assert (messagesTo "c1" (sent gs1) = messagesTo "c1" (sent gs2)) as Hsame.
  { apply (Hview "c1" gs1 gs2 (Sample.deal 0 Sample.connectionIds)
             Sample.otherDeal eq_refl eq_refl eq_refl).
    repeat constructor; intros [=]. }
  split; [| split; [| split; [exact Hsame |]]].
  - unfold sent. rewrite Hrun. cbn [snd]. rewrite Htrace.
    change (trace w) with (@nil Event). rewrite app_nil_l, Hsends.
    reflexivity.
  - reflexivity.
  - vm_compute. discriminate.
Defined.

(* ===================================================================== *)
(** ** Ending a round *)
(* ===================================================================== *)

Lemma onlyWrites_refl w : onlyWrites w w.
Proof. exists []. by rewrite app_nil_r. Qed.

Lemma onlyWrites_trans w1 w2 w3 :
  onlyWrites w1 w2 → onlyWrites w2 w3 → onlyWrites w1 w3.
Proof.
  intros (t12 & H12 & Hw12) (t23 & H23 & Hw23). exists (t12 ++ t23).
  split; [by rewrite H23, H12, app_assoc |].
  by rewrite forallb_app, Hw12, Hw23.
Qed.

Lemma onlyWrites_write gameId item w :
  onlyWrites w (writeGameState gameId item w).
Proof. by exists [EvWriteGameState gameId item]. Qed.

Lemma changeWind_onlyWrites `{Externals} gameId w :
  onlyWrites w (changeWind gameId w).2.
Proof.
  rewrite changeWind_run.
  destruct (gameStates w !! gameId) as [g|]; [| apply onlyWrites_refl].
  destruct (GameState.currentWind g); [| apply onlyWrites_refl].
  destruct (_ <? _); [apply onlyWrites_write | apply onlyWrites_refl].
Qed.

Lemma writeNextDealer_onlyWrites `{Externals} gameId next w :
  onlyWrites w (writeNextDealer gameId next w).2.
Proof.
  unfold writeNextDealer.
  destruct (_ <? _); [apply onlyWrites_write | apply onlyWrites_refl].
Qed.

Lemma changeDealer_onlyWrites `{Externals} gameId w :
  onlyWrites w (changeDealer gameId w).2.
Proof.
  rewrite changeDealer_run.
  destruct (gameStates w !! gameId) as [g|]; [| apply onlyWrites_refl].
  destruct (GameState.dealer g); [| apply onlyWrites_refl].
  cbv zeta. destruct (_ =? 0); [| apply writeNextDealer_onlyWrites].
  pose proof (changeWind_onlyWrites gameId w) as Hwind.
  destruct (changeWind gameId w) as [[r|e] w1]; [| exact Hwind].
  apply (onlyWrites_trans w w1); [exact Hwind |].
  apply writeNextDealer_onlyWrites.
Qed.

Lemma startNewGameRound_onlyWrites `{Externals} gameId connectionIds
    isDealerChanged w :
  onlyWrites w (startNewGameRound gameId connectionIds isDealerChanged w).2.
Proof.
  rewrite startNewGameRound_run.
  destruct (gameStates w !! gameId) as [g|];
    [| by exists []; simpl; rewrite app_nil_r].
  cbv zeta.
  set (w1 := writeGameState gameId _ (drawn w)).
  assert (onlyWrites w w1) as Hw1
    by (by eexists [EvWriteGameState gameId _]).
  destruct isDealerChanged; [| exact Hw1].
  apply (onlyWrites_trans w w1); [exact Hw1 |].
  apply changeDealer_onlyWrites.
Qed.

(** In this store a round never resolves to no state: without the game
    the conditional update is rejected. *)
Lemma startNewGameRound_resolved `{Externals} gameId connectionIds
    isDealerChanged w :
  (startNewGameRound gameId connectionIds isDealerChanged w).1
  ≠ Returned None.
Proof.
  rewrite startNewGameRound_run.
  destruct (gameStates w !! gameId) as [g|]; [| discriminate].
  cbv zeta. destruct isDealerChanged; [| discriminate].
  set (w1 := writeGameState gameId _ (drawn w)). clearbody w1.
  rewrite changeDealer_run.
  destruct (gameStates w1 !! gameId) as [g1|]; [| discriminate].
  destruct (GameState.dealer g1); [| discriminate].
  cbv zeta.
  assert (∀ next w2, (writeNextDealer gameId next w2).1 ≠ Returned None)
    as Hwrite.
  { intros next w2. unfold writeNextDealer.
    destruct (_ <? _); discriminate. }
  destruct (_ =? 0); [| apply Hwrite].
  destruct (changeWind gameId w1) as [[r|e] w2]; [apply Hwrite |].
  discriminate.
Qed.

Lemma broadcastUpdateGameState_run `{Externals} ws connectionIds dealer
    wind w :
  broadcastUpdateGameState ws connectionIds dealer wind w
  = (Returned tt,
     emitAll (map (λ cid, EvSend cid
                            (createUpdateGameStateResponse dealer wind))
                  connectionIds) w).
Proof.
  unfold broadcastUpdateGameState. rewrite bind_run.
  assert (∀ w0, ∃ sent,
            mapM (λ cid, ws.send ws
                           (createUpdateGameStateResponse dealer wind) cid)
                 connectionIds w0
            = (Returned sent,
               emitAll (map (λ cid, EvSend cid
                               (createUpdateGameStateResponse dealer wind))
                            connectionIds) w0)) as Hsends.
  { induction connectionIds as [| c cs IH]; intros w0.
    - exists []. simpl. by rewrite emitAll_nil.
    - simpl. rewrite bind_run. unfold ws.send at 1. cbv iota beta.
      destruct (IH (emit (EvSend c (createUpdateGameStateResponse
                                     dealer wind)) w0)) as [sent Hsent].
      rewrite bind_run, Hsent, emitAll_emit. by exists (tt :: sent). }
  destruct (Hsends w) as [sent ->]. reflexivity.
Qed.

(** C6. Where [users[dealer]] is a user, [startNewRoundAndSendUpdates]
    first runs [startNewGameRound], asking for a dealer change exactly when
    the caller is not the dealer, and that step writes to the store and
    sends nothing. If the round resolves to a state (whose hands cover the
    connections), the function then sends UPDATE_GAME_STATE with the new
    dealer and wind to every connection, sleeps 5000 ms, sends GAME_START
    with the new hands to every connection, in this order and with no
    further write, and resolves to no response. If the round resolves to no
    state, the rest of the function answers 400 and sends nothing; if the
    round is rejected, the function is rejected with the same exception and
    nothing is sent. In this store the round is never resolved to no
    state: a missing game rejects it. *)
Theorem startNewRoundAndSendUpdates_sequence `{Externals}
    (ws : WebSocketClient) (gameId connectionId : string)
    (users : list User.t) (dealer : option Z) (dealerUser : User.t)
    (w : World) :
  js_index users dealer = Some dealerUser →
  let connectionIds := getConnectionIdsFromUsers users in
  let isDealerChanged :=
    bool_decide (User.connectionId dealerUser ≠ connectionId) in
  let round := startNewGameRound gameId connectionIds isDealerChanged w in
  (isDealerChanged = false ↔ User.connectionId dealerUser = connectionId) ∧
  onlyWrites w round.2 ∧
  (∀ gs hands,
     round.1 = Returned (Some gs) →
     GameState.hands gs = Some hands →
     allHaveHands hands connectionIds = true →
     startNewRoundAndSendUpdates ws gameId connectionId users dealer w
     = (Returned None,
        emitAll
          (map (λ cid, EvSend cid
                         (createUpdateGameStateResponse
                            (GameState.dealer gs) (GameState.currentWind gs)))
               connectionIds ++
           [EvSleep 5000] ++
           gameStartSends hands (GameState.currentIndex gs) connectionIds)
          round.2) ∧
     sendsOf (gameStartSends hands (GameState.currentIndex gs) connectionIds)
     = map (λ c, (c, createGameStartResponse
                       (default [] (UserHand.hand
                                      <$> getHandByConnectionId hands c))
                       (publicPiles hands) (GameState.currentIndex gs)))
           connectionIds) ∧
  (∀ resolved, round.1 = Returned resolved →
     startNewRoundAndSendUpdates ws gameId connectionId users dealer w
     = sendUpdatesOfNewRound ws connectionIds resolved round.2) ∧
  (∀ w1, sendUpdatesOfNewRound ws connectionIds None w1
         = (Returned
              (Some (response 400 (BodyText "Cannot start new game round"))),
            w1)) ∧
  (∀ e, round.1 = Threw e →
     startNewRoundAndSendUpdates ws gameId connectionId users dealer w
     = (Threw e, round.2)) ∧
  round.1 ≠ Returned None ∧
  (gameStates w !! gameId = None →
   startNewRoundAndSendUpdates ws gameId connectionId users dealer w
   = (Threw ConditionalCheckFailedException, drawn w)).
Proof.
  intros Hdealer connectionIds isDealerChanged round.
  assert (startNewRoundAndSendUpdates ws gameId connectionId users dealer w
          = match round with
            | (Returned resolved, w1) =>
                sendUpdatesOfNewRound ws connectionIds resolved w1
            | (Threw e, w1) => (Threw e, w1)
            end) as Hrun.
  { unfold startNewRoundAndSendUpdates. rewrite Hdealer, bind_run.
    reflexivity. }
  split; [| split; [| split; [| split; [| split; [| split; [| split]]]]]].
  - unfold isDealerChanged. split.
    + intros Hfalse. apply bool_decide_eq_false in Hfalse.
      by destruct (decide (User.connectionId dealerUser = connectionId)).
    + intros Heq. by apply bool_decide_eq_false_2; intros ?.
  - apply startNewGameRound_onlyWrites.
  - intros gs hands Hround Hhands Hall. split.
    + rewrite Hrun. destruct round as [r w1]. cbn [fst snd] in *.
      subst r. unfold sendUpdatesOfNewRound.
      rewrite bind_run, broadcastUpdateGameState_run, bind_run.
      unfold sleep at 1. cbv iota beta.
      rewrite bind_run,
        (broadcastGameReset_run ws connectionIds gs hands _ Hhands), Hall.
      cbv iota beta. cbv [mret Async_ret].
      by rewrite emitAll_emit, emitAll_app.
    + by apply gameStartSends_all.
  - intros resolved Hround. rewrite Hrun. destruct round as [r w1].
    cbn [fst snd] in *. by subst r.
  - reflexivity.
  - intros e Hround. rewrite Hrun. destruct round as [r w1].
    cbn [fst snd] in *. by subst r.
  - apply startNewGameRound_resolved.
  - intros Hnone. rewrite Hrun. unfold round.
    by rewrite startNewGameRound_run, Hnone.
Qed.

(** The wall of the sample game is exhausted under dealer c4 and player c2
    ends the round: the store is written first, then every player gets
    dealer 0 and wind 2, then 5000 ms pass, then every player gets a new
    hand. When the dealer c4 ends the round, dealer and wind stay. For a
    game that does not exist the function is rejected and nothing is
    sent. *)
Lemma startNewRoundAndSendUpdates_sequence_witness :
  let ws := mkWebSocketClient in
  let w := Sample.world 144 3 1 in
  let run caller :=
    startNewRoundAndSendUpdates (H := Sample.externals) ws "game-1" caller
      Sample.users (Some 3) w in
  (run "c2").1 = Returned None ∧
  map isWrite (trace (run "c2").2)
  = [true; true; true] ++ repeat false 4 ++ [false] ++ repeat false 4 ∧
  (∃ gs, drop 3 (trace (run "c2").2)
         = map (λ cid, EvSend cid (createUpdateGameStateResponse
                                     (Some 0) (Some 2)))
               Sample.connectionIds ++
           [EvSleep 5000] ++
           gameStartSends (Sample.deal 0 Sample.connectionIds)
             (GameState.currentIndex gs) Sample.connectionIds) ∧
  map isWrite (trace (run "c4").2)
  = [true] ++ repeat false 4 ++ [false] ++ repeat false 4 ∧
  startNewRoundAndSendUpdates (H := Sample.externals) ws "game-9" "c2"
    Sample.users (Some 3) w
  = (Threw ConditionalCheckFailedException, drawn w).
Proof.
  intros ws w run.
  destruct (startNewRoundAndSendUpdates_sequence (H := Sample.externals)
              ws "game-1" "c2" Sample.users (Some 3)
              (User.mk "c4" None (Some "game-1")) w eq_refl)
    as (_ & _ & Hok & _).
  destruct (startNewRoundAndSendUpdates_sequence (H := Sample.externals)
              ws "game-1" "c4" Sample.users (Some 3)
              (User.mk "c4" None (Some "game-1")) w eq_refl)
    as (_ & _ & Hkeep & _).
  destruct (startNewRoundAndSendUpdates_sequence (H := Sample.externals)
              ws "game-9" "c2" Sample.users (Some 3)
              (User.mk "c4" None (Some "game-1")) w eq_refl)
    as (_ & _ & _ & _ & _ & _ & _ & Hmissing).
  destruct (Hok _ (Sample.deal 0 Sample.connectionIds) eq_refl eq_refl
              eq_refl) as [Hrun _].
  destruct (Hkeep _ (Sample.deal 0 Sample.connectionIds) eq_refl eq_refl
              eq_refl) as [Hrunkeep _].
  unfold run. rewrite Hrun, Hrunkeep.
  split; [reflexivity |]. split; [reflexivity |].
  split; [eexists; reflexivity |]. split; [reflexivity |].
  apply Hmissing. reflexivity.
Defined.

(* ===================================================================== *)
(** ** Drawing the wall down *)
(* ===================================================================== *)

Lemma set_currentIndex_same g v :
  GameState.currentIndex g = v → GameState.set_currentIndex v g = g.
Proof. destruct g. simpl. by intros ->. Qed.

Lemma drawTile_at gameId w g wall (i : nat) :
  gameStates w !! gameId = Some g →
  GameState.wall g = Some wall →
  length wall = 144%nat →
  GameState.currentIndex g = Some (Z.of_nat i) →
  drawTile gameId w =
  match wall !! i with
  | Some tile =>
      (Returned (Some tile),
       writeGameState gameId
         (GameState.set_currentIndex (Some (Z.of_nat (S i))) g) w)
  | None => (Returned (Some EmptyString), w)
  end.
Proof.
  intros Hg Hwall Hlen Hi.
  rewrite (drawTile_run gameId w g wall (Z.of_nat i) Hg Hwall Hi).
  unfold DEFAULT_WALL_LENGTH.
  destruct (Z.leb_spec 144 (Z.of_nat i)) as [Hge | Hlt].
  - by rewrite lookup_ge_None_2 by lia.
  - destruct (lookup_lt_is_Some_2 wall i) as [tile Htile]; [lia |].
    rewrite Htile. simpl. destruct (Z.leb_spec 0 (Z.of_nat i)); [| lia].
    by rewrite Nat2Z.id, Htile, Nat2Z.inj_succ.
Qed.

(** X1. On a stored game whose wall has 144 tiles and whose index [i] is at
    most 144, [k] draws in a row return the tiles of the wall from position
    [i] on, each once and in order, then the empty string for every draw
    past the end of the wall; they leave the index at [i + k], capped at
    144, and the rest of the game state as it was. *)
Theorem drawTiles_sequence (gameId : string) (k : nat) (w : World)
    (g : GameState.t) (wall : list Tile) (i : nat) :
  gameStates w !! gameId = Some g →
  GameState.wall g = Some wall →
  length wall = 144%nat →
  GameState.currentIndex g = Some (Z.of_nat i) →
  (i ≤ 144)%nat →
  ∃ w',
    drawTiles gameId k w
    = (Returned (map Some (take k (drop i wall)) ++
                 replicate (k - (144 - i)) (Some EmptyString)), w') ∧
    gameStates w' !! gameId
    = Some (GameState.set_currentIndex
              (Some (Z.of_nat (Nat.min (i + k) 144))) g).
Proof.
  revert w g i. induction k as [| k IH]; intros w g i Hg Hwall Hlen Hi Hle.
  - exists w. split; [reflexivity |].
    rewrite Nat.add_0_r, Nat.min_l by done.
    by rewrite set_currentIndex_same.
  - unfold drawTiles. simpl mapM. rewrite bind_run.
    rewrite (drawTile_at gameId w g wall i Hg Hwall Hlen Hi).
    destruct (wall !! i) as [tile|] eqn:Htile.
    + apply lookup_lt_Some in Htile as Hlt.
      set (g1 := GameState.set_currentIndex (Some (Z.of_nat (S i))) g).
      destruct (IH (writeGameState gameId g1 w) g1 (S i))
        as (w' & Hrun & Hg'); try done.
      * apply writeGameState_frame.
      * lia.
      * unfold drawTiles in Hrun. rewrite bind_run, Hrun.
        exists w'. split.
        -- cbv [mret Async_ret].
           replace (S k - (144 - i))%nat with (k - (144 - S i))%nat by lia.
           by rewrite (drop_S wall tile i Htile).
        -- rewrite Hg'. subst g1.
           replace (S i + k)%nat with (i + S k)%nat by lia.
           reflexivity.
    + apply lookup_ge_None in Htile.
      destruct (IH w g i) as (w' & Hrun & Hg'); try done.
      unfold drawTiles in Hrun. rewrite bind_run, Hrun.
      exists w'. split.
      * cbv [mret Async_ret].
        rewrite !drop_ge by lia. rewrite !take_nil.
        replace (144 - i)%nat with 0%nat by lia.
        by rewrite !Nat.sub_0_r.
      * rewrite Hg'.
        by rewrite !Nat.min_r by lia.
Qed.

(** The sample game at index 142: three draws give the last two tiles and
    then the empty string, and leave the index at 144. *)
Lemma drawTiles_sequence_witness :
  (drawTiles "game-1" 3 (Sample.world 142 0 0)).1
  = Returned [Some "EAST"; Some "EAST"; Some EmptyString] ∧
  currentIndexOf "game-1" (drawTiles "game-1" 3 (Sample.world 142 0 0)).2
  = Some 144.
Proof.
  destruct (drawTiles_sequence "game-1" 3 (Sample.world 142 0 0)
              (Sample.state 142 0 0) Sample.tiles 142
              eq_refl eq_refl eq_refl eq_refl ltac:(lia))
    as (w' & Hrun & Hg').
  rewrite Hrun. cbn [fst snd]. unfold currentIndexOf. rewrite Hg'.
  split; reflexivity.
Defined.

(* ===================================================================== *)
(** ** What an operation leaves alone *)
(* ===================================================================== *)

Section Respects.
Context (R : relation World) `{!PreOrder R}.

Lemma respects_ret {A} (a : A) : respects R (mret a).
Proof. intros w. reflexivity. Qed.

Lemma respects_throw {A} (e : Exn) : respects R (@throw A e).
Proof. intros w. reflexivity. Qed.

Lemma respects_bind {A B} (m : Async A) (f : A → Async B) :
  respects R m → (∀ a, respects R (f a)) → respects R (m ≫= f).
Proof.
  intros Hm Hf w. rewrite bind_run. specialize (Hm w).
  destruct (m w) as [[a|e] w1]; [| exact Hm].
  etransitivity; [exact Hm | apply Hf].
Qed.

Lemma respects_mapM {A B} (f : A → Async B) (l : list A) :
  (∀ a, respects R (f a)) → respects R (mapM f l).
Proof.
  intros Hf. induction l as [| a l IH]; [apply respects_ret |].
  simpl. apply respects_bind; [apply Hf |]. intros b.
  apply respects_bind; [exact IH |]. intros bs. apply respects_ret.
Qed.

Lemma respects_settle {A} (m : Async A) :
  respects R m → respects R (settle m).
Proof. intros Hm w. apply Hm. Qed.

Lemma respects_getGameState gameId attrs :
  respects R (getGameStateByGameId gameId attrs).
Proof. intros w. reflexivity. Qed.
End Respects.

#[export] Instance withinGame_preorder gameId : PreOrder (withinGame gameId).
Proof.
  split.
  - by intros w.
  - intros w1 w2 w3 (Ho12 & Hc12 & Hg12 & Hs12) (Ho23 & Hc23 & Hg23 & Hs23).
    split; [| by rewrite Hc23, Hg23, Hs23].
    intros other Hne. by rewrite Ho23, Ho12.
Qed.

Lemma sendsOf_app t1 t2 : sendsOf (t1 ++ t2) = sendsOf t1 ++ sendsOf t2.
Proof. apply omap_app. Qed.

Lemma withinGame_write gameId item w :
  withinGame gameId w (writeGameState gameId item w).
Proof.
  split; [| split; [done | split; [done |]]].
  - intros other Hne. by apply writeGameState_frame.
  - unfold writeGameState. simpl. by rewrite sendsOf_app, app_nil_r.
Qed.

Lemma withinGame_update gameId cond upd :
  respects (withinGame gameId) (DB.update GAME_STATE_TABLE gameId cond upd).
Proof.
  intros w. rewrite update_gameState_run.
  destruct (cond _); [| reflexivity].
  destruct (upd _); [apply withinGame_write | reflexivity].
Qed.

Lemma withinGame_drawn gameId w : withinGame gameId w (drawn w).
Proof. by split. Qed.

Lemma withinGame_delete gameId :
  respects (withinGame gameId) (DB_delete GAME_STATE_TABLE gameId).
Proof.
  intros w. split; [| done]. intros other Hne. simpl.
  by apply lookup_delete_ne.
Qed.

(** One step of a proof that a service function respects a relation. *)
Ltac respects_step :=
  first
    [ apply respects_ret; apply _
    | apply respects_throw; apply _
    | apply respects_getGameState; apply _
    | apply withinGame_update
    | apply withinGame_delete
    | apply respects_bind; [apply _ | | intros ?]
    | match goal with
      | |- respects _ (match ?x with _ => _ end) => destruct x
      | |- respects _ (if ?b then _ else _) => destruct b
      end ].

Lemma changeWind_withinGame `{Externals} gameId :
  respects (withinGame gameId) (changeWind gameId).
Proof. unfold changeWind. repeat respects_step. Qed.

Lemma changeDealer_withinGame `{Externals} gameId :
  respects (withinGame gameId) (changeDealer gameId).
Proof.
  unfold changeDealer. repeat respects_step.
Qed.

Lemma new_HongKongWall_withinGame `{Externals} gameId :
  respects (withinGame gameId) new_HongKongWall.
Proof. intros w. apply withinGame_drawn. Qed.

(** X2. Every operation of the game-state service on a game leaves the
    states of the other games, the connections and the games as they were,
    and sends no message, whatever its outcome. *)
Theorem gameState_operations_withinGame `{Externals} (gameId : string) :
  (∀ connectionIds,
     respects (withinGame gameId) (initGameState gameId connectionIds)) ∧
  respects (withinGame gameId) (incrementCurrentTileIndex gameId) ∧
  respects (withinGame gameId) (drawTile gameId) ∧
  respects (withinGame gameId) (changeWind gameId) ∧
  respects (withinGame gameId) (changeDealer gameId) ∧
  (∀ connectionId playedTiles meld skipInteraction,
     respects (withinGame gameId)
       (setPlayedTileInteraction gameId connectionId playedTiles meld
                                 skipInteraction)) ∧
  respects (withinGame gameId) (resetPlayedTileInteraction gameId) ∧
  (∀ connectionIds isDealerChanged,
     respects (withinGame gameId)
       (startNewGameRound gameId connectionIds isDealerChanged)) ∧
  respects (withinGame gameId) (deleteGameState gameId).
Proof.
  repeat apply conj.
  - intros connectionIds w. rewrite initGameState_run. cbn [snd].
    etransitivity; [apply (withinGame_drawn gameId) |].
    apply withinGame_write.
  - unfold incrementCurrentTileIndex. repeat respects_step.
  - unfold drawTile, incrementCurrentTileIndex. repeat respects_step.
  - apply changeWind_withinGame.
  - apply changeDealer_withinGame.
  - intros. unfold setPlayedTileInteraction. repeat respects_step.
  - unfold resetPlayedTileInteraction. repeat respects_step.
  - intros connectionIds isDealerChanged. unfold startNewGameRound.
    apply respects_bind; [apply _ | apply new_HongKongWall_withinGame |].
    intros newWall.
    destruct (generateHongKongMahjongHands newWall connectionIds).
    repeat respects_step.
  - unfold deleteGameState. repeat respects_step.
Qed.

(** A new round of the sample game with a change of dealer leaves the
    connections as they were and sends nothing. *)
Lemma gameState_operations_withinGame_witness :
  let w := Sample.world 144 3 1 in
  let w' :=
    (startNewGameRound (H := Sample.externals) "game-1"
       Sample.connectionIds true w).2 in
  connections w' = connections w ∧ sendsOf (trace w') = [].
Proof.
  intros w w'.
  destruct (gameState_operations_withinGame (H := Sample.externals)
              "game-1") as (_ & _ & _ & _ & _ & _ & _ & Hround & _).
  destruct (Hround Sample.connectionIds true w) as (_ & Hc & _ & Hs).
  split; [exact Hc | exact Hs].
Defined.

#[export] Instance gameKeeps_preorder same `{!PreOrder same} gameId :
  PreOrder (gameKeeps same gameId).
Proof.
  split.
  - intros w. unfold gameKeeps.
    destruct (gameStates w !! gameId) as [g|] eqn:Hg; [| done].
    by exists g.
  - intros w1 w2 w3 H12 H23. unfold gameKeeps in *.
    destruct (gameStates w1 !! gameId) as [g1|]; [| done].
    destruct H12 as (g2 & Hg2 & H12). rewrite Hg2 in H23.
    destruct H23 as (g3 & Hg3 & H23).
    exists g3. split; [done |]. by etransitivity.
Qed.

(** Opens the attribute setters of a game state. *)
Ltac open_setters :=
  unfold GameState.set_currentIndex, GameState.set_dealer,
    GameState.set_currentWind, GameState.set_wall, GameState.set_hands,
    GameState.set_interactionCount, GameState.set_playedTileInteractions
    in *.

#[export] Instance sameButIndex_preorder : PreOrder sameButIndex.
Proof.
  split.
  - by intros [].
  - intros [] [] []. unfold sameButIndex. open_setters. simpl. congruence.
Qed.

#[export] Instance sameButDealerWind_preorder : PreOrder sameButDealerWind.
Proof.
  split.
  - by intros [].
  - intros [] [] []. unfold sameButDealerWind. open_setters. simpl. congruence.
Qed.

#[export] Instance sameButInteractions_preorder :
  PreOrder sameButInteractions.
Proof.
  split.
  - by intros [].
  - intros [] [] []. unfold sameButInteractions. open_setters. simpl. congruence.
Qed.

#[export] Instance sameTurn_preorder : PreOrder sameTurn.
Proof.
  split.
  - by intros g.
  - intros g1 g2 g3. unfold sameTurn. congruence.
Qed.

Lemma gameKeeps_update same `{!PreOrder same} gameId cond upd :
  (∀ item new, upd item = Some new → same item new) →
  respects (gameKeeps same gameId)
    (DB.update GAME_STATE_TABLE gameId cond upd).
Proof.
  intros Hupd w. rewrite update_gameState_run. unfold gameKeeps.
  destruct (gameStates w !! gameId) as [g|] eqn:Hg; [| done].
  destruct (cond _); [| by exists g]. simpl.
  destruct (upd g) as [new|] eqn:Hnew; [| by exists g].
  exists new. split; [apply writeGameState_frame | by apply Hupd].
Qed.

Lemma gameKeeps_drawn same `{!PreOrder same} gameId w :
  gameKeeps same gameId w (drawn w).
Proof.
  unfold gameKeeps. simpl.
  destruct (gameStates w !! gameId) as [g|] eqn:Hg; [| done].
  by exists g.
Qed.

(** The update expression of a service function changes as [same]
    allows. *)
Ltac solve_same :=
  let item := fresh "item" in
  let new := fresh "new" in
  let Hupd := fresh "Hupd" in
  intros item new Hupd; unfold list_append in Hupd; destruct item;
  open_setters; simpl in *; repeat (case_match; simpl in * );
  simplify_eq; reflexivity.

Ltac keeps_step :=
  first
    [ apply respects_ret; apply _
    | apply respects_throw; apply _
    | apply respects_getGameState; apply _
    | apply gameKeeps_update; [apply _ | solve_same]
    | apply respects_bind; [apply _ | | intros ?]
    | match goal with
      | |- respects _ (match ?x with _ => _ end) => destruct x
      | |- respects _ (if ?b then _ else _) => destruct b
      end ].

(** X3. Each update of the game-state service changes only its own
    attributes of a stored game, whatever its outcome: the tile index for
    [incrementCurrentTileIndex] and [drawTile], dealer and wind for
    [changeWind] and [changeDealer], the two interaction attributes for
    [setPlayedTileInteraction] and [resetPlayedTileInteraction]; and
    [startNewGameRound] keeps the turn. None of them removes the game. *)
Theorem gameState_updates_frame `{Externals} (gameId : string) :
  respects (gameKeeps sameButIndex gameId)
    (incrementCurrentTileIndex gameId) ∧
  respects (gameKeeps sameButIndex gameId) (drawTile gameId) ∧
  respects (gameKeeps sameButDealerWind gameId) (changeWind gameId) ∧
  respects (gameKeeps sameButDealerWind gameId) (changeDealer gameId) ∧
  (∀ connectionId playedTiles meld skipInteraction,
     respects (gameKeeps sameButInteractions gameId)
       (setPlayedTileInteraction gameId connectionId playedTiles meld
                                 skipInteraction)) ∧
  respects (gameKeeps sameButInteractions gameId)
    (resetPlayedTileInteraction gameId) ∧
  (∀ connectionIds isDealerChanged,
     respects (gameKeeps sameTurn gameId)
       (startNewGameRound gameId connectionIds isDealerChanged)).
Proof.
  repeat apply conj.
  - unfold incrementCurrentTileIndex. repeat keeps_step.
  - unfold drawTile, incrementCurrentTileIndex. repeat keeps_step.
  - unfold changeWind. repeat keeps_step.
  - unfold changeDealer, changeWind. repeat keeps_step.
  - intros. unfold setPlayedTileInteraction. repeat keeps_step.
  - unfold resetPlayedTileInteraction. repeat keeps_step.
  - intros connectionIds isDealerChanged. unfold startNewGameRound.
    apply respects_bind; [apply _ | |].
    { intros w. apply gameKeeps_drawn. apply _. }
    intros newWall.
    destruct (generateHongKongMahjongHands newWall connectionIds).
    unfold changeDealer, changeWind. repeat keeps_step.
Qed.

(** A draw in the sample game changes the tile index of the game and
    nothing else of it. *)
Lemma gameState_updates_frame_witness :
  ∃ g', gameStates (drawTile "game-1" (Sample.world 60 0 0)).2 !! "game-1"
        = Some g' ∧
        sameButIndex (Sample.state 60 0 0) g'.
Proof.
  destruct (gameState_updates_frame (H := Sample.externals) "game-1")
    as (_ & Hdraw & _).
  exact (Hdraw (Sample.world 60 0 0)).
Defined.

(* ===================================================================== *)
(** ** A game that is not stored *)
(* ===================================================================== *)

Lemma getGameStateByGameId_missing gameId attrs w :
  gameStates w !! gameId = None →
  getGameStateByGameId gameId attrs w = (Returned None, w).
Proof. intros Hnone. by rewrite getGameStateByGameId_run, Hnone. Qed.

Lemma drawTile_missing gameId w :
  gameStates w !! gameId = None → drawTile gameId w = (Threw TypeError, w).
Proof.
  intros Hnone. unfold drawTile.
  by rewrite bind_run, getGameStateByGameId_missing.
Qed.

Lemma conditional_updates_missing `{Externals} gameId w :
  gameStates w !! gameId = None →
  (∀ connectionId playedTiles meld skipInteraction,
     setPlayedTileInteraction gameId connectionId playedTiles meld
                              skipInteraction w
     = (Threw ConditionalCheckFailedException, w)) ∧
  resetPlayedTileInteraction gameId w
  = (Threw ConditionalCheckFailedException, w) ∧
  (∀ connectionIds isDealerChanged,
     startNewGameRound gameId connectionIds isDealerChanged w
     = (Threw ConditionalCheckFailedException, drawn w)).
Proof.
  intros Hnone. split; [| split].
  - intros. by rewrite setPlayedTileInteraction_run, Hnone.
  - by rewrite resetPlayedTileInteraction_run, Hnone.
  - intros. by rewrite startNewGameRound_run, Hnone.
Qed.

Lemma deleteGameState_run gameId w :
  deleteGameState gameId w
  = (Returned (gameStates w !! gameId),
     set_gameStates (delete gameId (gameStates w)) w).
Proof. reflexivity. Qed.

(** X4. On a game that is not stored: the reads of single attributes
    return [undefined]; [getCurrentWallByGameId] and [drawTile] fail with a
    type error; [changeWind] and [changeDealer] fail with their
    not-found error; [setPlayedTileInteraction],
    [resetPlayedTileInteraction] and [startNewGameRound] are rejected by
    their condition; [deleteGameState] returns [undefined]. None of these
    creates the game. [incrementCurrentTileIndex], which has no condition,
    creates it: an item whose only attribute is [currentIndex], at 1. *)
Theorem missing_game `{Externals} (gameId : string) (w : World) :
  gameStates w !! gameId = None →
  getCurrentTileIndex gameId w = (Returned None, w) ∧
  getCurrentDealer gameId w = (Returned None, w) ∧
  getCurrentWind gameId w = (Returned None, w) ∧
  getInteractionCount gameId w = (Returned None, w) ∧
  getCurrentPlayedTile gameId w = (Returned None, w) ∧
  getCurrentWallByGameId gameId w = (Threw TypeError, w) ∧
  drawTile gameId w = (Threw TypeError, w) ∧
  changeWind gameId w
  = (Threw (Error "changeWind: game state not found"), w) ∧
  changeDealer gameId w
  = (Threw (Error "changeDealer: game state not found"), w) ∧
  (∀ connectionId playedTiles meld skipInteraction,
     setPlayedTileInteraction gameId connectionId playedTiles meld
                              skipInteraction w
     = (Threw ConditionalCheckFailedException, w)) ∧
  resetPlayedTileInteraction gameId w
  = (Threw ConditionalCheckFailedException, w) ∧
  (∀ connectionIds isDealerChanged,
     startNewGameRound gameId connectionIds isDealerChanged w
     = (Threw ConditionalCheckFailedException, drawn w)) ∧
  ((deleteGameState gameId w).1 = Returned None ∧
   gameStates (deleteGameState gameId w).2 = gameStates w) ∧
  incrementCurrentTileIndex gameId w
  = (Returned (Some (GameState.set_currentIndex (Some 1) GameState.blank)),
     writeGameState gameId
       (GameState.set_currentIndex (Some 1) GameState.blank) w).
Proof.
  intros Hnone.
  destruct (conditional_updates_missing gameId w Hnone)
    as (Hset & Hreset & Hround).
  repeat apply conj; try done.
  - unfold getCurrentTileIndex.
    by rewrite bind_run, getGameStateByGameId_missing.
  - unfold getCurrentDealer.
    by rewrite bind_run, getGameStateByGameId_missing.
  - unfold getCurrentWind.
    by rewrite bind_run, getGameStateByGameId_missing.
  - unfold getInteractionCount.
    by rewrite bind_run, getGameStateByGameId_missing.
  - unfold getCurrentPlayedTile.
    by rewrite bind_run, getGameStateByGameId_missing.
  - unfold getCurrentWallByGameId.
    by rewrite bind_run, getGameStateByGameId_missing.
  - by apply drawTile_missing.
  - by rewrite changeWind_run, Hnone.
  - by rewrite changeDealer_run, Hnone.
  - by rewrite deleteGameState_run, Hnone.
  - rewrite deleteGameState_run. simpl. by apply delete_id.
  - unfold incrementCurrentTileIndex.
    by rewrite bind_run, update_gameState_run, Hnone.
Qed.

(** In the sample world game-9 is not stored: a draw fails, a reset is
    rejected, and an increment of the tile index leaves a game-9 that has
    an index and no wall. *)
Lemma missing_game_witness :
  let w := Sample.world 60 0 0 in
  drawTile "game-9" w = (Threw TypeError, w) ∧
  resetPlayedTileInteraction "game-9" w
  = (Threw ConditionalCheckFailedException, w) ∧
  (gameStates (incrementCurrentTileIndex "game-9" w).2 !! "game-9"
   ≫= GameState.currentIndex) = Some 1 ∧
  (gameStates (incrementCurrentTileIndex "game-9" w).2 !! "game-9"
   ≫= GameState.wall) = None.
Proof.
  intros w.
  destruct (missing_game (H := Sample.externals) "game-9" w eq_refl)
    as (_ & _ & _ & _ & _ & _ & Hdraw & _ & _ & _ & Hreset & _ & _ & Hincr).
  rewrite Hdraw, Hreset, Hincr. repeat split.
Defined.

(* ===================================================================== *)
(** ** Deleting a game state *)
(* ===================================================================== *)

(** X5. [deleteGameState] returns the stored state of the game and removes
    it; it is the inverse of [initGameState] on a game that was not stored:
    deleting right after initialising returns the initial game and brings
    the table of game states back to what it was. Once a game is deleted,
    a draw fails and the conditional updates are rejected, so none of them
    brings it back. *)
Theorem deleteGameState_spec `{Externals} (gameId : string) (w : World) :
  (∀ g, gameStates w !! gameId = Some g →
        (deleteGameState gameId w).1 = Returned (Some g)) ∧
  gameStates (deleteGameState gameId w).2 !! gameId = None ∧
  (∀ connectionIds,
     gameStates w !! gameId = None →
     let w1 := (initGameState gameId connectionIds w).2 in
     (deleteGameState gameId w1).1
     = Returned (Some (initialGame (entropy w) connectionIds)) ∧
     gameStates (deleteGameState gameId w1).2 = gameStates w) ∧
  (let w' := (deleteGameState gameId w).2 in
   drawTile gameId w' = (Threw TypeError, w') ∧
   resetPlayedTileInteraction gameId w'
   = (Threw ConditionalCheckFailedException, w') ∧
   (∀ connectionId playedTiles meld skipInteraction,
      setPlayedTileInteraction gameId connectionId playedTiles meld
                               skipInteraction w'
      = (Threw ConditionalCheckFailedException, w')) ∧
   (∀ connectionIds isDealerChanged,
      gameStates
        (startNewGameRound gameId connectionIds isDealerChanged w').2
        !! gameId = None)).
Proof.
  assert (gameStates (deleteGameState gameId w).2 !! gameId = None) as Hgone.
  { rewrite deleteGameState_run. simpl. apply lookup_delete_eq. }
  split; [| split; [exact Hgone | split]].
  - intros g Hg. by rewrite deleteGameState_run, Hg.
  - intros connectionIds Hnone w1. unfold w1.
    rewrite initGameState_run, deleteGameState_run. cbn [fst snd].
    split.
    + f_equal. apply writeGameState_frame.
    + simpl. rewrite delete_insert_eq. by apply delete_id.
  - intros w'.
    destruct (conditional_updates_missing gameId w' Hgone)
      as (Hset & Hreset & Hround).
    split; [by apply drawTile_missing |].
    split; [exact Hreset |]. split; [exact Hset |].
    intros. by rewrite Hround.
Qed.

(** The sample game is deleted: the call returns its state, and the draw
    that follows fails. *)
Lemma deleteGameState_spec_witness :
  let w := Sample.world 60 0 0 in
  (deleteGameState "game-1" w).1 = Returned (Some (Sample.state 60 0 0)) ∧
  (drawTile "game-1" (deleteGameState "game-1" w).2).1 = Threw TypeError ∧
  gameStates
    (deleteGameState "game-2"
       (initGameState (H := Sample.externals) "game-2"
          Sample.connectionIds w).2).2
  = gameStates w.
Proof.
  intros w.
  destruct (deleteGameState_spec (H := Sample.externals) "game-1" w)
    as (Hstored & _ & _ & Hdraw & _).
  destruct (deleteGameState_spec (H := Sample.externals) "game-2" w)
    as (_ & _ & Hinit & _).
  rewrite (Hstored _ eq_refl), Hdraw.
  split; [reflexivity |]. split; [reflexivity |].
  by destruct (Hinit Sample.connectionIds eq_refl) as [_ ->].
Defined.

(* ===================================================================== *)
(** ** The dealer goes round the table *)
(* ===================================================================== *)

Lemma set_dealer_wind_again g d1 x1 d2 x2 :
  GameState.set_dealer d2
    (GameState.set_currentWind x2
       (GameState.set_dealer d1 (GameState.set_currentWind x1 g)))
  = GameState.set_dealer d2 (GameState.set_currentWind x2 g).
Proof. by destruct g. Qed.

Lemma set_currentWind_same g v :
  GameState.currentWind g = v → GameState.set_currentWind v g = g.
Proof. destruct g. simpl. by intros ->. Qed.

(** One change of dealer with a bound of four players or more. *)
Lemma changeDealer_step `{Externals} gameId w g d x :
  4 ≤ DEFAULT_MAX_USERS_IN_GAME →
  gameStates w !! gameId = Some g →
  GameState.dealer g = Some d → GameState.currentWind g = Some x →
  0 ≤ d < 4 → 0 ≤ x < 4 →
  let g' := GameState.set_dealer (Some ((d + 1) mod 4))
              (GameState.set_currentWind
                 (Some ((x + (d + 1) / 4) mod 4)) g) in
  ∃ w', changeDealer gameId w = (Returned (Some g'), w') ∧
        gameStates w' !! gameId = Some g'.
Proof.
  intros Hmax Hg Hd Hx Hdr Hxr g'. subst g'.
  rewrite changeDealer_run, Hg, Hd. cbv zeta.
  rewrite rem_succ_mod by lia.
  assert (d = 3 ∨ d < 3) as [-> | Hlt] by lia.
  - change ((3 + 1) mod 4) with 0. change ((3 + 1) / 4) with 1.
    change (0 =? 0) with true. cbv iota.
    rewrite changeWind_run, Hg, Hx, rem_succ_mod by lia.
    assert (((x + 1) mod 4 <? DEFAULT_MAX_USERS_IN_GAME) = true) as ->.
    { apply Z.ltb_lt. pose proof (Z.mod_pos_bound (x + 1) 4). lia. }
    cbv zeta. cbv iota beta.
    rewrite (writeNextDealer_stored gameId 0 _ _
               (proj1 (writeGameState_frame _ _ _))).
    assert ((0 <? DEFAULT_MAX_USERS_IN_GAME) = true) as ->
      by (apply Z.ltb_lt; lia).
    eexists. split; [reflexivity |]. apply writeGameState_frame.
  - assert ((d + 1) mod 4 = d + 1) as -> by (apply Z.mod_small; lia).
    assert ((d + 1) / 4 = 0) as -> by (apply Z.div_small; lia).
    rewrite Z.add_0_r, (Z.mod_small x 4) by lia.
    rewrite (set_currentWind_same g (Some x) Hx).
    assert ((d + 1 =? 0) = false) as -> by (apply Z.eqb_neq; lia).
    rewrite (writeNextDealer_stored gameId (d + 1) w g Hg).
    assert ((d + 1 <? DEFAULT_MAX_USERS_IN_GAME) = true) as ->
      by (apply Z.ltb_lt; lia).
    eexists. split; [reflexivity |]. apply writeGameState_frame.
Qed.

Lemma rotation_arith (d x n : Z) :
  0 ≤ d < 4 → 0 ≤ x → 0 ≤ n →
  ((d + 1) mod 4 + n) mod 4 = (d + (n + 1)) mod 4 ∧
  ((x + (d + 1) / 4) mod 4 + ((d + 1) mod 4 + n) / 4) mod 4
  = (x + (d + (n + 1)) / 4) mod 4.
Proof.
  intros Hd Hx Hn.
  pose proof (Z.div_mod (d + 1) 4 ltac:(lia)) as Hdm.
  pose proof (Z.mod_pos_bound (d + 1) 4 ltac:(lia)) as Hr.
  set (q := (d + 1) / 4) in *. set (r := (d + 1) mod 4) in *.
  replace (d + (n + 1)) with (r + n + q * 4) by lia.
  rewrite Z.mod_add, Z.div_add by lia. split; [reflexivity |].
  rewrite Z.add_mod_idemp_l by lia. f_equal. lia.
Qed.

(** X6. With a bound of at least four players, on a game whose dealer [d]
    and wind [x] are both in 0..3, [n] calls of [changeDealer] all succeed
    and leave the game as it was but for dealer [(d + n) mod 4] and wind
    [(x + (d + n) / 4) mod 4]: the wind advances once each time the dealer
    comes back to seat 0, so four calls bring the same dealer back with the
    next wind, and sixteen calls bring back both. *)
Theorem changeDealers_rotation `{Externals} (gameId : string) (n : nat)
    (w : World) (g : GameState.t) (d x : Z) :
  4 ≤ DEFAULT_MAX_USERS_IN_GAME →
  gameStates w !! gameId = Some g →
  GameState.dealer g = Some d → GameState.currentWind g = Some x →
  0 ≤ d < 4 → 0 ≤ x < 4 →
  ∃ results w',
    changeDealers gameId n w = (Returned results, w') ∧
    length results = n ∧
    gameStates w' !! gameId
    = Some (GameState.set_dealer (Some ((d + Z.of_nat n) mod 4))
              (GameState.set_currentWind
                 (Some ((x + (d + Z.of_nat n) / 4) mod 4)) g)).
Proof.
  intros Hmax. revert w g d x.
  induction n as [| n IH]; intros w g d x Hg Hd Hx Hdr Hxr.
  - exists [], w. split; [reflexivity |]. split; [reflexivity |].
    rewrite Hg. f_equal. change (Z.of_nat 0) with 0.
    rewrite !Z.add_0_r, Z.div_small, Z.add_0_r, !Z.mod_small by lia.
    rewrite (set_currentWind_same g (Some x) Hx).
    destruct g. simpl in *. by subst.
  - destruct (changeDealer_step gameId w g d x Hmax Hg Hd Hx Hdr Hxr)
      as (w1 & Hrun1 & Hg1).
    set (g1 := GameState.set_dealer (Some ((d + 1) mod 4))
                 (GameState.set_currentWind
                    (Some ((x + (d + 1) / 4) mod 4)) g)) in *.
    destruct (IH w1 g1 ((d + 1) mod 4) ((x + (d + 1) / 4) mod 4))
      as (results & w' & Hrun & Hlen & Hg');
      [ exact Hg1 | by destruct g | by destruct g
      | apply Z.mod_pos_bound; lia | apply Z.mod_pos_bound; lia |].
    exists (Some g1 :: results), w'.
    unfold changeDealers in *. simpl mapM.
    rewrite bind_run, Hrun1, bind_run, Hrun.
    split; [reflexivity |]. split; [simpl; by rewrite Hlen |].
    rewrite Hg'. subst g1. rewrite set_dealer_wind_again.
    destruct (rotation_arith d x (Z.of_nat n)) as [-> ->]; try lia.
    by rewrite Nat2Z.inj_succ, <- Z.add_1_r.
Qed.

(** The sample game with dealer 2 and wind 3: four changes of dealer bring
    dealer 2 back under wind 0. *)
Lemma changeDealers_rotation_witness :
  ∃ results w',
    changeDealers (H := Sample.externals) "game-1" 4 (Sample.world 60 2 3)
    = (Returned results, w') ∧
    length results = 4%nat ∧
    gameStates w' !! "game-1" = Some (Sample.state 60 2 0).
Proof.
  destruct (changeDealers_rotation (H := Sample.externals) "game-1" 4
              (Sample.world 60 2 3) (Sample.state 60 2 3) 2 3)
    as (results & w' & Hrun & Hlen & Hg');
    [by vm_compute | reflexivity | reflexivity | reflexivity | lia | lia |].
  exists results, w'. split; [exact Hrun |]. split; [exact Hlen |].
  rewrite Hg'. reflexivity.
Defined.

(* ===================================================================== *)
(** ** Collecting the responses to a played tile *)
(* ===================================================================== *)

Lemma collected_again l1 l2 g :
  collected l2 (collected l1 g) = collected l2 g.
Proof. by destruct g. Qed.

Lemma collected_same l g :
  GameState.interactionCount g = Some (Z.of_nat (length l)) →
  GameState.playedTileInteractions g = Some l →
  collected l g = g.
Proof. destruct g. unfold collected. simpl. by intros -> ->. Qed.

(** One settled call on a game that counts its interactions rightly. *)
Lemma setPlayedTileInteraction_collected `{Externals} gameId c w g l :
  gameStates w !! gameId = Some g →
  GameState.interactionCount g = Some (Z.of_nat (length l)) →
  GameState.playedTileInteractions g = Some l →
  setPlayedTileInteraction gameId (by_connectionId c) (with_playedTiles c)
    (with_meld c) (with_skipInteraction c) w
  = if Z.of_nat (length l) <? DEFAULT_MAX_USERS_IN_GAME then
      (Returned (Some (collected (l ++ [playedTileOf c]) g)),
       writeGameState gameId (collected (l ++ [playedTileOf c]) g) w)
    else (Threw ConditionalCheckFailedException, w).
Proof.
  intros Hg Hcount Hlist.
  rewrite setPlayedTileInteraction_run, Hg, Hcount, Hlist. simpl attr_lt.
  destruct (_ <? _); [| reflexivity].
  cbv zeta. unfold collected, ADD. simpl default.
  by rewrite length_app, Nat2Z.inj_add.
Qed.

(** X7. On a stored game that counts its interactions rightly, a series of
    calls of [setPlayedTileInteraction], each run to its end, fills the
    room that is left under the player bound and no more: with [room] the
    bound minus the count, the first [room] calls go through, every later
    one is rejected as a failed condition, and the game ends with the
    records of the first [room] calls appended in call order and with
    their number added to the count. *)
Theorem setPlayedTileInteraction_room `{Externals} (gameId : string)
    (calls : list Interaction) (w : World) (g : GameState.t)
    (l : list PlayedTile.t) :
  gameStates w !! gameId = Some g →
  GameState.interactionCount g = Some (Z.of_nat (length l)) →
  GameState.playedTileInteractions g = Some l →
  let room := Z.to_nat (DEFAULT_MAX_USERS_IN_GAME - Z.of_nat (length l)) in
  ∃ outcomes w',
    settleInteractions gameId calls w = (Returned outcomes, w') ∧
    length outcomes = length calls ∧
    Forall went_through (take room outcomes) ∧
    drop room outcomes
    = replicate (length calls - room)
                (Threw ConditionalCheckFailedException) ∧
    gameStates w' !! gameId
    = Some (collected (l ++ map playedTileOf (take room calls)) g).
Proof.
  revert w g l.
  induction calls as [| c calls IH]; intros w g l Hg Hcount Hlist room.
  - exists [], w. split; [reflexivity |]. split; [reflexivity |].
    rewrite take_nil, drop_nil. split; [constructor |].
    split; [reflexivity |].
    rewrite Hg, take_nil, app_nil_r. f_equal.
    symmetry. by apply collected_same.
  - unfold settleInteractions. simpl mapM. rewrite bind_run. unfold settle at 1.
    rewrite (setPlayedTileInteraction_collected gameId c w g l Hg Hcount
               Hlist).
    destruct (Z.ltb_spec (Z.of_nat (length l)) DEFAULT_MAX_USERS_IN_GAME)
      as [Hlt | Hge]; cbn [fst snd].
    + set (g1 := collected (l ++ [playedTileOf c]) g).
      destruct (IH (writeGameState gameId g1 w) g1 (l ++ [playedTileOf c]))
        as (outcomes & w' & Hrun & Hlen & Hthrough & Hrejected & Hg');
        [apply writeGameState_frame | reflexivity | reflexivity |].
      assert (room = S (Z.to_nat (DEFAULT_MAX_USERS_IN_GAME
                          - Z.of_nat (length (l ++ [playedTileOf c])))))
        as Hroom by (subst room; rewrite length_app; simpl; lia).
      rewrite Hroom.
      unfold settleInteractions in Hrun. rewrite bind_run, Hrun.
      eexists _, w'. split; [reflexivity |].
      split; [simpl; by rewrite Hlen |].
      split; [simpl; by constructor |].
      split; [exact Hrejected |].
      rewrite Hg'. subst g1. rewrite collected_again.
      by rewrite <- app_assoc.
    + destruct (IH w g l Hg Hcount Hlist)
        as (outcomes & w' & Hrun & Hlen & Hthrough & Hrejected & Hg').
      subst room.
      assert (Z.to_nat (DEFAULT_MAX_USERS_IN_GAME - Z.of_nat (length l))
              = 0%nat) as Hroom by lia.
      rewrite Hroom in *.
      unfold settleInteractions in Hrun. rewrite bind_run, Hrun.
      eexists _, w'. split; [reflexivity |].
      split; [simpl; by rewrite Hlen |].
      split; [constructor |].
      rewrite drop_0, take_0, Nat.sub_0_r in *.
      split; [| exact Hg']. simpl. by rewrite Hrejected.
Qed.

(** Five players answer in the sample game, where four may: the fifth is
    rejected and the count stops at four. *)
Lemma setPlayedTileInteraction_room_witness :
  ∃ outcomes w',
    settleInteractions (H := Sample.externals) "game-1"
      (map Sample.skip ["c1"; "c2"; "c3"; "c4"; "c1"]) (Sample.world 60 0 0)
    = (Returned outcomes, w') ∧
    drop 4 outcomes = [Threw ConditionalCheckFailedException] ∧
    (gameStates w' !! "game-1" ≫= GameState.interactionCount) = Some 4.
Proof.
  destruct (setPlayedTileInteraction_room (H := Sample.externals) "game-1"
              (map Sample.skip ["c1"; "c2"; "c3"; "c4"; "c1"])
              (Sample.world 60 0 0) (Sample.state 60 0 0) []
              eq_refl eq_refl eq_refl)
    as (outcomes & w' & Hrun & _ & _ & Hrejected & Hg').
  exists outcomes, w'. split; [exact Hrun |]. split; [exact Hrejected |].
  rewrite Hg'. reflexivity.
Defined.

Lemma setPlayedTileInteraction_keeps `{Externals} gameId connectionId
    playedTiles meld skipInteraction :
  respects (gameKeeps sameButInteractions gameId)
    (setPlayedTileInteraction gameId connectionId playedTiles meld
                              skipInteraction).
Proof. unfold setPlayedTileInteraction. repeat keeps_step. Qed.

(** X8. [resetPlayedTileInteraction] undoes any series of calls of
    [setPlayedTileInteraction], whatever their outcomes: after them it
    returns and stores the state the game had before the series with the
    count at 0 and the list empty, every other attribute as it was; when
    the game was in that reset state before the series, it is exactly in
    its old state again. *)
Theorem resetPlayedTileInteraction_undoes `{Externals} (gameId : string)
    (calls : list Interaction) (w : World) (g : GameState.t) :
  gameStates w !! gameId = Some g →
  ∃ w',
    resetPlayedTileInteraction gameId (settleInteractions gameId calls w).2
    = (Returned (Some (collected [] g)), w') ∧
    gameStates w' !! gameId = Some (collected [] g) ∧
    (interactionsReset g → collected [] g = g).
Proof.
  intros Hg.
  assert (respects (gameKeeps sameButInteractions gameId)
            (settleInteractions gameId calls)) as Hkeeps.
  { apply respects_mapM; [apply _ |]. intros c.
    apply respects_settle, setPlayedTileInteraction_keeps. }
  specialize (Hkeeps w). unfold gameKeeps in Hkeeps. rewrite Hg in Hkeeps.
  destruct Hkeeps as (g1 & Hg1 & Hsame).
  rewrite resetPlayedTileInteraction_run, Hg1. cbv zeta.
  assert (GameState.set_playedTileInteractions (Some [])
            (GameState.set_interactionCount (Some 0) g1) = collected [] g)
    as ->.
  { rewrite Hsame. by destruct g. }
  eexists. split; [reflexivity |].
  split; [apply writeGameState_frame |].
  intros [Hcount Hlist]. by apply collected_same.
Qed.

(** Two players answer in the sample game and the interactions are reset:
    the game is as it was before they answered. *)
Lemma resetPlayedTileInteraction_undoes_witness :
  ∃ w',
    resetPlayedTileInteraction "game-1"
      (settleInteractions (H := Sample.externals) "game-1"
         [Sample.skip "c2"; Sample.skip "c3"] (Sample.world 60 0 0)).2
    = (Returned (Some (Sample.state 60 0 0)), w') ∧
    gameStates w' !! "game-1" = Some (Sample.state 60 0 0).
Proof.
  destruct (resetPlayedTileInteraction_undoes (H := Sample.externals)
              "game-1" [Sample.skip "c2"; Sample.skip "c3"]
              (Sample.world 60 0 0) (Sample.state 60 0 0) eq_refl)
    as (w' & Hrun & Hg' & _).
  exists w'. split; [exact Hrun | exact Hg'].
Defined.

(* ===================================================================== *)
(** ** A connection and its game *)
(* ===================================================================== *)

Lemma setGameIdForUser_run connectionId gameId w :
  setGameIdForUser connectionId gameId w =
  match connections w !! connectionId with
  | Some item =>
      match UserItem.gameId item with
      | None =>
          let item' := UserItem.mk (UserItem.username item) (Some gameId) in
          (Returned (Some (User.of_item connectionId item')),
           writeConnection connectionId item' w)
      | Some _ => (Threw ConditionalCheckFailedException, w)
      end
  | None => (Threw ConditionalCheckFailedException, w)
  end.
Proof.
  unfold setGameIdForUser. rewrite bind_run, update_connection_run.
  destruct (connections w !! connectionId) as [[name [other|]]|]; simpl;
    rewrite ?String.eqb_refl; reflexivity.
Qed.

Lemma removeGameIdFromUser_run connectionId w :
  removeGameIdFromUser connectionId w =
  match connections w !! connectionId with
  | Some item =>
      match UserItem.gameId item with
      | Some _ =>
          let item' := UserItem.mk (UserItem.username item) None in
          (Returned (Some (User.of_item connectionId item')),
           writeConnection connectionId item' w)
      | None => (Threw ConditionalCheckFailedException, w)
      end
  | None => (Threw ConditionalCheckFailedException, w)
  end.
Proof.
  unfold removeGameIdFromUser. rewrite bind_run, update_connection_run.
  destruct (connections w !! connectionId) as [[name [other|]]|]; simpl;
    rewrite ?String.eqb_refl; reflexivity.
Qed.

Lemma writeConnection_lookup connectionId item w :
  connections (writeConnection connectionId item w) !! connectionId
  = Some item.
Proof. unfold writeConnection. simpl. apply lookup_insert_eq. Qed.

(** X9. A connection is in one game at most. On a stored connection that
    is in no game, [setGameIdForUser] writes the game id and keeps the
    username, [removeGameIdFromUser] is rejected, and removing after
    setting returns the old record and brings the table of connections
    back to what it was. On a stored connection that is in a game,
    [setGameIdForUser] is rejected, whatever the game, and
    [removeGameIdFromUser] removes the game id and keeps the username. On
    a connection that is not stored both are rejected. A rejected call
    leaves the world as it was. *)
Theorem gameId_of_connection (connectionId gameId : string) (w : World) :
  (∀ item,
     connections w !! connectionId = Some item →
     UserItem.gameId item = None →
     let attached := UserItem.mk (UserItem.username item) (Some gameId) in
     setGameIdForUser connectionId gameId w
     = (Returned (Some (User.mk connectionId (UserItem.username item)
                                (Some gameId))),
        writeConnection connectionId attached w) ∧
     removeGameIdFromUser connectionId w
     = (Threw ConditionalCheckFailedException, w) ∧
     (removeGameIdFromUser connectionId
        (writeConnection connectionId attached w)).1
     = Returned (Some (User.of_item connectionId item)) ∧
     connections (removeGameIdFromUser connectionId
                    (writeConnection connectionId attached w)).2
     = connections w) ∧
  (∀ item other,
     connections w !! connectionId = Some item →
     UserItem.gameId item = Some other →
     setGameIdForUser connectionId gameId w
     = (Threw ConditionalCheckFailedException, w) ∧
     removeGameIdFromUser connectionId w
     = (Returned (Some (User.mk connectionId (UserItem.username item) None)),
        writeConnection connectionId
          (UserItem.mk (UserItem.username item) None) w)) ∧
  (connections w !! connectionId = None →
     setGameIdForUser connectionId gameId w
     = (Threw ConditionalCheckFailedException, w) ∧
     removeGameIdFromUser connectionId w
     = (Threw ConditionalCheckFailedException, w)).
Proof.
  split; [| split].
  - intros [name other] Hitem Hnone attached. simpl in Hnone. subst other.
    rewrite setGameIdForUser_run, !removeGameIdFromUser_run, Hitem.
    rewrite writeConnection_lookup. simpl.
    repeat split. rewrite insert_insert_eq. by apply insert_id.
  - intros [name there] other Hitem Hsome. simpl in Hsome. subst there.
    by rewrite setGameIdForUser_run, removeGameIdFromUser_run, Hitem.
  - intros Hnone.
    by rewrite setGameIdForUser_run, removeGameIdFromUser_run, Hnone.
Qed.

(** Player c1 of the sample game cannot be put in game-2; the newcomer c5
    can, and cannot be taken out of a game before. *)
Lemma gameId_of_connection_witness :
  setGameIdForUser "c1" "game-2" (Sample.world 60 0 0)
  = (Threw ConditionalCheckFailedException, Sample.world 60 0 0) ∧
  (setGameIdForUser "c5" "game-2" SampleLobby.newcomer).1
  = Returned (Some (User.mk "c5" (Some "eve") (Some "game-2"))) ∧
  removeGameIdFromUser "c5" SampleLobby.newcomer
  = (Threw ConditionalCheckFailedException, SampleLobby.newcomer).
Proof.
  destruct (gameId_of_connection "c1" "game-2" (Sample.world 60 0 0))
    as (_ & Hin & _).
  destruct (gameId_of_connection "c5" "game-2" SampleLobby.newcomer)
    as (Hout & _ & _).
  destruct (Hin (UserItem.mk (Some "c1") (Some "game-1")) "game-1"
              eq_refl eq_refl) as [Hset _].
  destruct (Hout (UserItem.mk (Some "eve") None) eq_refl eq_refl)
    as (Hset5 & Hremove5 & _).
  rewrite Hset, Hset5, Hremove5. repeat split.
Defined.

(* ===================================================================== *)
(** ** Connecting and disconnecting *)
(* ===================================================================== *)

Lemma saveConnection_run connectionId w :
  saveConnection connectionId w
  = (Returned (User.mk connectionId None None),
     writeConnection connectionId UserItem.blank w).
Proof. reflexivity. Qed.

Lemma deleteConnection_run connectionId w :
  deleteConnection connectionId w
  = (Returned (User.of_item connectionId <$> connections w !! connectionId),
     set_connections (delete connectionId (connections w)) w).
Proof. reflexivity. Qed.

(** X10. [saveConnection] stores a record without username and game,
    also over a record that was there: the username and the game id of
    that record are lost. [deleteConnection] returns the record that was
    stored, or nothing, and removes it, whatever game it is in; deleting
    right after saving a connection that was not stored returns the new
    record and brings the table of connections back. Once deleted, the
    connection cannot be read, named or put in a game: no call to
    [setUsername] or [setGameIdForUser] brings it back. *)
Theorem connection_lifecycle (connectionId : string) (w : World) :
  (saveConnection connectionId w).1
  = Returned (User.mk connectionId None None) ∧
  getUserByConnectionId connectionId (saveConnection connectionId w).2
  = (Returned (Some (User.mk connectionId None None)),
     (saveConnection connectionId w).2) ∧
  (deleteConnection connectionId w).1
  = Returned (User.of_item connectionId <$> connections w !! connectionId) ∧
  (connections w !! connectionId = None →
     (deleteConnection connectionId (saveConnection connectionId w).2).1
     = Returned (Some (User.mk connectionId None None)) ∧
     connections
       (deleteConnection connectionId (saveConnection connectionId w).2).2
     = connections w) ∧
  (let w' := (deleteConnection connectionId w).2 in
   getUserByConnectionId connectionId w' = (Returned None, w') ∧
   (∀ username,
      setUsername connectionId username w'
      = (Threw ConditionalCheckFailedException, w')) ∧
   (∀ gameId,
      setGameIdForUser connectionId gameId w'
      = (Threw ConditionalCheckFailedException, w')) ∧
   (∀ other, other ≠ connectionId →
      connections w' !! other = connections w !! other) ∧
   gameStates w' = gameStates w ∧ games w' = games w ∧
   trace w' = trace w).
Proof.
  split; [reflexivity |]. split.
  { rewrite getUserByConnectionId_run, saveConnection_run. cbn [snd].
    by rewrite writeConnection_lookup. }
  split; [reflexivity |]. split.
  { intros Hnone. rewrite saveConnection_run, !deleteConnection_run.
    cbn [fst snd]. rewrite writeConnection_lookup. split; [reflexivity |].
    simpl. rewrite delete_insert_eq. by apply delete_id. }
  intros w'.
  assert (connections w' !! connectionId = None) as Hgone.
  { subst w'. rewrite deleteConnection_run. simpl. apply lookup_delete_eq. }
  split; [by rewrite getUserByConnectionId_run, Hgone |].
  split; [intros; by rewrite setUsername_run, Hgone |].
  split; [intros; by rewrite setGameIdForUser_run, Hgone |].
  split; [| done].
  intros other Hne. subst w'. rewrite deleteConnection_run. simpl.
  by apply lookup_delete_ne.
Qed.

(** Connection c9 is new to the sample world: saved and deleted, it
    leaves the connections as they were. *)
Lemma connection_lifecycle_witness :
  (deleteConnection "c9"
     (saveConnection "c9" (Sample.world 60 0 0)).2).1
  = Returned (Some (User.mk "c9" None None)) ∧
  connections
    (deleteConnection "c9" (saveConnection "c9" (Sample.world 60 0 0)).2).2
  = connections (Sample.world 60 0 0).
Proof.
  destruct (connection_lifecycle "c9" (Sample.world 60 0 0))
    as (_ & _ & _ & Hround & _).
  exact (Hround eq_refl).
Defined.

(* ===================================================================== *)
(** ** Listing the connections *)
(* ===================================================================== *)

(** X11. [getAllConnections] lists each stored connection once, with its
    username, and never with a game id: a user of the list is in it
    exactly when a record is stored under its connection id with its
    username. The world stays as it was. *)
Theorem getAllConnections_spec (w : World) :
  ∃ users,
    getAllConnections w = (Returned users, w) ∧
    NoDup (map User.connectionId users) ∧
    (∀ u, u ∈ users ↔
          User.gameId u = None ∧
          ∃ item, connections w !! User.connectionId u = Some item ∧
                  UserItem.username item = User.username u).
Proof.
  eexists. split; [reflexivity |]. split.
  - rewrite map_map. simpl. apply NoDup_fst_map_to_list.
  - intros [c name game]. rewrite list_elem_of_fmap. simpl. split.
    + intros ([c' item] & Hu & Hin). simpl in Hu. simplify_eq.
      apply elem_of_map_to_list in Hin. split; [reflexivity |].
      by exists item.
    + intros (-> & item & Hitem & Hname).
      exists (c, item). split; [by rewrite <- Hname |].
      by apply elem_of_map_to_list.
Qed.

(* ===================================================================== *)
(** ** Sending one response to many connections *)
(* ===================================================================== *)

Lemma sendToEach_run ws msg connectionIds w :
  sendToEach ws msg connectionIds w
  = (Returned (map (λ _, tt) connectionIds),
     emitAll (sendAll msg connectionIds) w).
Proof.
  revert w. induction connectionIds as [| c cs IH]; intros w.
  - simpl. by rewrite emitAll_nil.
  - unfold sendToEach in *. simpl mapM. rewrite bind_run.
    unfold ws.send at 1. cbv iota beta.
    rewrite bind_run, IH. unfold sendAll. simpl map.
    by rewrite emitAll_emit.
Qed.

Lemma messagesTo_sendAll c msg connectionIds :
  messagesTo c (sendAll msg connectionIds)
  = replicate (length (filter (λ cid, cid = c) connectionIds)) msg.
Proof.
  induction connectionIds as [| cid cs IH]; [reflexivity |].
  unfold sendAll in *. simpl. rewrite filter_cons.
  destruct (String.eqb_spec cid c) as [-> | Hne].
  - rewrite decide_True by done. simpl. by rewrite <- IH.
  - rewrite decide_False by done. exact IH.
Qed.

Lemma messagesTo_except_caller caller msg connectionIds :
  messagesTo caller
    (sendAll msg (getConnectionIdsExceptCaller caller connectionIds)) = [].
Proof.
  rewrite messagesTo_sendAll. unfold getConnectionIdsExceptCaller.
  replace (filter (λ cid, cid = caller)
             (filter (λ other, other ≠ caller) connectionIds))
    with (@nil string); [reflexivity |].
  symmetry. induction connectionIds as [| cid cs IH]; [reflexivity |].
  rewrite filter_cons. destruct (decide (cid ≠ caller)) as [Hne | Heq].
  - rewrite filter_cons, decide_False by done. exact IH.
  - exact IH.
Qed.

Lemma messagesTo_except_other caller c msg connectionIds :
  c ≠ caller →
  messagesTo c
    (sendAll msg (getConnectionIdsExceptCaller caller connectionIds))
  = messagesTo c (sendAll msg connectionIds).
Proof.
  intros Hne. rewrite !messagesTo_sendAll. f_equal. f_equal.
  unfold getConnectionIdsExceptCaller.
  induction connectionIds as [| cid cs IH]; [reflexivity |].
  rewrite !filter_cons.
  destruct (decide (cid ≠ caller)) as [Hcid | Hcid].
  - rewrite filter_cons. destruct (decide (cid = c)); by rewrite IH.
  - rewrite decide_False; [exact IH |]. intros ->. by apply Hcid.
Qed.

(** X12. With each send taken as one delivery: [broadcastDrawRound],
    [broadcastPlayedTileToUsers], [broadcastWinningTiles] and
    [broadcastSelfPlayTile] send the one response built from their
    arguments to every connection of the list they are given, in the order
    of the list and with the caller among them, and do nothing else: no
    table is touched. A connection gets the response as many times as the
    list names it. [broadcastPlayedTileToUsers] returns the tile. *)
Theorem broadcasts_to_all `{Collaborators}
    (ws : WebSocketClient) (connectionIds : list string) (w : World) :
  (∀ gameId connectionId,
     broadcastDrawRound ws gameId connectionId connectionIds w
     = (Returned tt,
        emitAll (sendAll (createDrawRoundResponse gameId connectionId)
                         connectionIds) w)) ∧
  (∀ tile callerConnectionId,
     broadcastPlayedTileToUsers ws tile callerConnectionId connectionIds w
     = (Returned tile,
        emitAll (sendAll (createPlayTileResponse callerConnectionId tile)
                         connectionIds) w)) ∧
  (∀ connectionId handPointResults,
     broadcastWinningTiles ws connectionIds connectionId handPointResults w
     = (Returned tt,
        emitAll (sendAll (createWinningTilesResponse connectionId
                            handPointResults) connectionIds) w)) ∧
  (∀ payload,
     broadcastSelfPlayTile ws connectionIds payload w
     = (Returned tt,
        emitAll (sendAll (createSelfPlayTileResponse payload)
                         connectionIds) w)) ∧
  (∀ msg c,
     messagesTo c (trace (emitAll (sendAll msg connectionIds) w))
     = messagesTo c (trace w) ++
       replicate (length (filter (λ cid, cid = c) connectionIds)) msg) ∧
  (∀ msg, sameTables w (emitAll (sendAll msg connectionIds) w)).
Proof.
  repeat apply conj.
  - intros. unfold broadcastDrawRound.
    by rewrite bind_run, sendToEach_run.
  - intros. unfold broadcastPlayedTileToUsers.
    by rewrite bind_run, sendToEach_run.
  - intros. unfold broadcastWinningTiles.
    by rewrite bind_run, sendToEach_run.
  - intros. unfold broadcastSelfPlayTile.
    by rewrite bind_run, sendToEach_run.
  - intros msg c. simpl. by rewrite messagesTo_app, messagesTo_sendAll.
  - done.
Qed.

(** Player c2 of the sample game discards a tile: each of the four
    players, c2 too, is told once, and the tile comes back. *)
Lemma broadcasts_to_all_witness :
  let played :=
    broadcastPlayedTileToUsers (H0 := SampleLobby.collaborators)
      mkWebSocketClient "EAST" "c2" Sample.connectionIds
      (Sample.world 60 0 0) in
  played.1 = Returned "EAST" ∧
  recipients (trace played.2) = ["c1"; "c2"; "c3"; "c4"] ∧
  messagesTo "c2" (trace played.2)
  = [createPlayTileResponse (Collaborators := SampleLobby.collaborators)
       "c2" "EAST"].
Proof.
  intros played.
  destruct (broadcasts_to_all (H := SampleLobby.collaborators)
              mkWebSocketClient Sample.connectionIds (Sample.world 60 0 0))
    as (_ & Hplayed & _ & _ & Hgets & _).
  subst played. rewrite Hplayed. cbn [fst snd].
  split; [reflexivity |]. split; [reflexivity |].
  by rewrite Hgets.
Defined.

(** X13. With each send taken as one delivery: [broadcastInGameUpdate]
    sends the list of users to every user of the list but the caller and
    returns the list; [broadcastUserUpdate] sends the stored caller to
    every listed connection but the caller and returns the caller, and
    when the caller is not stored it sends nothing and returns
    [undefined]. Neither sends anything to the caller, each other
    connection gets what it would get without the exclusion, and no
    table is touched. *)
Theorem broadcasts_except_caller `{Collaborators}
    (ws : WebSocketClient) (callerConnectionId : string) (w : World) :
  (∀ usersInGame,
     broadcastInGameUpdate ws callerConnectionId usersInGame w
     = (Returned usersInGame,
        emitAll
          (sendAll (createInGameUpdateResponse usersInGame)
             (getConnectionIdsExceptCaller callerConnectionId
                (getConnectionIdsFromUsers usersInGame))) w)) ∧
  (∀ state allConnectionIds,
     broadcastUserUpdate ws callerConnectionId state allConnectionIds w
     = match connections w !! callerConnectionId with
       | Some item =>
           let currentUser := User.of_item callerConnectionId item in
           (Returned (Some currentUser),
            emitAll
              (sendAll (createUserUpdateResponse currentUser state)
                 (getConnectionIdsExceptCaller callerConnectionId
                    allConnectionIds)) w)
       | None => (Returned None, w)
       end) ∧
  (∀ msg connectionIds,
     let sent :=
       sendAll msg (getConnectionIdsExceptCaller callerConnectionId
                      connectionIds) in
     messagesTo callerConnectionId (trace (emitAll sent w))
     = messagesTo callerConnectionId (trace w) ∧
     (∀ c, c ≠ callerConnectionId →
           messagesTo c sent = messagesTo c (sendAll msg connectionIds)) ∧
     sameTables w (emitAll sent w)).
Proof.
  repeat apply conj.
  - intros. unfold broadcastInGameUpdate.
    by rewrite bind_run, sendToEach_run.
  - intros. unfold broadcastUserUpdate.
    rewrite bind_run, getUserByConnectionId_run.
    destruct (connections w !! callerConnectionId) as [item|];
      [| reflexivity].
    change (User.of_item callerConnectionId <$> Some item)
      with (Some (User.of_item callerConnectionId item)).
    cbv iota beta. by rewrite bind_run, sendToEach_run.
  - intros msg connectionIds sent. subst sent. split; [| split].
    + simpl.
      by rewrite messagesTo_app, messagesTo_except_caller, app_nil_r.
    + intros c Hne. by apply messagesTo_except_other.
    + done.
Qed.

(** Player c2 of the sample game is announced to the four players: c1, c3
    and c4 get the announcement and c2 gets nothing. *)
Lemma broadcasts_except_caller_witness :
  let w := Sample.world 60 0 0 in
  let w' :=
    (broadcastUserUpdate (H := SampleLobby.collaborators) mkWebSocketClient
       "c2" true Sample.connectionIds w).2 in
  recipients (trace w') = ["c1"; "c3"; "c4"] ∧
  messagesTo "c2" (trace w') = [] ∧
  length (messagesTo "c3" (trace w')) = 1%nat.
Proof.
  intros w w'.
  destruct (broadcasts_except_caller (H := SampleLobby.collaborators)
              mkWebSocketClient "c2" w) as (_ & Hupdate & Hsent).
  subst w'. rewrite Hupdate.
  change (connections w !! "c2")
    with (Some (UserItem.mk (Some "c2") (Some "game-1"))).
  cbv zeta iota beta. cbn [snd].
  destruct (Hsent
              (createUserUpdateResponse (Collaborators := SampleLobby.collaborators)
                 (User.of_item "c2" (UserItem.mk (Some "c2") (Some "game-1")))
                 true)
              Sample.connectionIds) as (Hcaller & Hother & _).
  rewrite Hcaller. split; [reflexivity |]. split; [reflexivity |].
  change (trace (emitAll ?es w)) with es.
  rewrite (Hother "c3") by done. reflexivity.
Defined.

(* ===================================================================== *)
(** ** Announcing who joined or left *)
(* ===================================================================== *)

Lemma js_or_nonempty a b : b ≠ EmptyString → js_or a b ≠ EmptyString.
Proof.
  intros Hb. destruct a as [s|]; simpl; [| exact Hb].
  destruct (String.eqb_spec s EmptyString); done.
Qed.

Lemma js_or_self s b : s ≠ EmptyString → js_or (Some s) b = s.
Proof.
  intros Hs. simpl. by destruct (String.eqb_spec s EmptyString).
Qed.

(** X14. With each send taken as one delivery: [broadcastInGameMessage]
    names the caller by the username it is given, or else by the stored
    username of the caller, or else as Unknown User; the name is never
    empty, so the sentence never falls back to the connection id. It
    sends the sentence to every listed connection but the caller and
    touches no table. Given no username for a caller that is not stored,
    it fails with a type error before anything is sent. *)
Theorem broadcastInGameMessage_spec `{Collaborators}
    (ws : WebSocketClient) (callerConnectionId : string)
    (action : InGameAction) (connectionIds : list string)
    (callerUsername : option string) (w : World) :
  let stored := connections w !! callerConnectionId in
  let name :=
    if truthy callerUsername then default EmptyString callerUsername
    else js_or (stored ≫= UserItem.username) "Unknown User" in
  (truthy callerUsername = false → stored = None →
     broadcastInGameMessage ws callerConnectionId action connectionIds
                            callerUsername w
     = (Threw TypeError, w)) ∧
  (truthy callerUsername = true ∨ is_Some stored →
     name ≠ EmptyString ∧
     broadcastInGameMessage ws callerConnectionId action connectionIds
                            callerUsername w
     = (Returned tt,
        emitAll
          (sendAll
             (createInGameMessageResponse (entropy w) name
                                          (announcement name action))
             (getConnectionIdsExceptCaller callerConnectionId
                                           connectionIds))
          (drawn w))).
Proof.
  intros stored name. subst stored. split.
  - intros Hfalsy Hnone. unfold broadcastInGameMessage.
    rewrite Hfalsy. cbn [negb]. cbv iota.
    by rewrite !bind_run, getUserByConnectionId_run, Hnone.
  - intros Hnamed.
    assert (name ≠ EmptyString) as Hname.
    { subst name. destruct callerUsername as [s|]; simpl.
      - destruct (String.eqb_spec s EmptyString); simpl; [| done].
        by apply js_or_nonempty.
      - by apply js_or_nonempty. }
    split; [exact Hname |].
    assert (∀ u, u = name →
              (time ← now;
               _ ← sendToEach ws
                     (createInGameMessageResponse time u
                        (String.append (js_or (Some u) callerConnectionId)
                           (String.append " just "
                              (String.append
                                 match action with
                                 | JOIN_GAME => "joined"
                                 | LEAVE_GAME => "left"
                                 end " the game."))))
                     (filter (λ other, other ≠ callerConnectionId)
                             connectionIds);
               mret tt) w
              = (Returned tt,
                 emitAll
                   (sendAll
                      (createInGameMessageResponse (entropy w) name
                         (announcement name action))
                      (getConnectionIdsExceptCaller callerConnectionId
                                                    connectionIds))
                   (drawn w))) as Hrest.
    { intros u ->. rewrite bind_run. unfold now at 1. cbv iota beta.
      rewrite bind_run, sendToEach_run, js_or_self by done.
      reflexivity. }
    unfold broadcastInGameMessage. rewrite bind_run.
    destruct (truthy callerUsername) eqn:Htruthy; cbn [negb]; cbv iota.
    + cbv [mret Async_ret]. cbv iota beta. by apply Hrest.
    + destruct Hnamed as [? | [item Hitem]]; [done |].
      rewrite bind_run, getUserByConnectionId_run, Hitem.
      change (User.of_item callerConnectionId <$> Some item)
        with (Some (User.of_item callerConnectionId item)).
      cbv iota beta. cbv [mret Async_ret]. cbv iota beta.
      apply Hrest. subst name. by rewrite Hitem.
Qed.

(** The newcomer c5, stored as eve, joins the sample game and no username
    is given: the four players read that eve joined. Connection c9 is not
    stored: the announcement fails. *)
Lemma broadcastInGameMessage_spec_witness :
  let ws := mkWebSocketClient in
  let w := SampleLobby.newcomer in
  sendsOf (trace (broadcastInGameMessage (H0 := SampleLobby.collaborators)
                    ws "c5" JOIN_GAME
                    ["c1"; "c2"; "c3"; "c4"; "c5"] None w).2)
  = map (λ c, (c, createInGameMessageResponse
                    (Collaborators := SampleLobby.collaborators) 0 "eve"
                    "eve just joined the game."))
        ["c1"; "c2"; "c3"; "c4"] ∧
  broadcastInGameMessage (H0 := SampleLobby.collaborators) ws "c9" JOIN_GAME
    ["c1"; "c9"] None w
  = (Threw TypeError, w).
Proof.
  intros ws w.
  destruct (broadcastInGameMessage_spec (H := SampleLobby.collaborators)
              ws "c5" JOIN_GAME ["c1"; "c2"; "c3"; "c4"; "c5"] None w)
    as [_ Hstored].
  destruct (broadcastInGameMessage_spec (H := SampleLobby.collaborators)
              ws "c9" JOIN_GAME ["c1"; "c9"] None w)
    as [Hmissing _].
  destruct Hstored as [_ Hrun];
    [right; by exists (UserItem.mk (Some "eve") None) |].
  rewrite Hrun, (Hmissing eq_refl eq_refl). split; reflexivity.
Defined.

(* ===================================================================== *)
(** ** Drawing a tile for a player *)
(* ===================================================================== *)

Lemma getCurrentTileIndex_run gameId w :
  getCurrentTileIndex gameId w
  = (Returned (gameStates w !! gameId ≫= GameState.currentIndex), w).
Proof.
  unfold getCurrentTileIndex. rewrite bind_run, getGameStateByGameId_run.
  by destruct (gameStates w !! gameId).
Qed.

Lemma getCurrentDealer_run gameId w :
  getCurrentDealer gameId w
  = (Returned (gameStates w !! gameId ≫= GameState.dealer), w).
Proof.
  unfold getCurrentDealer. rewrite bind_run, getGameStateByGameId_run.
  by destruct (gameStates w !! gameId).
Qed.

(** X15. With each send taken as one delivery, on a stored game with a
    wall and a tile index [i]. Below 144, where the wall has a tile that is
    not the empty string at [i], [broadcastDrawTileToUser] advances the
    index by one and sends that tile with the new index to the caller
    alone. At 144 it writes nothing of its own: where the game has no
    users it fails with an error and sends nothing; where it has users it
    sends DRAW_ROUND to each of them, the caller included, and then does
    what [startNewRoundAndSendUpdates] does under the stored dealer,
    dropping the response that function resolves to. Above 144 it fails
    with an error and leaves the world as it was. *)
Theorem broadcastDrawTileToUser_spec `{Externals} `{Collaborators}
    (ws : WebSocketClient) (gameId connectionId : string) (w : World)
    (g : GameState.t) (wall : list Tile) (i : Z) :
  gameStates w !! gameId = Some g →
  GameState.wall g = Some wall →
  GameState.currentIndex g = Some i →
  (∀ tile,
     0 ≤ i < DEFAULT_WALL_LENGTH →
     wall !! Z.to_nat i = Some tile → tile ≠ EmptyString →
     broadcastDrawTileToUser ws gameId connectionId w
     = (Returned tt,
        emit (EvSend connectionId
                (createDrawTileResponse tile (Some (i + 1))))
          (writeGameState gameId
             (GameState.set_currentIndex (Some (i + 1)) g) w))) ∧
  (i = DEFAULT_WALL_LENGTH →
     getUsersInGame gameId w = (Returned None, w) →
     broadcastDrawTileToUser ws gameId connectionId w
     = (Threw (Error "broadcastDrawTileToUser: No user found in game, failed to broadcast DRAW_ROUND"),
        w)) ∧
  (∀ users,
     i = DEFAULT_WALL_LENGTH →
     getUsersInGame gameId w = (Returned (Some users), w) →
     broadcastDrawTileToUser ws gameId connectionId w
     = match
         startNewRoundAndSendUpdates ws gameId connectionId users
           (GameState.dealer g)
           (emitAll (sendAll (createDrawRoundResponse gameId connectionId)
                             (getConnectionIdsFromUsers users)) w)
       with
       | (Returned _, w') => (Returned tt, w')
       | (Threw e, w') => (Threw e, w')
       end) ∧
  (DEFAULT_WALL_LENGTH < i →
     broadcastDrawTileToUser ws gameId connectionId w
     = (Threw (Error "broadcastDrawTileToUser: Draw empty tile while currentIndex did not reach 144"),
        w)).
Proof.
  intros Hg Hwall Hi.
  pose proof (drawTile_run gameId w g wall i Hg Hwall Hi) as Hdraw.
  assert (DEFAULT_WALL_LENGTH ≤ i →
          broadcastDrawTileToUser ws gameId connectionId w
          = (if negb (bool_decide (Some i = Some DEFAULT_WALL_LENGTH)) then
               throw (Error "broadcastDrawTileToUser: Draw empty tile while currentIndex did not reach 144")
             else
               users ← getUsersInGame gameId;
               match users with
               | None =>
                   throw (Error "broadcastDrawTileToUser: No user found in game, failed to broadcast DRAW_ROUND")
               | Some users =>
                   let connectionIds := getConnectionIdsFromUsers users in
                   _ ← broadcastDrawRound ws gameId connectionId
                                          connectionIds;
                   currentDealer ← getCurrentDealer gameId;
                   _ ← startNewRoundAndSendUpdates ws gameId connectionId
                         users currentDealer;
                   mret tt
               end) w) as Hempty.
  { intros Hge. unfold broadcastDrawTileToUser.
    rewrite bind_run, Hdraw.
    destruct (Z.leb_spec DEFAULT_WALL_LENGTH i); [| lia].
    cbn [truthy negb]. rewrite String.eqb_refl. cbn [negb]. cbv iota.
    rewrite bind_run, getCurrentTileIndex_run, Hg.
    change (Some g ≫= GameState.currentIndex)
      with (GameState.currentIndex g).
    by rewrite Hi. }
  split; [| split; [| split]].
  - intros tile Hrange Htile Hne. unfold broadcastDrawTileToUser.
    rewrite bind_run, Hdraw.
    destruct (Z.leb_spec DEFAULT_WALL_LENGTH i); [lia |].
    unfold js_index. destruct (Z.leb_spec 0 i); [| lia].
    match goal with
    | |- context [truthy ?x] =>
        replace x with (Some tile) by (symmetry; exact Htile)
    end.
    cbn [truthy]. destruct (String.eqb_spec tile EmptyString); [done |].
    cbn [negb]. cbv iota.
    rewrite bind_run, getCurrentTileIndex_run.
    rewrite (proj1 (writeGameState_frame _ _ _)).
    reflexivity.
  - intros -> Husers. rewrite Hempty by lia.
    rewrite bool_decide_eq_true_2 by done. cbn [negb]. cbv iota.
    by rewrite bind_run, Husers.
  - intros users -> Husers. rewrite Hempty by lia.
    rewrite bool_decide_eq_true_2 by done. cbn [negb]. cbv iota.
    rewrite bind_run, Husers. cbv iota beta zeta.
    rewrite bind_run. unfold broadcastDrawRound at 1.
    rewrite bind_run, sendToEach_run. cbv [mret Async_ret]. cbv iota beta.
    rewrite bind_run, getCurrentDealer_run. cbv iota beta.
    change (gameStates (emitAll ?es w)) with (gameStates w).
    rewrite Hg, bind_run. simpl mbind.
    by destruct (startNewRoundAndSendUpdates _ _ _ _ _ _) as [[r|e] w'].
  - intros Hgt. rewrite Hempty by lia.
    rewrite bool_decide_eq_false_2; [reflexivity |].
    intros [= ->]. lia.
Qed.

(** Player c2 draws in the sample game at index 60: c2 alone gets the
    tile of the wall at 60 with index 61. At index 150 the draw fails and
    the world is as it was. *)
Lemma broadcastDrawTileToUser_spec_witness :
  let ws := mkWebSocketClient in
  let draw w :=
    broadcastDrawTileToUser (H := Sample.externals)
      (H0 := SampleLobby.collaborators) ws "game-1" "c2" w in
  (draw (Sample.world 60 0 0)).1 = Returned tt ∧
  sendsOf (trace (draw (Sample.world 60 0 0)).2)
  = [("c2", createDrawTileResponse
              (Collaborators := SampleLobby.collaborators)
              "2_BAMBOO" (Some 61))] ∧
  currentIndexOf "game-1" (draw (Sample.world 60 0 0)).2 = Some 61 ∧
  draw (Sample.world 150 0 0)
  = (Threw (Error "broadcastDrawTileToUser: Draw empty tile while currentIndex did not reach 144"),
     Sample.world 150 0 0).
Proof.
  intros ws draw.
  destruct (broadcastDrawTileToUser_spec (H := Sample.externals)
              (H0 := SampleLobby.collaborators) ws "game-1" "c2"
              (Sample.world 60 0 0) (Sample.state 60 0 0) Sample.tiles 60
              eq_refl eq_refl eq_refl) as (Hdraw & _).
  destruct (broadcastDrawTileToUser_spec (H := Sample.externals)
              (H0 := SampleLobby.collaborators) ws "game-1" "c2"
              (Sample.world 150 0 0) (Sample.state 150 0 0) Sample.tiles 150
              eq_refl eq_refl eq_refl) as (_ & _ & _ & Hpast).
  subst draw. cbv beta.
  rewrite (Hdraw "2_BAMBOO" ltac:(by vm_compute) eq_refl ltac:(done)).
  rewrite (Hpast ltac:(by vm_compute)).
  repeat split.
Defined.

(* ===================================================================== *)
(** ** Joining a game *)
(* ===================================================================== *)

(** The announcement about a stored caller whose username is not given. *)
Lemma broadcastInGameMessage_stored `{Collaborators} ws callerConnectionId
    action connectionIds w item :
  connections w !! callerConnectionId = Some item →
  let name := js_or (UserItem.username item) "Unknown User" in
  broadcastInGameMessage ws callerConnectionId action connectionIds None w
  = (Returned tt,
     emitAll
       (sendAll
          (createInGameMessageResponse (entropy w) name
                                       (announcement name action))
          (getConnectionIdsExceptCaller callerConnectionId connectionIds))
       (drawn w)).
Proof.
  intros Hitem name.
  assert (name ≠ EmptyString) as Hname by by apply js_or_nonempty.
  unfold broadcastInGameMessage. cbn [truthy negb]. cbv iota.
  rewrite !bind_run, getUserByConnectionId_run, Hitem.
  change (User.of_item callerConnectionId <$> Some item)
    with (Some (User.of_item callerConnectionId item)).
  cbv iota beta. cbv [mret Async_ret]. cbv iota beta.
  change (js_or (User.username (User.of_item callerConnectionId item))
                "Unknown User") with name.
  rewrite bind_run. unfold now at 1. cbv iota beta.
  rewrite bind_run, sendToEach_run, js_or_self by done.
  reflexivity.
Qed.

(** X16. With each send taken as one delivery, [onJoinGame] by what
    [addUserToGame] does. Where it resolves to no game, the handler
    answers 200 and tells nobody. Where it is rejected, the handler sends
    the failure to the caller and answers 500. Where it resolves to a
    game but the caller's connection is not stored or is in a game
    already, [setGameIdForUser] is rejected: the handler sends the failure
    and answers 500, and what [addUserToGame] did stays done. Where it
    resolves to a game and the caller's connection is stored and in no
    game, the connection takes the game id, the caller gets the success
    response, then the other users of the game get the announcement under
    the caller's stored name and then the list of users, and the handler
    answers 200. *)
Theorem onJoinGame_spec `{Collaborators}
    (event : JoinGameEvent) (w : World) :
  let connectionId := join_connectionId event in
  let gameId := join_gameId event in
  let failure err :=
    EvSend connectionId
      (failedWebSocketResponse (createJoinGameResponse None)
                               (BodyError err)) in
  (∀ w1,
     addUserToGame gameId connectionId w = (Returned None, w1) →
     onJoinGame event w
     = (Returned (response 200 (BodyText "Joined game successfully")), w1)) ∧
  (∀ e w1,
     addUserToGame gameId connectionId w = (Threw e, w1) →
     onJoinGame event w
     = (Returned (response 500 (BodyError e)), emit (failure e) w1)) ∧
  (∀ game w1,
     addUserToGame gameId connectionId w = (Returned (Some game), w1) →
     (connections w1 !! connectionId = None ∨
      is_Some (connections w1 !! connectionId ≫= UserItem.gameId)) →
     onJoinGame event w
     = (Returned (response 500 (BodyError ConditionalCheckFailedException)),
        emit (failure ConditionalCheckFailedException) w1)) ∧
  (∀ game w1 item,
     addUserToGame gameId connectionId w = (Returned (Some game), w1) →
     connections w1 !! connectionId = Some item →
     UserItem.gameId item = None →
     let name := js_or (UserItem.username item) "Unknown User" in
     let others :=
       getConnectionIdsExceptCaller connectionId
         (getConnectionIdsFromUsers (Game.users game)) in
     let w2 :=
       emit (EvSend connectionId
               (successWebSocketResponse
                  (createJoinGameResponse (Some game))))
         (writeConnection connectionId
            (UserItem.mk (UserItem.username item) (Some gameId)) w1) in
     onJoinGame event w
     = (Returned (response 200 (BodyText "Joined game successfully")),
        emitAll
          (sendAll (createInGameMessageResponse (entropy w1) name
                      (announcement name JOIN_GAME)) others ++
           sendAll (createInGameUpdateResponse (Game.users game)) others)
          (drawn w2))).
Proof.
  intros connectionId gameId failure. split; [| split; [| split]].
  - intros w1 Hadd. unfold onJoinGame, try_catch, joinGame.
    fold connectionId gameId. by rewrite !bind_run, Hadd.
  - intros e w1 Hadd. unfold onJoinGame, try_catch, joinGame.
    fold connectionId gameId. by rewrite !bind_run, Hadd.
  - intros game w1 Hadd Hbusy. unfold onJoinGame, try_catch, joinGame.
    fold connectionId gameId. rewrite !bind_run, Hadd. cbv iota beta zeta.
    rewrite bind_run, setGameIdForUser_run.
    destruct (connections w1 !! connectionId) as [item|]; [| reflexivity].
    destruct Hbusy as [? | [other Hother]]; [done |].
    simpl in Hother. by rewrite Hother.
  - intros game w1 item Hadd Hitem Hfree name others w2.
    unfold onJoinGame, try_catch, joinGame.
    fold connectionId gameId. rewrite !bind_run, Hadd. cbv iota beta zeta.
    rewrite bind_run, setGameIdForUser_run, Hitem, Hfree.
    cbv iota beta zeta. rewrite bind_run. unfold ws.send at 1.
    cbv iota beta. cbv [mret Async_ret]. cbv iota beta.
    unfold joinGameSendUpdates, removeDynamoDocumentVersion.
    fold w2. rewrite !bind_run.
    rewrite (broadcastInGameMessage_stored _ connectionId JOIN_GAME _ w2
               (UserItem.mk (UserItem.username item) (Some gameId)))
      by (subst w2; simpl; apply lookup_insert_eq).
    cbv iota beta. unfold broadcastInGameUpdate.
    rewrite !bind_run, sendToEach_run. cbv iota beta.
    cbv [mret Async_ret]. cbv iota beta.
    by rewrite emitAll_app.
Qed.

(** The newcomer c5 joins the sample game: c5 hears of the success, then
    the four players get the announcement and then the list. Player c1,
    who is in a game, is refused with 500. A game that resolves to nothing
    is answered with 200 and nobody hears of it. *)
Lemma onJoinGame_spec_witness :
  let join c g :=
    onJoinGame (H0 := SampleLobby.collaborators)
      (mkJoinGameEvent c g) SampleLobby.newcomer in
  (join "c5" "game-1").1
  = Returned (response 200 (BodyText "Joined game successfully")) ∧
  recipients (trace (join "c5" "game-1").2)
  = ["c5"; "c1"; "c2"; "c3"; "c4"; "c1"; "c2"; "c3"; "c4"] ∧
  (connections (join "c5" "game-1").2 !! "c5" ≫= UserItem.gameId)
  = Some "game-1" ∧
  (join "c1" "game-1").1
  = Returned (response 500 (BodyError ConditionalCheckFailedException)) ∧
  join "c5" "game-7"
  = (Returned (response 200 (BodyText "Joined game successfully")),
     SampleLobby.newcomer).
Proof.
  intros join.
  destruct (onJoinGame_spec (H := SampleLobby.collaborators)
              (mkJoinGameEvent "c5" "game-1") SampleLobby.newcomer)
    as (_ & _ & _ & Hjoined).
  destruct (onJoinGame_spec (H := SampleLobby.collaborators)
              (mkJoinGameEvent "c1" "game-1") SampleLobby.newcomer)
    as (_ & _ & Hbusy & _).
  destruct (onJoinGame_spec (H := SampleLobby.collaborators)
              (mkJoinGameEvent "c5" "game-7") SampleLobby.newcomer)
    as (Hnobody & _).
  subst join. cbv beta.
  rewrite (Hjoined SampleLobby.game SampleLobby.newcomer
             (UserItem.mk (Some "eve") None) eq_refl eq_refl eq_refl).
  rewrite (Hbusy SampleLobby.game SampleLobby.newcomer eq_refl
             ltac:(right; by exists "game-1")).
  rewrite (Hnobody SampleLobby.newcomer eq_refl).
  repeat split.
Defined.

(* ===================================================================== *)
(** ** Messages to everybody *)
(* ===================================================================== *)

Lemma messagesTo_sendAll_NoDup c msg connectionIds :
  NoDup connectionIds →
  messagesTo c (sendAll msg connectionIds)
  = if decide (c ∈ connectionIds) then [msg] else [].
Proof.
  intros Hnodup. rewrite messagesTo_sendAll.
  induction Hnodup as [| cid cs Hnotin Hnodup IH]; [reflexivity |].
  rewrite filter_cons. destruct (decide (cid = c)) as [-> | Hne].
  - rewrite decide_True by left. simpl.
    rewrite decide_False in IH by done. by rewrite IH.
  - rewrite IH. destruct (decide (c ∈ cs)) as [Hin | Hout].
    + by rewrite decide_True by by right.
    + rewrite decide_False; [reflexivity |].
      intros [Heq | Hin]%elem_of_cons; [by apply Hne | by apply Hout].
Qed.

Lemma getAllConnections_run w :
  ∃ users,
    getAllConnections w = (Returned users, w) ∧
    NoDup (getConnectionIdsFromUsers users) ∧
    (∀ c, c ∈ getConnectionIdsFromUsers users
          ↔ is_Some (connections w !! c)).
Proof.
  eexists. split; [reflexivity |]. unfold getConnectionIdsFromUsers.
  rewrite map_map. simpl. split; [apply NoDup_fst_map_to_list |].
  intros c. rewrite list_elem_of_fmap. split.
  - intros ([c' item] & -> & Hin). apply elem_of_map_to_list in Hin.
    by exists item.
  - intros [item Hitem]. exists (c, item). split; [reflexivity |].
    by apply elem_of_map_to_list.
Qed.

(** X17. With each send taken as one delivery: [onSendMessage] answers 400
    and sends nothing when the username or the message is missing or
    empty. Otherwise it answers 200 with the list of the stored
    connections, and every stored connection, the sender's among them,
    gets the one message once, and no other connection gets anything;
    with no connection stored nothing is sent. No table is touched. *)
Theorem onSendMessage_spec `{Collaborators} (event : SendMessageEvent)
    (w : World) :
  (truthy (send_username event) && truthy (send_message event) = false →
     onSendMessage event w
     = (Returned
          (response 400 (BodyText "Message attribute cannot be empty")),
        w)) ∧
  (∀ username message,
     send_username event = Some username → username ≠ EmptyString →
     send_message event = Some message → message ≠ EmptyString →
     ∃ users,
       getAllConnections w = (Returned users, w) ∧
       (onSendMessage event w).1
       = Returned (response 200 (BodyText (JSON_stringify users))) ∧
       (∀ c,
          messagesTo c (trace (onSendMessage event w).2)
          = messagesTo c (trace w) ++
            if decide (is_Some (connections w !! c))
            then [createSendMessageResponse (entropy w) username message]
            else []) ∧
       sameTables w (onSendMessage event w).2).
Proof.
  split.
  - intros Hfalsy. unfold onSendMessage, try_catch. by rewrite Hfalsy.
  - intros username message Hu Hune Hm Hmne.
    destruct (getAllConnections_run w) as (users & Hall & Hnodup & Hdom).
    exists users. split; [exact Hall |].
    assert (onSendMessage event w
            = (Returned (response 200 (BodyText (JSON_stringify users))),
               match users with
               | [] => w
               | _ :: _ =>
                   emitAll
                     (sendAll (createSendMessageResponse (entropy w)
                                 username message)
                        (getConnectionIdsFromUsers users))
                     (drawn w)
               end)) as Hrun.
    { unfold onSendMessage, try_catch. rewrite Hu, Hm. cbn [truthy].
      destruct (String.eqb_spec username EmptyString); [done |].
      destruct (String.eqb_spec message EmptyString); [done |].
      cbn [negb andb default]. unfold broadcastMessage.
      rewrite !bind_run, Hall. cbv iota beta.
      destruct users as [| u us]; [reflexivity |].
      rewrite !bind_run. unfold now at 1. cbv iota beta.
      by rewrite sendToEach_run. }
    rewrite Hrun. cbn [fst snd]. split; [reflexivity |]. split.
    + intros c. destruct users as [| u us].
      * rewrite decide_False; [by rewrite app_nil_r |].
        intros Hstored. apply Hdom in Hstored. by apply elem_of_nil in Hstored.
      * change (trace (emitAll ?es (drawn w))) with (trace w ++ es).
        rewrite messagesTo_app. f_equal.
        rewrite messagesTo_sendAll_NoDup by done.
        destruct (decide (c ∈ getConnectionIdsFromUsers (u :: us)))
          as [Hin | Hout].
        -- by rewrite decide_True by by apply Hdom.
        -- rewrite decide_False; [reflexivity |].
           intros Hstored. by apply Hout, Hdom.
    + by destruct users.
Qed.

(** Player c1 of the sample game writes to everybody: each of the four
    connections gets the message once, c1 too, and c9, which is not
    connected, gets nothing. Without a message the answer is 400. *)
Lemma onSendMessage_spec_witness :
  let w := Sample.world 60 0 0 in
  let say := mkSendMessageEvent (Some "c1") (Some "hello") in
  let run := onSendMessage (H0 := SampleLobby.collaborators) say w in
  length (messagesTo "c1" (trace run.2)) = 1%nat ∧
  length (messagesTo "c3" (trace run.2)) = 1%nat ∧
  messagesTo "c9" (trace run.2) = [] ∧
  onSendMessage (H0 := SampleLobby.collaborators)
    (mkSendMessageEvent (Some "c1") None) w
  = (Returned (response 400 (BodyText "Message attribute cannot be empty")),
     w).
Proof.
  intros w say run.
  destruct (onSendMessage_spec (H := SampleLobby.collaborators) say w)
    as [_ Hsaid].
  destruct (onSendMessage_spec (H := SampleLobby.collaborators)
              (mkSendMessageEvent (Some "c1") None) w)
    as [Hempty _].
  destruct (Hsaid "c1" "hello" eq_refl ltac:(done) eq_refl ltac:(done))
    as (users & _ & _ & Hgets & _).
  subst run. rewrite !Hgets, (Hempty eq_refl). repeat split.
Defined.

(* ===================================================================== *)
(** ** Listing the users *)
(* ===================================================================== *)

Lemma broadcastUserUpdate_run `{Collaborators} ws callerConnectionId state
    allConnectionIds w :
  broadcastUserUpdate ws callerConnectionId state allConnectionIds w
  = (Returned (User.of_item callerConnectionId
                 <$> connections w !! callerConnectionId),
     emitAll
       match connections w !! callerConnectionId with
       | Some item =>
           sendAll (createUserUpdateResponse
                      (User.of_item callerConnectionId item) state)
             (getConnectionIdsExceptCaller callerConnectionId
                                           allConnectionIds)
       | None => []
       end w).
Proof.
  unfold broadcastUserUpdate. rewrite bind_run, getUserByConnectionId_run.
  destruct (connections w !! callerConnectionId) as [item|].
  - change (User.of_item callerConnectionId <$> Some item)
      with (Some (User.of_item callerConnectionId item)).
    cbv iota beta. by rewrite bind_run, sendToEach_run.
  - cbv [fmap option_fmap option_map]. cbv iota beta.
    rewrite bind_run. cbv [mret Async_ret]. cbv iota beta.
    by rewrite emitAll_nil.
Qed.

(** X18. With each send taken as one delivery: [onGetAllUsers] answers
    200 with the list of the stored connections. The caller gets that
    list, unless no connection is stored, and never the update about
    itself. Each other stored connection gets one update about the
    caller when the caller is stored, and nothing when it is not; a
    connection that is not stored gets nothing. No table is touched. *)
Theorem onGetAllUsers_spec `{Collaborators} (connectionId : string)
    (w : World) :
  ∃ users,
    getAllConnections w = (Returned users, w) ∧
    (onGetAllUsers connectionId w).1
    = Returned (response 200 (BodyText (JSON_stringify users))) ∧
    messagesTo connectionId (trace (onGetAllUsers connectionId w).2)
    = messagesTo connectionId (trace w) ++
      match users with
      | [] => []
      | _ :: _ => [createGetAllUsersResponse users]
      end ∧
    (∀ c, c ≠ connectionId →
       messagesTo c (trace (onGetAllUsers connectionId w).2)
       = messagesTo c (trace w) ++
         match connections w !! connectionId, connections w !! c with
         | Some item, Some _ =>
             [createUserUpdateResponse (User.of_item connectionId item)
                                       CONNECTED]
         | _, _ => []
         end) ∧
    sameTables w (onGetAllUsers connectionId w).2.
Proof.
  destruct (getAllConnections_run w) as (users & Hall & Hnodup & Hdom).
  exists users. split; [exact Hall |].
  set (listed := match users with
                 | [] => []
                 | _ :: _ =>
                     [EvSend connectionId (createGetAllUsersResponse users)]
                 end).
  set (updates := match connections w !! connectionId with
                  | Some item =>
                      sendAll (createUserUpdateResponse
                                 (User.of_item connectionId item) CONNECTED)
                        (getConnectionIdsExceptCaller connectionId
                           (getConnectionIdsFromUsers users))
                  | None => []
                  end).
  assert (onGetAllUsers connectionId w
          = (Returned (response 200 (BodyText (JSON_stringify users))),
             emitAll (listed ++ updates) w)) as Hrun.
  { unfold onGetAllUsers, try_catch, broadcastConnections.
    rewrite !bind_run, Hall. cbv iota beta.
    destruct users as [| u us].
    - cbv [mret Async_ret]. rewrite bind_run. cbv iota beta.
      rewrite bind_run, broadcastUserUpdate_run. reflexivity.
    - rewrite bind_run. unfold ws.send at 1. cbv iota beta.
      cbv [mret Async_ret]. cbv iota beta.
      rewrite bind_run, broadcastUserUpdate_run. cbv iota beta.
      rewrite emitAll_emit. reflexivity. }
  rewrite Hrun. cbn [fst snd]. split; [reflexivity |].
  change (trace (emitAll ?es w)) with (trace w ++ es).
  split; [| split; [| done]].
  - rewrite !messagesTo_app. f_equal.
    assert (messagesTo connectionId updates = []) as ->.
    { subst updates. destruct (connections w !! connectionId);
        [apply messagesTo_except_caller | reflexivity]. }
    rewrite app_nil_r. subst listed. destruct users; [reflexivity |].
    simpl. by rewrite String.eqb_refl.
  - intros c Hne. rewrite !messagesTo_app. f_equal.
    assert (messagesTo c listed = []) as ->.
    { subst listed. destruct users; [reflexivity |]. simpl.
      destruct (String.eqb_spec connectionId c); [by subst | reflexivity]. }
    simpl. subst updates.
    destruct (connections w !! connectionId) as [item|] eqn:Hcaller;
      [| reflexivity].
    rewrite messagesTo_except_other, messagesTo_sendAll_NoDup by done.
    destruct (connections w !! c) as [other|] eqn:Hc.
    + rewrite decide_True; [reflexivity |]. apply Hdom. by rewrite Hc.
    + rewrite decide_False; [reflexivity |]. intros Hin.
      apply Hdom in Hin. rewrite Hc in Hin. by destruct Hin.
Qed.

(** Player c2 of the sample game asks for the users: c2 gets the list and
    nothing else, c3 gets one update about c2, and c9, which is not
    connected, gets nothing. *)
Lemma onGetAllUsers_spec_witness :
  let w' :=
    (onGetAllUsers (H0 := SampleLobby.collaborators) "c2"
       (Sample.world 60 0 0)).2 in
  length (messagesTo "c2" (trace w')) = 1%nat ∧
  messagesTo "c3" (trace w')
  = [createUserUpdateResponse (Collaborators := SampleLobby.collaborators)
       (User.mk "c2" (Some "c2") (Some "game-1")) true] ∧
  messagesTo "c9" (trace w') = [].
Proof.
  intros w'.
  destruct (onGetAllUsers_spec (H := SampleLobby.collaborators) "c2"
              (Sample.world 60 0 0))
    as (users & Hall & _ & Hcaller & Hothers & _).
  subst w'.
  rewrite Hcaller, (Hothers "c3") by done. rewrite (Hothers "c9") by done.
  injection Hall as <-. repeat split.
Defined.

(* ===================================================================== *)
(** ** Reading a game state *)
(* ===================================================================== *)

(** X19. On a stored game the reads return what is stored and change
    nothing: [getCurrentTileIndex], [getCurrentDealer], [getCurrentWind],
    [getCurrentWallByGameId], [getInteractionCount] and
    [getCurrentPlayedTile] each return their attribute. The read of the
    whole state with the default attributes returns the state without
    [interactionCount] and [playedTileInteractions], which the default
    list does not name. Right after [initGameState] the reads give dealer
    0, wind 0, no interaction and the wall and index of the new wall. *)
Theorem gameState_reads `{Externals} (gameId : string) (w : World)
    (g : GameState.t) :
  gameStates w !! gameId = Some g →
  getGameStateByGameId gameId DEFAULT_GAME_STATE_PARAMS w
  = (Returned
       (Some (GameState.set_playedTileInteractions None
                (GameState.set_interactionCount None g))), w) ∧
  getCurrentTileIndex gameId w = (Returned (GameState.currentIndex g), w) ∧
  getCurrentDealer gameId w = (Returned (GameState.dealer g), w) ∧
  getCurrentWind gameId w = (Returned (GameState.currentWind g), w) ∧
  getCurrentWallByGameId gameId w = (Returned (GameState.wall g), w) ∧
  getInteractionCount gameId w
  = (Returned (GameState.interactionCount g), w) ∧
  getCurrentPlayedTile gameId w
  = (Returned (GameState.playedTileInteractions g), w) ∧
  (∀ connectionIds,
     let w1 := (initGameState gameId connectionIds w).2 in
     let dealt :=
       generateHongKongMahjongHands (HongKongWall (entropy w))
                                    connectionIds in
     getCurrentDealer gameId w1 = (Returned (Some 0), w1) ∧
     getCurrentWind gameId w1 = (Returned (Some 0), w1) ∧
     getInteractionCount gameId w1 = (Returned (Some 0), w1) ∧
     getCurrentPlayedTile gameId w1 = (Returned (Some []), w1) ∧
     getCurrentWallByGameId gameId w1
     = (Returned (Some (Wall.getTiles dealt.2)), w1) ∧
     getCurrentTileIndex gameId w1
     = (Returned (Some (Wall.getCurrentTileIndex dealt.2)), w1)).
Proof.
  intros Hg.
  assert (∀ w0 g0, gameStates w0 !! gameId = Some g0 →
            getCurrentTileIndex gameId w0
            = (Returned (GameState.currentIndex g0), w0) ∧
            getCurrentDealer gameId w0
            = (Returned (GameState.dealer g0), w0) ∧
            getCurrentWind gameId w0
            = (Returned (GameState.currentWind g0), w0) ∧
            getCurrentWallByGameId gameId w0
            = (Returned (GameState.wall g0), w0) ∧
            getInteractionCount gameId w0
            = (Returned (GameState.interactionCount g0), w0) ∧
            getCurrentPlayedTile gameId w0
            = (Returned (GameState.playedTileInteractions g0), w0))
    as Hreads.
  { intros w0 g0 Hg0.
    unfold getCurrentTileIndex, getCurrentDealer, getCurrentWind,
      getCurrentWallByGameId, getInteractionCount, getCurrentPlayedTile.
    rewrite !bind_run, !getGameStateByGameId_run, Hg0.
    repeat split. }
  split; [by rewrite getGameStateByGameId_run, Hg |].
  destruct (Hreads w g Hg) as (Hindex & Hdealer & Hwind & Hwall & Hcount
                               & Hplayed).
  repeat (split; [assumption |]).
  intros connectionIds w1 dealt. subst w1.
  rewrite initGameState_run. cbn [snd].
  destruct (Hreads _ _ (proj1 (writeGameState_frame gameId
                                 (initialGame (entropy w) connectionIds)
                                 (drawn w))))
    as (Hindex1 & Hdealer1 & Hwind1 & Hwall1 & Hcount1 & Hplayed1).
  rewrite Hindex1, Hdealer1, Hwind1, Hwall1, Hcount1, Hplayed1.
  repeat split.
Qed.

(** The sample game at index 60 under dealer 2 and wind 3 is read as
    stored, and the default read leaves the interactions out. *)
Lemma gameState_reads_witness :
  let w := Sample.world 60 2 3 in
  getCurrentTileIndex "game-1" w = (Returned (Some 60), w) ∧
  getCurrentDealer "game-1" w = (Returned (Some 2), w) ∧
  getInteractionCount "game-1" w = (Returned (Some 0), w) ∧
  ((getGameStateByGameId "game-1" DEFAULT_GAME_STATE_PARAMS w).1
   = Returned (Some (GameState.set_playedTileInteractions None
                       (GameState.set_interactionCount None
                          (Sample.state 60 2 3))))).
Proof.
  intros w.
  destruct (gameState_reads (H := Sample.externals) "game-1" w
              (Sample.state 60 2 3) eq_refl)
    as (Hstate & Hindex & Hdealer & _ & _ & Hcount & _).
  rewrite Hstate, Hindex, Hdealer, Hcount. repeat split.
Defined.

(* ===================================================================== *)
(** ** Telling the lobby about a game *)
(* ===================================================================== *)

(** X20. With each send taken as one delivery and [getGameByGameId] as a
    read of the table of games: [broadcastGameUpdate] on a game that is
    not stored sends nothing and returns [undefined]; on a stored game it
    returns the game and sends the update built from the game and the
    state to every listed connection, or, unless [sendToAll] is set, to
    every listed connection but the caller. No table is touched. *)
Theorem broadcastGameUpdate_spec (ws : WebSocketClient) (gameId : string)
    (state : GameStatesEnum) (callerConnectionId : string)
    (allConnectionIds : list string) (sendToAll : bool) (w : World) :
  (games w !! gameId = None →
     broadcastGameUpdate ws gameId state callerConnectionId
                         allConnectionIds sendToAll w
     = (Returned None, w)) ∧
  (∀ game,
     games w !! gameId = Some game →
     broadcastGameUpdate ws gameId state callerConnectionId
                         allConnectionIds sendToAll w
     = (Returned (Some game),
        emitAll
          (sendAll (createGameUpdateResponse game state)
             (if sendToAll then allConnectionIds
              else getConnectionIdsExceptCaller callerConnectionId
                                                allConnectionIds)) w)).
Proof.
  assert (getGameByGameId gameId w = (Returned (games w !! gameId), w))
    as Hget.
  { unfold getGameByGameId, DB.get. rewrite bind_run. simpl.
    by destruct (games w !! gameId). }
  split.
  - intros Hnone. unfold broadcastGameUpdate.
    by rewrite bind_run, Hget, Hnone.
  - intros game Hgame. unfold broadcastGameUpdate.
    rewrite bind_run, Hget, Hgame. cbv iota beta zeta.
    unfold removeDynamoDocumentVersion. rewrite bind_run.
    destruct sendToAll.
    + pose proof (sendToEach_run ws (createGameUpdateResponse game state)
                    allConnectionIds w) as Hsent.
      unfold sendToEach in Hsent. by rewrite Hsent.
    + pose proof (sendToEach_run ws (createGameUpdateResponse game state)
                    (getConnectionIdsExceptCaller callerConnectionId
                                                  allConnectionIds) w)
        as Hsent.
      unfold sendToEach in Hsent. cbv zeta. by rewrite Hsent.
Qed.

(** The sample game is in the table of games and c1 created it: c2, c3
    and c4 hear of it, and with [sendToAll] c1 does too. Of game-9, which
    is not stored, nobody hears. *)
Lemma broadcastGameUpdate_spec_witness :
  let ws := mkWebSocketClient in
  let w :=
    set_games {[ "game-1" := SampleLobby.game ]} (Sample.world 60 0 0) in
  recipients (trace (broadcastGameUpdate ws "game-1" CREATED "c1"
                       Sample.connectionIds false w).2)
  = ["c2"; "c3"; "c4"] ∧
  recipients (trace (broadcastGameUpdate ws "game-1" CREATED "c1"
                       Sample.connectionIds true w).2)
  = ["c1"; "c2"; "c3"; "c4"] ∧
  broadcastGameUpdate ws "game-9" CREATED "c1" Sample.connectionIds false w
  = (Returned None, w).
Proof.
  intros ws w.
  destruct (broadcastGameUpdate_spec ws "game-1" CREATED "c1"
              Sample.connectionIds false w) as [_ Hothers].
  destruct (broadcastGameUpdate_spec ws "game-1" CREATED "c1"
              Sample.connectionIds true w) as [_ Hall].
  destruct (broadcastGameUpdate_spec ws "game-9" CREATED "c1"
              Sample.connectionIds false w) as [Hmissing _].
  rewrite (Hothers SampleLobby.game eq_refl), (Hall SampleLobby.game eq_refl),
    (Hmissing eq_refl).
  repeat split.
Defined.

(* ===================================================================== *)
(** ** Creating a game *)
(* ===================================================================== *)

Lemma broadcastGameUpdate_run ws gameId state callerConnectionId
    allConnectionIds w :
  broadcastGameUpdate ws gameId state callerConnectionId allConnectionIds
                      false w
  = (Returned (games w !! gameId),
     emitAll
       match games w !! gameId with
       | Some game =>
           sendAll (createGameUpdateResponse game state)
             (getConnectionIdsExceptCaller callerConnectionId
                                           allConnectionIds)
       | None => []
       end w).
Proof.
  unfold broadcastGameUpdate, getGameByGameId, DB.get.
  rewrite !bind_run. simpl.
  destruct (games w !! gameId) as [game|].
  - change (id <$> Some game) with (Some game).
    cbv iota beta. unfold removeDynamoDocumentVersion. rewrite bind_run.
    pose proof (sendToEach_run ws (createGameUpdateResponse game state)
                  (getConnectionIdsExceptCaller callerConnectionId
                                                allConnectionIds) w)
      as Hsent.
    unfold sendToEach in Hsent. by rewrite Hsent.
  - change (id <$> None) with (@None Game.t).
    cbv iota beta. cbv [mret Async_ret]. by rewrite emitAll_nil.
Qed.

(** X21. With each send taken as one delivery, [getGameByGameId] as a read
    of the table of games and [createGame] as a parameter, [onCreateGame]
    by what [createGame] does. Without a game in the payload the handler
    sends the failure to the caller and answers 400. Where [createGame]
    is rejected, the handler sends the failure and answers 500. Where it
    resolves to a game but the caller's connection is then not stored or
    in a game already, [setGameIdForUser] is rejected: the handler sends
    the failure and answers 500, and what [createGame] did stays done.
    Where it resolves to a game and the caller's connection is stored and
    in no game, the connection takes the id of the game, the caller gets
    the success response, then every other stored connection gets the
    update of the game, if the game has an id and is stored, and the
    handler answers 200. *)
Theorem onCreateGame_spec `{GameCreation}
    (event : WebSocketAPIGatewayEvent) (w : World) :
  let connectionId := requestContext_connectionId event in
  let failure err :=
    EvSend connectionId
      (failedWebSocketResponse (createGameResponse None) err) in
  let made game :=
    createGame connectionId (payload_gameName game) (payload_gameType game)
               (payload_gameVersion game) w in
  (body_payload_game event = None →
     onCreateGame event w
     = (Returned (response 400 (BodyText "Games attribute cannot be empty")),
        emit (failure (BodyText "Games attribute cannot be empty")) w)) ∧
  (∀ game e w1,
     body_payload_game event = Some game →
     made game = (Threw e, w1) →
     onCreateGame event w
     = (Returned (response 500 (BodyError e)),
        emit (failure (BodyError e)) w1)) ∧
  (∀ game created w1,
     body_payload_game event = Some game →
     made game = (Returned created, w1) →
     (connections w1 !! connectionId = None ∨
      is_Some (connections w1 !! connectionId ≫= UserItem.gameId)) →
     onCreateGame event w
     = (Returned (response 500 (BodyError ConditionalCheckFailedException)),
        emit (failure (BodyError ConditionalCheckFailedException)) w1)) ∧
  (∀ game created w1 item,
     body_payload_game event = Some game →
     made game = (Returned created, w1) →
     connections w1 !! connectionId = Some item →
     UserItem.gameId item = None →
     let w2 :=
       emit (EvSend connectionId
               (successWebSocketResponse
                  (createGameResponse (Some created))))
         (writeConnection connectionId
            (UserItem.mk (UserItem.username item)
                         (Some (Game.gameId created))) w1) in
     ∃ users,
       getAllConnections w2 = (Returned users, w2) ∧
       onCreateGame event w
       = (Returned (response 200 (BodyText "Game created successfully")),
          emitAll
            (if String.eqb (Game.gameId created) EmptyString then []
             else
               match games w1 !! Game.gameId created with
               | Some stored =>
                   sendAll (createGameUpdateResponse stored CREATED)
                     (getConnectionIdsExceptCaller connectionId
                        (getConnectionIdsFromUsers users))
               | None => []
               end) w2)).
Proof.
  intros connectionId failure made. subst made. cbv beta.
  split; [| split; [| split]].
  - intros Hgame. unfold onCreateGame, try_catch. fold connectionId.
    by rewrite Hgame.
  - intros game e w1 Hgame Hmade. unfold onCreateGame, try_catch.
    fold connectionId. by rewrite Hgame, bind_run, Hmade.
  - intros game created w1 Hgame Hmade Hbusy.
    unfold onCreateGame, try_catch. fold connectionId.
    rewrite Hgame, bind_run, Hmade. cbv iota beta zeta.
    unfold removeDynamoDocumentVersion.
    rewrite bind_run, setGameIdForUser_run.
    destruct (connections w1 !! connectionId) as [item|]; [| reflexivity].
    destruct Hbusy as [? | [other Hother]]; [done |].
    simpl in Hother. by rewrite Hother.
  - intros game created w1 item Hgame Hmade Hitem Hfree w2.
    destruct (getAllConnections_run w2) as (users & Hall & _ & _).
    exists users. split; [exact Hall |].
    unfold onCreateGame, try_catch. fold connectionId.
    rewrite Hgame, bind_run, Hmade. cbv iota beta zeta.
    unfold removeDynamoDocumentVersion.
    rewrite bind_run, setGameIdForUser_run, Hitem, Hfree.
    cbv iota beta zeta. rewrite bind_run. unfold ws.send at 1.
    cbv iota beta. fold w2. rewrite bind_run, Hall. cbv iota beta.
    rewrite bind_run.
    destruct (String.eqb (Game.gameId created) EmptyString).
    + cbn [negb]. cbv [mret Async_ret]. cbv iota beta.
      by rewrite emitAll_nil.
    + cbn [negb]. rewrite broadcastGameUpdate_run. reflexivity.
Qed.

(** The newcomer c5 creates a game: 200, and the connection of c5 carries
    the id of the game. Player c1, who is in a game, is answered 500. A
    payload without a game is answered 400 and changes no table. *)
Lemma onCreateGame_spec_witness :
  let kings := Some (mkGamePayload "kings" "Mahjong" "HK") in
  let create c game :=
    onCreateGame (H := Sample.gameCreation) (mkEvent c game)
      SampleLobby.newcomer in
  (create "c5" kings).1
  = Returned (response 200 (BodyText "Game created successfully")) ∧
  (connections (create "c5" kings).2 !! "c5" ≫= UserItem.gameId)
  = Some "game-2" ∧
  (create "c1" kings).1
  = Returned (response 500 (BodyError ConditionalCheckFailedException)) ∧
  (create "c5" None).1
  = Returned (response 400 (BodyText "Games attribute cannot be empty")) ∧
  sameTables SampleLobby.newcomer (create "c5" None).2.
Proof.
  intros kings create.
  destruct (onCreateGame_spec (H := Sample.gameCreation)
              (mkEvent "c5" kings) SampleLobby.newcomer)
    as (_ & _ & _ & Hcreated).
  destruct (onCreateGame_spec (H := Sample.gameCreation)
              (mkEvent "c1" kings) SampleLobby.newcomer)
    as (_ & _ & Hbusy & _).
  destruct (onCreateGame_spec (H := Sample.gameCreation)
              (mkEvent "c5" None) SampleLobby.newcomer)
    as (Hempty & _).
  destruct (Hcreated (mkGamePayload "kings" "Mahjong" "HK") _ _
              (UserItem.mk (Some "eve") None) eq_refl eq_refl eq_refl
              eq_refl) as (users & _ & Hrun).
  subst create. cbv beta.
  rewrite Hrun, (Hbusy (mkGamePayload "kings" "Mahjong" "HK") _ _ eq_refl
                   eq_refl ltac:(right; by exists "game-1")),
    (Hempty eq_refl).
  repeat split.
Defined.
